(** * rshell: a remote shell for MicroPython boards

    A shallow embedding of the device-driver core of [rshell/rshell.py]:
    path normalisation and routing, the device registry, the stat helpers,
    file removal, the raw-REPL remote call and the ack-paced file-transfer
    sub-protocol.  Python values are modelled as follows: [str] as
    [string], [bytes]/[bytearray] as [list byte], tuples of ints as
    [list Z], exceptions as the [Raise] branch of [result]. *)

From Stdlib Require Import List ZArith Lia Bool String Ascii Arith FinFun.
From Stdlib Require Strings.Byte.
From Stdlib Require Import DecimalString DecimalNat.
Import ListNotations.

Set Implicit Arguments.

(** [bytes] and [bytearray] values. *)
Definition bytes : Type := list Byte.byte.

(** ** Python exceptions and fallible computations *)

Inductive exn : Type :=
| IndexError
| OSError
| TypeError
| AttributeError
| RecursionError
| PyboardError
| ValueError
| SerialException
| DeviceError.

Inductive result (A : Type) : Type :=
| Ok (a : A)
| Raise (e : exn).

Arguments Ok {A} a.
Arguments Raise {A} e.

Definition bind {A B : Type} (m : result A) (k : A -> result B) : result B :=
  match m with
  | Ok a => k a
  | Raise e => Raise e
  end.

Notation "x <- m ;; k" := (bind m (fun x => k))
  (at level 61, m at next level, right associativity).

(** ** Python string primitives *)

Module PyStr.

Local Open Scope string_scope.

(** [s[0]] *)
Definition first (s : string) : result ascii :=
  match s with
  | EmptyString => Raise IndexError
  | String c _ => Ok c
  end.

(** [s[-1]] *)
Fixpoint last (s : string) : result ascii :=
  match s with
  | EmptyString => Raise IndexError
  | String c EmptyString => Ok c
  | String _ s' => last s'
  end.

(** [s.split(sep)] for a one-character separator: never the empty list. *)
Fixpoint split (sep : ascii) (s : string) : list string :=
  match s with
  | EmptyString => [EmptyString]
  | String c s' =>
      if Ascii.eqb c sep then EmptyString :: split sep s'
      else match split sep s' with
           | h :: t => String c h :: t
           | [] => [String c EmptyString]
           end
  end.

(** [sep.join(l)] *)
Definition join (sep : string) (l : list string) : string :=
  String.concat sep l.

(** [sep in s] *)
Fixpoint has_char (sep : ascii) (s : string) : bool :=
  match s with
  | EmptyString => false
  | String c s' => Ascii.eqb c sep || has_char sep s'
  end.

(** [s.startswith(p)] *)
Definition startswith (s p : string) : bool := String.prefix p s.

(** [s[i:]] for an integer [i], negative indices counting from the end. *)
Fixpoint drop (n : nat) (s : string) : string :=
  match n, s with
  | O, _ => s
  | S _, EmptyString => EmptyString
  | S n', String _ s' => drop n' s'
  end.

Definition slice_from (s : string) (i : Z) : string :=
  if (i <? 0)%Z
  then drop (Z.to_nat (Z.max 0 (Z.of_nat (String.length s) + i))) s
  else drop (Z.to_nat i) s.

End PyStr.

(** ** Path normalisation: [resolve_path] *)

Section ResolvePath.

Local Open Scope string_scope.

(** [os.path.expanduser] and the process-wide [cur_dir]. *)
Variable expanduser : string -> string.
Variable cur_dir : string.

(** One iteration of [for comp in comps]. *)
Definition resolve_step (new_comps : list string) (comp : string) : list string :=
  if comp =? "." then new_comps
  else if (comp =? "..") && (1 <? List.length new_comps)%nat
       then removelast new_comps
       else (new_comps ++ [comp])%list.

Definition resolve_path (path : string) : result string :=
  c0 <- PyStr.first path ;;
  let path := if Ascii.eqb c0 "~" then expanduser path else path in
  c1 <- PyStr.first path ;;
  path <- (if negb (Ascii.eqb c1 "/")
           then cl <- PyStr.last cur_dir ;;
                if Ascii.eqb cl "/"
                then Ok (cur_dir ++ path)
                else Ok (cur_dir ++ "/" ++ path)
           else Ok path) ;;
  let comps := PyStr.split "/" path in
  let new_comps := fold_left resolve_step comps [] in
  if (List.length new_comps =? 1)%nat
  then Ok (hd "" new_comps ++ "/")
  else Ok (PyStr.join "/" new_comps).

End ResolvePath.

(** A model of [posixpath.expanduser]: [home] is [$HOME], [pw] the password
    database ([None] when the user is unknown, in which case the path is
    returned unchanged). *)
Module Posix.

Local Open Scope string_scope.

Fixpoint rstrip_slash_rev (s : list ascii) : list ascii :=
  match s with
  | c :: s' => if Ascii.eqb c "/" then rstrip_slash_rev s' else s
  | [] => []
  end.

Definition rstrip_slash (s : string) : string :=
  string_of_list_ascii (rev (rstrip_slash_rev (rev (list_ascii_of_string s)))).

(** Splits ["~user/rest"] into [("user", "/rest")]. *)
Fixpoint span_slash (s : string) : string * string :=
  match s with
  | EmptyString => (EmptyString, EmptyString)
  | String c s' =>
      if Ascii.eqb c "/" then (EmptyString, s)
      else let (u, r) := span_slash s' in (String c u, r)
  end.

Definition expanduser (home : string) (pw : string -> option string)
    (path : string) : string :=
  match path with
  | String "~" rest =>
      let (user, tail) := span_slash rest in
      let userhome :=
        if user =? "" then Some home else pw user in
      match userhome with
      | None => path
      | Some h =>
          let r := rstrip_slash h ++ tail in
          if r =? "" then "/" else r
      end
  | _ => path
  end.

End Posix.

(** ** The device registry: [DEVS], [DEFAULT_DEV], [DEV_IDX] *)

(** The raw-REPL channel of a board, as the [pyboard] module drives it. *)
Inductive repl_state : Type :=
| friendly
| raw_entering
| raw_ready
| executing
| following
| raw_exiting.

(** The [pyboard.Pyboard] object held in [Device.pyb]: the state of the
    channel, the bytes the board has sent and the host has not read yet,
    and whether the serial link still works. *)
Record Pyboard : Type := {
  repl : repl_state;
  rx : bytes;
  link_up : bool
}.

(** A [Device] object.  [obj_id] stands for the identity of the Python
    object (the [is] operator); [pyb = None] is a closed device. *)
Record Device : Type := {
  obj_id : nat;
  dev_name_short : string;
  name : string;
  name_path : string;
  root_dirs : list string;
  has_buffer : bool;
  pyb : option Pyboard
}.

Record Registry : Type := {
  DEVS : list Device;
  DEFAULT_DEV : option Device;
  DEV_IDX : nat
}.

Module Reg.

Local Open Scope string_scope.

(** Module state at import time. *)
Definition initial : Registry :=
  {| DEVS := []; DEFAULT_DEV := None; DEV_IDX := 1 |}.

(** [test_dev is DEFAULT_DEV] *)
Definition is_default (test_dev : Device) (default : option Device) : bool :=
  match default with
  | Some d => (obj_id d =? obj_id test_dev)%nat
  | None => false
  end.

Definition find_device_by_name (r : Registry) (nm : string) : option Device :=
  if nm =? "" then DEFAULT_DEV r
  else find (fun dev => name dev =? nm) (DEVS r).

(** The loop that drops the first registered device with the same short
    name, clearing [DEFAULT_DEV] when it was the default. *)
Fixpoint drop_same_short (short : string) (devs : list Device)
    (default : option Device) : list Device * option Device :=
  match devs with
  | [] => ([], default)
  | test_dev :: rest =>
      if dev_name_short test_dev =? short
      then (rest, if is_default test_dev default then None else default)
      else let (rest', default') := drop_same_short short rest default in
           (test_dev :: rest', default')
  end.

(** ['%d' % n] *)
Definition decimal (n : nat) : string :=
  NilEmpty.string_of_uint (Nat.to_uint n).

Definition set_name (dev : Device) (nm : string) : Device :=
  {| obj_id := obj_id dev; dev_name_short := dev_name_short dev;
     name := nm; name_path := name_path dev; root_dirs := root_dirs dev;
     has_buffer := has_buffer dev; pyb := pyb dev |}.

Definition set_name_path (dev : Device) (np : string) : Device :=
  {| obj_id := obj_id dev; dev_name_short := dev_name_short dev;
     name := name dev; name_path := np; root_dirs := root_dirs dev;
     has_buffer := has_buffer dev; pyb := pyb dev |}.

Definition add_device (r : Registry) (dev : Device) : Registry :=
  let (devs, default) :=
    drop_same_short (dev_name_short dev) (DEVS r) (DEFAULT_DEV r) in
  let r1 := {| DEVS := devs; DEFAULT_DEV := default; DEV_IDX := DEV_IDX r |} in
  let dev :=
    match find_device_by_name r1 (name dev) with
    | Some _ => set_name dev (name dev ++ "-" ++ decimal (DEV_IDX r))
    | None => dev
    end in
  let dev := set_name_path dev ("/" ++ name dev ++ "/") in
  {| DEVS := (devs ++ [dev])%list;
     DEFAULT_DEV := match default with None => Some dev | Some d => Some d end;
     DEV_IDX := DEV_IDX r + 1 |}.

(** [Device.is_root_path] *)
Definition is_root_path (self : Device) (filename : string) : bool :=
  let test_filename := filename ++ "/" in
  existsb (fun root_dir => PyStr.startswith test_filename root_dir)
          (root_dirs self).

Definition get_dev_and_path (r : Registry) (filename : string)
    : option Device * string :=
  if match DEFAULT_DEV r with
     | Some d => is_root_path d filename
     | None => false
     end
  then (DEFAULT_DEV r, filename)
  else
    let test_filename := filename ++ "/" in
    match find (fun dev => PyStr.startswith test_filename (name_path dev))
               (DEVS r) with
    | Some dev =>
        let dev_filename :=
          PyStr.slice_from filename
            (Z.of_nat (String.length (name_path dev)) - 1) in
        (Some dev, if dev_filename =? "" then "/" else dev_filename)
    | None => (None, filename)
    end.

(** [auto]: run [func] on the host when the file is local, otherwise have
    the device evaluate it ([dev.remote_eval(func, dev_filename, ...)]). *)
Definition auto {A : Type} (r : Registry) (func : string -> A)
    (remote_eval : Device -> string -> A) (filename : string) : A :=
  match get_dev_and_path r filename with
  | (None, dev_filename) => func dev_filename
  | (Some dev, dev_filename) => remote_eval dev dev_filename
  end.

(** A freshly constructed device, before [add_device] names its mount. *)
Definition new_device (id : nat) (short board_name : string)
    (roots : list string) : Device :=
  {| obj_id := id; dev_name_short := short; name := board_name;
     name_path := ""; root_dirs := roots; has_buffer := true; pyb := None |}.

End Reg.

(** ** Stat tuples: [get_stat] and the accessors *)

Definition TIME_OFFSET : Z := 946684800.

Module Stat.

Section GetStat.

(** [os.stat] of the machine the function runs on, and the [IS_UPY] flag
    substituted into the source that is sent to a board. *)
Variable os_stat : string -> result (list Z).
Variable IS_UPY : bool.

(** The nested helper [stat]. *)
Definition stat (filename : string) : result (list Z) :=
  rstat <- os_stat filename ;;
  if IS_UPY
  then Ok (firstn 7 rstat ++ map (fun tim => (tim + TIME_OFFSET)%Z) (skipn 7 rstat))
  else Ok rstat.

Definition get_stat (filename : string) : result (list Z) :=
  match stat filename with
  | Ok t => Ok t
  | Raise OSError => Ok [0; 0; 0; 0; 0; 0; 0; 0]%Z
  | Raise e => Raise e
  end.

End GetStat.

(** [t[i]] on a tuple *)
Definition item (t : list Z) (i : nat) : result Z :=
  match nth_error t i with
  | Some v => Ok v
  | None => Raise IndexError
  end.

Definition stat_mode (st : list Z) : result Z := item st 0.
Definition stat_size (st : list Z) : result Z := item st 6.
Definition stat_mtime (st : list Z) : result Z := item st 8.

Definition mode_exists (mode : Z) : bool := negb (Z.land mode 0xc000 =? 0)%Z.
Definition mode_isdir (mode : Z) : bool := negb (Z.land mode 0x4000 =? 0)%Z.
Definition mode_isfile (mode : Z) : bool := negb (Z.land mode 0x8000 =? 0)%Z.

End Stat.

(** ** File removal: [remove_file] and [rm] *)

Module Remove.

Local Open Scope string_scope.

(** How the body of a [try] block ends. *)
Inductive flow : Type :=
| Fallthrough
| Return (b : bool)
| Except (e : exn).

Section RemoveFile.

(** The file system the function runs on and its [os] primitives; each
    either raises or yields a result and the updated file system. *)
Variable fs : Type.
Variable os_stat : fs -> string -> result (list Z).
Variable os_listdir : fs -> string -> result (list string).
Variable os_rmdir : fs -> string -> result fs.
Variable os_remove : fs -> string -> result fs.

(** [for file in os.listdir(filename): ...], given the recursive call. *)
Fixpoint remove_children (rec : string -> fs -> result bool * fs)
    (filename : string) (force : bool) (files : list string) (st : fs)
    : flow * fs :=
  match files with
  | [] => (Fallthrough, st)
  | file :: rest =>
      match rec (filename ++ "/" ++ file) st with
      | (Raise e, st') => (Except e, st')
      | (Ok success, st') =>
          if negb success && negb force
          then (Return false, st')
          else remove_children rec filename force rest st'
      end
  end.

Definition unlink (op : fs -> string -> result fs) (filename : string)
    (st : fs) : flow * fs :=
  match op st filename with
  | Ok st' => (Fallthrough, st')
  | Raise e => (Except e, st)
  end.

(** [depth] is the room left on the interpreter's call stack: a call made
    with none left raises [RecursionError] at the call site. *)
Fixpoint remove_file (depth : nat) (filename : string)
    (recursive force : bool) (st : fs) : result bool * fs :=
  match depth with
  | O => (Raise RecursionError, st)
  | S depth' =>
      let body : flow * fs :=
        match os_stat st filename with
        | Raise e => (Except e, st)
        | Ok t =>
            match Stat.item t 0 with
            | Raise e => (Except e, st)
            | Ok mode =>
                if negb (Z.land mode 0x4000 =? 0)%Z
                then
                  let children :=
                    if recursive
                    then match os_listdir st filename with
                         | Raise e => (Except e, st)
                         | Ok files =>
                             remove_children
                               (fun f => remove_file depth' f recursive force)
                               filename force files st
                         end
                    else (Fallthrough, st) in
                  match children with
                  | (Fallthrough, st') => unlink os_rmdir filename st'
                  | other => other
                  end
                else unlink os_remove filename st
            end
        end in
      match body with
      | (Return b, st') => (Ok b, st')
      | (Except _, st') => if negb force then (Ok false, st') else (Ok true, st')
      | (Fallthrough, st') => (Ok true, st')
      end
  end.

(** [rm]: [remove_file] through [auto].  [remote_eval] stands for
    [dev.remote_eval(remove_file, dev_filename, recursive, force)], which
    leaves the host file system alone. *)
Variable remote_eval : Device -> string -> bool -> bool -> result bool.

Definition rm (r : Registry) (depth : nat) (filename : string)
    (recursive force : bool) (st : fs) : result bool * fs :=
  Reg.auto r
    (fun dev_filename => remove_file depth dev_filename recursive force st)
    (fun dev dev_filename => (remote_eval dev dev_filename recursive force, st))
    filename.

End RemoveFile.

(** A small file system for examples: the paths that exist, each a
    directory or a file, and the paths whose removal is refused. *)
Record memfs : Type := {
  entries : list (string * bool);
  locked : list string
}.

Definition lookup (st : memfs) (path : string) : option bool :=
  match find (fun e => fst e =? path) (entries st) with
  | Some (_, isdir) => Some isdir
  | None => None
  end.

Definition mem_stat (st : memfs) (path : string) : result (list Z) :=
  match lookup st path with
  | Some true => Ok [0x4000; 0; 0; 0; 0; 0; 0; 0; 0; 0]%Z
  | Some false => Ok [0x8000; 0; 0; 0; 0; 0; 0; 0; 0; 0]%Z
  | None => Raise OSError
  end.

(** The name of [path] within [dir] when [path] lies directly in it. *)
Definition child_of (dir path : string) : option string :=
  let pre := dir ++ "/" in
  if PyStr.startswith path pre
  then let rest := PyStr.drop (String.length pre) path in
       if (rest =? "") || PyStr.has_char "/" rest then None else Some rest
  else None.

Definition children (st : memfs) (dir : string) : list string :=
  flat_map (fun e => match child_of dir (fst e) with
                     | Some n => [n]
                     | None => []
                     end) (entries st).

Definition mem_listdir (st : memfs) (path : string) : result (list string) :=
  match lookup st path with
  | Some true => Ok (children st path)
  | _ => Raise OSError
  end.

Definition delete (st : memfs) (path : string) : memfs :=
  {| entries := filter (fun e => negb (fst e =? path)) (entries st);
     locked := locked st |}.

Definition mem_rmdir (st : memfs) (path : string) : result memfs :=
  match lookup st path with
  | Some true =>
      if existsb (String.eqb path) (locked st) then Raise OSError
      else match children st path with
           | [] => Ok (delete st path)
           | _ :: _ => Raise OSError
           end
  | _ => Raise OSError
  end.

Definition mem_remove (st : memfs) (path : string) : result memfs :=
  match lookup st path with
  | Some false =>
      if existsb (String.eqb path) (locked st) then Raise OSError
      else Ok (delete st path)
  | _ => Raise OSError
  end.

(** [/tmp/d] holds [a] and the undeletable [b]. *)
Definition example_fs : memfs :=
  {| entries := [("/tmp", true); ("/tmp/d", true); ("/tmp/d/a", false);
                 ("/tmp/d/b", false)];
     locked := ["/tmp/d/b"] |}.

End Remove.

(** ** The remote call: [Device.remote] *)

Module Remote.

(** Methods of [Device] read and update the object and may raise. *)
Definition M (A : Type) : Type := Device -> result A * Device.

Definition ret {A : Type} (a : A) : M A := fun self => (Ok a, self).

Definition raise {A : Type} (e : exn) : M A := fun self => (Raise e, self).

Definition bindM {A B : Type} (m : M A) (k : A -> M B) : M B :=
  fun self =>
    match m self with
    | (Ok a, self') => k a self'
    | (Raise e, self') => (Raise e, self')
    end.

Notation "x <~ m ;; k" := (bindM m (fun x => k))
  (at level 61, m at next level, right associativity).
Notation "m ;;; k" := (bindM m (fun _ => k))
  (at level 61, right associativity).

Definition set_pyb (self : Device) (p : option Pyboard) : Device :=
  {| obj_id := obj_id self; dev_name_short := dev_name_short self;
     name := name self; name_path := name_path self;
     root_dirs := root_dirs self; has_buffer := has_buffer self; pyb := p |}.

Definition set_repl (p : Pyboard) (s : repl_state) : Pyboard :=
  {| repl := s; rx := rx p; link_up := link_up p |}.

Definition set_rx (p : Pyboard) (data : bytes) : Pyboard :=
  {| repl := repl p; rx := data; link_up := link_up p |}.

Section Call.

(** How the board answers the four raw-REPL operations of this call: each
    either succeeds or raises. *)
Variable on_enter : result unit.
Variable on_exec : result unit.
Variable on_follow : result (string * string).
Variable on_exit : result unit.

(** Modelled from the spec: the [pyboard] module is not among the sources.
    [enter_raw_repl] sends the control sequence and waits for the banner;
    it leaves the channel ready, or fails while entering. *)
Definition enter_raw_repl (p : Pyboard) : result unit * Pyboard :=
  match on_enter with
  | Ok _ => (Ok tt, set_repl p raw_ready)
  | Raise e => (Raise e, set_repl p raw_entering)
  end.

(** Modelled from the spec: [exec_raw_no_follow] writes the source and the
    end-of-text byte and waits for the accepted indicator; on success the
    board is executing. *)
Definition exec_raw_no_follow (p : Pyboard) : result unit * Pyboard :=
  match on_exec with
  | Ok _ => (Ok tt, set_repl p executing)
  | Raise e => (Raise e, p)
  end.

(** Modelled from the spec: [follow] reads the output and the error stream
    until the raw prompt returns; a failure leaves the channel following. *)
Definition follow (p : Pyboard) : result (string * string) * Pyboard :=
  match on_follow with
  | Ok oe => (Ok oe, set_repl p raw_ready)
  | Raise e => (Raise e, set_repl p following)
  end.

(** Modelled from the spec: [exit_raw_repl] sends Ctrl-B and returns the
    channel to friendly mode. *)
Definition exit_raw_repl (p : Pyboard) : result unit * Pyboard :=
  match on_exit with
  | Ok _ => (Ok tt, set_repl p friendly)
  | Raise e => (Raise e, set_repl p raw_exiting)
  end.

(** Modelled from the spec: [serial.read(num_bytes)] of the transport. *)
Definition serial_read (p : Pyboard) (num_bytes : nat) : result bytes * Pyboard :=
  if link_up p
  then (Ok (firstn num_bytes (rx p)), set_rx p (skipn num_bytes (rx p)))
  else (Raise SerialException, p).

(** Modelled from the spec: [serial.write(buf)] of the transport. *)
Definition serial_write (p : Pyboard) (buf : bytes) : result nat * Pyboard :=
  if link_up p
  then (Ok (List.length buf), p)
  else (Raise SerialException, p).

(** [self.pyb.op(...)]: an attribute of [None] cannot be looked up. *)
Definition on_pyb {A : Type} (op : Pyboard -> result A * Pyboard) : M A :=
  fun self =>
    match pyb self with
    | None => (Raise AttributeError, self)
    | Some p => let (r, p') := op p in (r, set_pyb self (Some p'))
    end.

Definition check_pyb : M unit :=
  fun self =>
    match pyb self with
    | None => (Raise DeviceError, self)
    | Some _ => (Ok tt, self)
    end.

Definition close : M unit :=
  fun self =>
    match pyb self with
    | None => (Raise AttributeError, self)
    | Some _ => (Ok tt, set_pyb self None)
    end.

Definition read (num_bytes : nat) : M bytes :=
  check_pyb ;;;
  fun self =>
    match on_pyb (fun p => serial_read p num_bytes) self with
    | (Raise SerialException, self') =>
        (close ;;; raise DeviceError) self'
    | other => other
    end.

Definition write (buf : bytes) : M nat :=
  check_pyb ;;;
  fun self =>
    match on_pyb (fun p => serial_write p buf) self with
    | (Raise SerialException, self') =>
        (Raise DeviceError, set_pyb self' None)
    | other => other
    end.

(** [Device.remote]: the source text sent to the board does not influence
    the channel and is left out; [xfer_func], when given, is the transfer
    function applied to the device. *)
Definition remote (xfer_func : option (M unit)) : M string :=
  check_pyb ;;;
  on_pyb enter_raw_repl ;;;
  check_pyb ;;;
  on_pyb exec_raw_no_follow ;;;
  match xfer_func with
  | Some xfer => xfer
  | None => ret tt
  end ;;;
  check_pyb ;;;
  oe <~ on_pyb follow ;;
  check_pyb ;;;
  on_pyb exit_raw_repl ;;;
  ret (fst oe).

End Call.

(** The channel state the spec speaks about: [None] is a closed device. *)
Definition channel (self : Device) : option repl_state :=
  match pyb self with
  | Some p => Some (repl p)
  | None => None
  end.

Definition restored (self : Device) : bool :=
  match channel self with
  | None => true
  | Some friendly => true
  | Some _ => false
  end.

(** A connected pyboard on a serial link that is up or down. *)
Definition board (up : bool) : Device :=
  {| obj_id := 0; dev_name_short := "/dev/ttyACM0"; name := "pyboard";
     name_path := "/pyboard/"; root_dirs := ["/flash/"%string];
     has_buffer := true;
     pyb := Some {| repl := friendly; rx := []; link_up := up |} |}.

End Remote.

(** ** The file-transfer sub-protocol *)

Module Xfer.

Import Byte.

(** ASCII ACK, [b'\x06'] *)
Definition ACK : Byte.byte := x06.

(** *** [binascii.hexlify] and [binascii.unhexlify] *)

Definition hex_digit (n : nat) : Byte.byte :=
  nth n [x30; x31; x32; x33; x34; x35; x36; x37; x38; x39;
         x61; x62; x63; x64; x65; x66] x30.

Definition hexlify_byte (b : Byte.byte) : bytes :=
  [hex_digit (Byte.to_nat b / 16); hex_digit (Byte.to_nat b mod 16)].

Definition hexlify (buf : bytes) : bytes := flat_map hexlify_byte buf.

Definition hex_value (c : Byte.byte) : option nat :=
  let n := Byte.to_nat c in
  if (48 <=? n) && (n <=? 57) then Some (n - 48)
  else if (97 <=? n) && (n <=? 102) then Some (n - 87)
  else if (65 <=? n) && (n <=? 70) then Some (n - 55)
  else None.

Fixpoint unhexlify (s : bytes) : result bytes :=
  match s with
  | [] => Ok []
  | hi :: lo :: rest =>
      match hex_value hi, hex_value lo with
      | Some h, Some l =>
          match Byte.of_nat (16 * h + l) with
          | Some b => r <- unhexlify rest ;; Ok (b :: r)
          | None => Raise ValueError
          end
      | _, _ => Raise ValueError
      end
  | [_] => Raise ValueError
  end.

(** *** Slices of a [bytearray] *)

(** A slice bound, clipped to the length; a negative one counts from the end. *)
Definition bound (len : nat) (i : Z) : nat :=
  if (i <? 0)%Z
  then Z.to_nat (Z.max 0 (Z.of_nat len + i))
  else Nat.min (Z.to_nat i) len.

(** [w[i:j]] *)
Definition slice (w : bytes) (i j : Z) : bytes :=
  let a := bound (List.length w) i in
  let b := bound (List.length w) j in
  firstn (b - a) (skipn a w).

(** [w[i:j] = x]: the slice is replaced by [x], whatever its length; an
    empty slice ([j <= i]) makes it an insertion at [i]. *)
Definition slice_assign (w : bytes) (i j : Z) (x : bytes) : bytes :=
  let a := bound (List.length w) i in
  let b := Nat.max a (bound (List.length w) j) in
  firstn a w ++ x ++ skipn b w.

(** [bytearray(n)] *)
Definition bytearray (n : Z) : result bytes :=
  if (n <? 0)%Z then Raise ValueError else Ok (repeat x00 (Z.to_nat n)).

(** [f.read(n)] on a file whose unread content is [src]: the bytes read and
    the content left; a negative [n] reads to the end. *)
Definition file_read (src : bytes) (n : Z) : bytes * bytes :=
  if (n <? 0)%Z then (src, [])
  else (firstn (Z.to_nat n) src, skipn (Z.to_nat n) src).

(** [char == b'\x06'] *)
Definition is_ack (char : bytes) : bool :=
  match char with
  | [b] => Byte.eqb b ACK
  | _ => false
  end.

(** *** Processes

    Each of the four transfer functions is a process that talks to its peer
    over the serial line.  A process state sits at a point of the function
    where it performs input or output; [step] gives that action and the
    state at the next such point. *)

Inductive stream : Type := Stdout | Stderr.

Inductive action (S R : Type) : Type :=
| Send (data : bytes) (next : S)
| Recv (n : Z) (k : bytes -> S)
| Print (fd : stream) (data : bytes) (next : S)
| Done (r : R).

Arguments Send {S R} data next.
Arguments Recv {S R} n k.
Arguments Print {S R} fd data next.
Arguments Done {S R} r.

Section Transfer.

(** The globals substituted into the code sent to the board. *)
Variable HAS_BUFFER : bool.
Variable BUFFER_SIZE : Z.

(** **** [send_file_to_remote] (host) *)

Inductive hs_state : Type :=
| HS_loop (bytes_remaining : Z) (src_file : bytes)
| HS_ack (bytes_remaining read_size : Z) (src_file : bytes)
| HS_echo (char : bytes) (bytes_remaining read_size : Z) (src_file : bytes).

Definition send_file_to_remote (src_file : bytes) (filesize : Z) : hs_state :=
  HS_loop filesize src_file.

Definition hs_step (s : hs_state) : action hs_state (result unit) :=
  match s with
  | HS_loop bytes_remaining src_file =>
      if (bytes_remaining >? 0)%Z then
        let buf_size := if HAS_BUFFER then BUFFER_SIZE else (BUFFER_SIZE / 2)%Z in
        let read_size := Z.min bytes_remaining buf_size in
        let (buf, src_file') := file_read src_file read_size in
        Send (if HAS_BUFFER then buf else hexlify buf)
             (HS_ack bytes_remaining read_size src_file')
      else Done (Ok tt)
  | HS_ack bytes_remaining read_size src_file =>
      Recv 1 (fun char =>
        if is_ack char
        then HS_loop (bytes_remaining - read_size) src_file
        else HS_echo char bytes_remaining read_size src_file)
  | HS_echo char bytes_remaining read_size src_file =>
      (* sys.stdout.write(chr(ord(char))) *)
      match char with
      | [_] => Print Stdout char (HS_ack bytes_remaining read_size src_file)
      | _ => Done (Raise TypeError)
      end
  end.

(** **** [recv_file_from_host] (board) *)

Inductive br_state : Type :=
| BR_outer (bytes_remaining : Z) (write_buf dst_file : bytes)
| BR_inner (bytes_remaining read_size buf_remaining buf_index : Z)
           (write_buf dst_file : bytes)
| BR_return (ok : bool) (dst_file : bytes).

(** Opening the destination with mode ['wb'] truncates it. *)
Definition recv_file_from_host (filesize : Z) : br_state :=
  let bytes_remaining := filesize in
  let bytes_remaining :=
    if negb HAS_BUFFER then (bytes_remaining * 2)%Z else bytes_remaining in
  match bytearray BUFFER_SIZE with
  | Ok write_buf => BR_outer bytes_remaining write_buf []
  | Raise _ => BR_return false []
  end.

(** At the test of the inner [while].  [readinto(read_buf, n)] reads at
    most [len(read_buf)] bytes. *)
Definition br_inner (bytes_remaining read_size buf_remaining buf_index : Z)
    (write_buf dst_file : bytes) : action br_state (bool * bytes) :=
  if (buf_remaining >? 0)%Z then
    Recv (Z.min bytes_remaining (Z.max 0 BUFFER_SIZE)) (fun read_buf =>
      let bytes_read := Z.of_nat (List.length read_buf) in
      if (bytes_read >? 0)%Z
      then BR_inner bytes_remaining read_size
                    (buf_remaining - bytes_read) (buf_index + bytes_read)
                    (slice_assign write_buf buf_index bytes_read
                                  (slice read_buf 0 bytes_read))
                    dst_file
      else BR_inner bytes_remaining read_size buf_remaining buf_index
                    write_buf dst_file)
  else
    let chunk := slice write_buf 0 read_size in
    match (if HAS_BUFFER then Ok chunk else unhexlify chunk) with
    | Ok data =>
        Send [ACK] (BR_outer (bytes_remaining - read_size) write_buf
                             (dst_file ++ data))
    | Raise _ => Done (false, dst_file)
    end.

Definition br_step (s : br_state) : action br_state (bool * bytes) :=
  match s with
  | BR_outer bytes_remaining write_buf dst_file =>
      if (bytes_remaining >? 0)%Z then
        let read_size := Z.min bytes_remaining BUFFER_SIZE in
        br_inner bytes_remaining read_size read_size 0 write_buf dst_file
      else Done (true, dst_file)
  | BR_inner bytes_remaining read_size buf_remaining buf_index
             write_buf dst_file =>
      br_inner bytes_remaining read_size buf_remaining buf_index
               write_buf dst_file
  | BR_return ok dst_file => Done (ok, dst_file)
  end.

(** **** [send_file_to_host] (board) *)

Inductive bs_state : Type :=
| BS_loop (bytes_remaining : Z) (src_file : bytes)
| BS_ack (bytes_remaining : Z) (src_file : bytes)
| BS_echo (char : bytes) (bytes_remaining : Z) (src_file : bytes).

Definition send_file_to_host (src_file : bytes) (filesize : Z) : bs_state :=
  BS_loop filesize src_file.

Definition bs_step (s : bs_state) : action bs_state bool :=
  match s with
  | BS_loop bytes_remaining src_file =>
      if (bytes_remaining >? 0)%Z then
        let buf_size := if HAS_BUFFER then BUFFER_SIZE else (BUFFER_SIZE / 2)%Z in
        let read_size := Z.min bytes_remaining buf_size in
        let (buf, src_file') := file_read src_file read_size in
        Send (if HAS_BUFFER then buf else hexlify buf)
             (BS_ack (bytes_remaining - read_size) src_file')
      else Done true
  | BS_ack bytes_remaining src_file =>
      Recv 1 (fun char =>
        match char with
        | [] => BS_ack bytes_remaining src_file
        | _ => if is_ack char
               then BS_loop bytes_remaining src_file
               else BS_echo char bytes_remaining src_file
        end)
  | BS_echo char bytes_remaining src_file =>
      (* on the board, sys.stdout is the serial line *)
      Send char (BS_ack bytes_remaining src_file)
  end.

(** **** [recv_file_from_remote] (host) *)

Inductive hr_state : Type :=
| HR_outer (bytes_remaining : Z) (write_buf dst_file : bytes)
| HR_inner (bytes_remaining read_size buf_remaining buf_index : Z)
           (write_buf dst_file : bytes)
| HR_raise (e : exn) (dst_file : bytes).

Definition recv_file_from_remote (dst_file : bytes) (filesize : Z) : hr_state :=
  let bytes_remaining := filesize in
  let bytes_remaining :=
    if negb HAS_BUFFER then (bytes_remaining * 2)%Z else bytes_remaining in
  match bytearray BUFFER_SIZE with
  | Ok write_buf => HR_outer bytes_remaining write_buf dst_file
  | Raise e => HR_raise e dst_file
  end.

Definition hr_inner (bytes_remaining read_size buf_remaining buf_index : Z)
    (write_buf dst_file : bytes) : action hr_state (result unit * bytes) :=
  if (buf_remaining >? 0)%Z then
    Recv buf_remaining (fun read_buf =>
      let bytes_read := Z.of_nat (List.length read_buf) in
      if negb (bytes_read =? 0)%Z
      then HR_inner bytes_remaining read_size
                    (buf_remaining - bytes_read) (buf_index + bytes_read)
                    (slice_assign write_buf buf_index bytes_read
                                  (slice read_buf 0 bytes_read))
                    dst_file
      else HR_inner bytes_remaining read_size buf_remaining buf_index
                    write_buf dst_file)
  else
    let chunk := slice write_buf 0 read_size in
    match (if HAS_BUFFER then Ok chunk else unhexlify chunk) with
    | Ok data =>
        Send [ACK] (HR_outer (bytes_remaining - read_size) write_buf
                             (dst_file ++ data))
    | Raise e => Done (Raise e, dst_file)
    end.

Definition hr_step (s : hr_state) : action hr_state (result unit * bytes) :=
  match s with
  | HR_outer bytes_remaining write_buf dst_file =>
      if (bytes_remaining >? 0)%Z then
        let read_size := Z.min bytes_remaining BUFFER_SIZE in
        hr_inner bytes_remaining read_size read_size 0 write_buf dst_file
      else Done (Ok tt, dst_file)
  | HR_inner bytes_remaining read_size buf_remaining buf_index
             write_buf dst_file =>
      hr_inner bytes_remaining read_size buf_remaining buf_index
               write_buf dst_file
  | HR_raise e dst_file => Done (Raise e, dst_file)
  end.

End Transfer.

(** *** The serial line

    A read of at most [n] bytes blocks while the line is empty and then
    returns at least one byte and at most what has arrived; [sched] lists
    how many bytes the coming reads find on the line (all of them once the
    list is used up).  A read of no bytes returns at once. *)
Definition deliver (n : Z) (line : bytes) (sched : list nat)
    : option (bytes * bytes * list nat) :=
  if (n <=? 0)%Z then Some ([], line, sched)
  else
    match line with
    | [] => None
    | _ :: _ =>
        let k := match sched with
                 | [] => List.length line
                 | k :: _ => k
                 end in
        let m := Nat.max 1 (Nat.min k (Nat.min (Z.to_nat n) (List.length line))) in
        Some (firstn m line, skipn m line, tl sched)
    end.

(** *** Two processes joined by the line *)

Record system (A B : Type) : Type := {
  sender : A;
  receiver : B;
  to_receiver : bytes;
  to_sender : bytes;
  sched : list nat;
  stdout : bytes;
  stderr : bytes
}.

Inductive outcome (RA RB : Type) : Type :=
| Finished (a : RA) (b : RB)
| Stalled.

Arguments Finished {RA RB} a b.
Arguments Stalled {RA RB}.

Definition console (fd : stream) (data out err : bytes) : bytes * bytes :=
  match fd with
  | Stdout => (out ++ data, err)
  | Stderr => (out, err ++ data)
  end.

Section System.

Variables A B RA RB : Type.
Variable step_a : A -> action A RA.
Variable step_b : B -> action B RB.

Definition receiver_step (s : system A B) : option (system A B) :=
  match step_b (receiver s) with
  | Send data b' =>
      Some {| sender := sender s; receiver := b';
              to_receiver := to_receiver s; to_sender := to_sender s ++ data;
              sched := sched s; stdout := stdout s; stderr := stderr s |}
  | Recv n k =>
      match deliver n (to_receiver s) (sched s) with
      | Some (piece, rest, sched') =>
          Some {| sender := sender s; receiver := k piece;
                  to_receiver := rest; to_sender := to_sender s;
                  sched := sched'; stdout := stdout s; stderr := stderr s |}
      | None => None
      end
  | Print fd data b' =>
      let (out, err) := console fd data (stdout s) (stderr s) in
      Some {| sender := sender s; receiver := b';
              to_receiver := to_receiver s; to_sender := to_sender s;
              sched := sched s; stdout := out; stderr := err |}
  | Done _ => None
  end.

(** One step of the pair: the sender moves when it can, the receiver when
    the sender is blocked on an empty line or has returned. *)
Definition sys_step (s : system A B) : option (system A B) :=
  match step_a (sender s) with
  | Send data a' =>
      Some {| sender := a'; receiver := receiver s;
              to_receiver := to_receiver s ++ data; to_sender := to_sender s;
              sched := sched s; stdout := stdout s; stderr := stderr s |}
  | Recv n k =>
      match deliver n (to_sender s) [] with
      | Some (piece, rest, _) =>
          Some {| sender := k piece; receiver := receiver s;
                  to_receiver := to_receiver s; to_sender := rest;
                  sched := sched s; stdout := stdout s; stderr := stderr s |}
      | None => receiver_step s
      end
  | Print fd data a' =>
      let (out, err) := console fd data (stdout s) (stderr s) in
      Some {| sender := a'; receiver := receiver s;
              to_receiver := to_receiver s; to_sender := to_sender s;
              sched := sched s; stdout := out; stderr := err |}
  | Done _ => receiver_step s
  end.

Fixpoint steps (n : nat) (s : system A B) : system A B :=
  match n with
  | O => s
  | S n' =>
      match sys_step s with
      | Some s' => steps n' s'
      | None => s
      end
  end.

(** Where no step is left: both have returned, or one waits for ever. *)
Definition verdict (s : system A B) : outcome RA RB :=
  match step_a (sender s), step_b (receiver s) with
  | Done a, Done b => Finished a b
  | _, _ => Stalled
  end.

(** [None]: still running when the fuel is spent. *)
Fixpoint run (fuel : nat) (s : system A B) : option (outcome RA RB) :=
  match sys_step s with
  | None => Some (verdict s)
  | Some s' =>
      match fuel with
      | O => None
      | S fuel' => run fuel' s'
      end
  end.

End System.

Definition start {A B : Type} (a : A) (b : B) (sched : list nat) : system A B :=
  {| sender := a; receiver := b; to_receiver := []; to_sender := [];
     sched := sched; stdout := []; stderr := [] |}.

(** Host to board: [send_file_to_remote] against [recv_file_from_host]. *)
Definition host_to_board (HAS_BUFFER : bool) (BUFFER_SIZE : Z)
    (file : bytes) (sched : list nat) (fuel : nat) :=
  let filesize := Z.of_nat (List.length file) in
  run (hs_step HAS_BUFFER BUFFER_SIZE) (br_step HAS_BUFFER BUFFER_SIZE) fuel
      (start (send_file_to_remote file filesize)
             (recv_file_from_host HAS_BUFFER BUFFER_SIZE filesize) sched).

(** Board to host: [send_file_to_host] against [recv_file_from_remote]. *)
Definition board_to_host (HAS_BUFFER : bool) (BUFFER_SIZE : Z)
    (file : bytes) (sched : list nat) (fuel : nat) :=
  let filesize := Z.of_nat (List.length file) in
  run (bs_step HAS_BUFFER BUFFER_SIZE) (hr_step HAS_BUFFER BUFFER_SIZE) fuel
      (start (send_file_to_host file filesize)
             (recv_file_from_remote HAS_BUFFER BUFFER_SIZE [] filesize) sched).

(** *** One process against a given input

    What a process writes, prints and is left with when the bytes [inp]
    arrive on its line and nothing else does. *)

Record trace (S : Type) : Type := {
  sent : list bytes;
  out : bytes;
  err : bytes;
  final : S;
  unread : bytes
}.

Section Feed.

Variables S R : Type.
Variable step : S -> action S R.

Fixpoint feed (fuel : nat) (s : S) (inp : bytes) : trace S :=
  match fuel with
  | O => {| sent := []; out := []; err := []; final := s; unread := inp |}
  | Datatypes.S fuel' =>
      match step s with
      | Send data s' =>
          let t := feed fuel' s' inp in
          {| sent := data :: sent t; out := out t; err := err t;
             final := final t; unread := unread t |}
      | Recv n k =>
          match deliver n inp [] with
          | Some (piece, rest, _) => feed fuel' (k piece) rest
          | None =>
              {| sent := []; out := []; err := []; final := s; unread := inp |}
          end
      | Print fd data s' =>
          let t := feed fuel' s' inp in
          let (o, e) := console fd data [] [] in
          {| sent := sent t; out := o ++ out t; err := e ++ err t;
             final := final t; unread := unread t |}
      | Done _ =>
          {| sent := []; out := []; err := []; final := s; unread := inp |}
      end
  end.

Definition returned (s : S) : bool :=
  match step s with
  | Done _ => true
  | _ => false
  end.

Definition waiting (s : S) : bool :=
  match step s with
  | Recv _ _ => true
  | _ => false
  end.

End Feed.

End Xfer.

(** ** Vocabulary of the statements *)

(** A component list is in normal form from position [k] on when it has no
    ["."] component and a [".."] component only at a position below 2,
    which is where [resolve_step] leaves one. *)
Fixpoint normal (k : nat) (comps : list string) : Prop :=
  match comps with
  | [] => True
  | c :: rest =>
      c <> "."%string /\ (c = ".."%string -> k < 2) /\ normal (S k) rest
  end.

(** The part of [resolve_path] that follows the tests of the first
    character: split, fold the components, rejoin. *)
Definition rejoin (path : string) : string :=
  let new_comps := fold_left resolve_step (PyStr.split "/" path) [] in
  if (List.length new_comps =? 1)%nat
  then (hd "" new_comps ++ "/")%string
  else PyStr.join "/" new_comps.

(** The first test of [get_dev_and_path]: there is a default device and it
    claims the path as one of its root directories. *)
Definition claimed_by_default (r : Registry) (filename : string) : bool :=
  match DEFAULT_DEV r with
  | Some d => Reg.is_root_path d filename
  | None => false
  end.

(** The registry of scenario S3: [pyboard], the default, with the root
    directories [/flash/] and [/sd/], and [esp]. *)
Definition registry_S3 : Registry :=
  Reg.add_device
    (Reg.add_device Reg.initial
       (Reg.new_device 1 "/dev/ttyACM0" "pyboard" ["/flash/"; "/sd/"]%string))
    (Reg.new_device 2 "/dev/ttyUSB0" "esp" []).

Definition routed (r : Registry) (filename : string) : option string * string :=
  let (dev, path) := Reg.get_dev_and_path r filename in
  (option_map name dev, path).

(** [add_device] called for each device of a list, in order. *)
Definition add_all (r : Registry) (devs : list Device) : Registry :=
  fold_left Reg.add_device devs r.

(** The names [bare], [bare-2], ..., [bare-n]. *)
Definition suffixed (bare : string) (k : nat) : string :=
  (bare ++ "-" ++ Reg.decimal k)%string.

Definition names_upto (bare : string) (n : nat) : list string :=
  match n with
  | O => []
  | S n' => bare :: map (suffixed bare) (seq 2 n')
  end.

(** Three boards, the second of which reports the name ["pyboard-3"]. *)
Definition registry_suffix_clash : Registry :=
  add_all Reg.initial
    [Reg.new_device 1 "/dev/ttyACM0" "pyboard" [];
     Reg.new_device 2 "/dev/ttyACM1" "pyboard-3" [];
     Reg.new_device 3 "/dev/ttyACM2" "pyboard" []].

(** The registry after boards with the short names [shorts], all reporting
    the name [bare], were added to the empty registry. *)
Definition collided (bare : string) (shorts : list string) (r : Registry) : Prop :=
  map dev_name_short (DEVS r) = shorts /\
  map name (DEVS r) = names_upto bare (List.length shorts) /\
  map name_path (DEVS r) =
    map (fun n => ("/" ++ n ++ "/")%string) (names_upto bare (List.length shorts)) /\
  DEV_IDX r = List.length shorts + 1 /\
  (DEFAULT_DEV r = None <-> shorts = []).

(** The byte a sender has read while waiting for the ACK and has not yet
    printed. *)
Definition pending (s : Xfer.hs_state) : bytes :=
  match s with
  | Xfer.HS_echo char _ _ _ => char
  | _ => []
  end.

Definition not_ack (b : Byte.byte) : bool := negb (Byte.eqb b Xfer.ACK).

(** Payload bytes per chunk and wire bytes per payload byte, by mode. *)
Definition payload_size (HAS_BUFFER : bool) (BUFFER_SIZE : Z) : Z :=
  if HAS_BUFFER then BUFFER_SIZE else (BUFFER_SIZE / 2)%Z.

Definition encode (HAS_BUFFER : bool) (buf : bytes) : bytes :=
  if HAS_BUFFER then buf else Xfer.hexlify buf.

(** The buffer sizes for which sender and receiver agree on the size of a
    chunk on the wire: any positive one in binary mode, the even ones in
    hex mode. *)
Definition buffer_ok (HAS_BUFFER : bool) (BUFFER_SIZE : Z) : Prop :=
  if HAS_BUFFER then (1 <= BUFFER_SIZE)%Z
  else (2 <= BUFFER_SIZE)%Z /\ (BUFFER_SIZE mod 2 = 0)%Z.

(** The number of ACK bytes in what a process has read. *)
Definition acks (inp : bytes) : nat :=
  List.length (filter (fun b => Byte.eqb b Xfer.ACK) inp).

(** The chunks a waiting sender may still write before its next ACK. *)
Definition credit (s : Xfer.hs_state) : nat :=
  match s with
  | Xfer.HS_loop _ _ => 1
  | _ => 0
  end.

(** The states [send_file_to_remote] reaches: a byte it echoes is a single
    byte other than ACK. *)
Definition hs_reachable (s : Xfer.hs_state) : Prop :=
  match s with
  | Xfer.HS_echo char _ _ _ => exists c, char = [c] /\ not_ack c = true
  | _ => True
  end.

(** A file cut into pieces of [size] bytes, the last one possibly shorter
    ([fuel] bounds their number). *)
Fixpoint pieces (fuel size : nat) (file : bytes) : list bytes :=
  match fuel with
  | O => []
  | S fuel' =>
      match file with
      | [] => []
      | _ :: _ => firstn size file :: pieces fuel' size (skipn size file)
      end
  end.

(** The payload of each chunk of a transfer of [file]. *)
Definition payloads (HAS_BUFFER : bool) (BUFFER_SIZE : Z) (file : bytes)
    : list bytes :=
  pieces (List.length file)
         (Z.to_nat (payload_size HAS_BUFFER BUFFER_SIZE)) file.

(** A state of the pair in which nothing has been printed. *)
Definition quiet {A B : Type} (a : A) (b : B) (down up : bytes)
    (sch : list nat) : Xfer.system A B :=
  {| Xfer.sender := a; Xfer.receiver := b; Xfer.to_receiver := down;
     Xfer.to_sender := up; Xfer.sched := sch;
     Xfer.stdout := []; Xfer.stderr := [] |}.

(** Wire bytes per payload byte. *)
Definition wire_factor (HAS_BUFFER : bool) : Z := if HAS_BUFFER then 1 else 2.
(** ** Further parts of the program

    The functions around the ones above: the other file queries, the
    same-machine copy, the table and column printers, and the shell
    commands that use them. *)

(** *** Loops that print

    A [for] loop whose body prints and may raise: the output so far and
    the exception that ended the loop, if any. *)
Fixpoint for_each {A O E : Type} (body : A -> list O * option E)
    (l : list A) : list O * option E :=
  match l with
  | [] => ([], None)
  | a :: rest =>
      match body a with
      | (out, Some e) => (out, Some e)
      | (out, None) =>
          let (out', e) := for_each body rest in ((out ++ out')%list, e)
      end
  end.

(** A comprehension [[f(a) for a in l]] whose element expression may raise. *)
Fixpoint mapM {A B : Type} (f : A -> result B) (l : list A) : result (list B) :=
  match l with
  | [] => Ok []
  | a :: rest =>
      b <- f a ;;
      bs <- mapM f rest ;;
      Ok (b :: bs)
  end.

(** *** File queries: [get_filesize], [get_mode], [listdir_stat] *)

Module Files.

Local Open Scope string_scope.

Section OnMachine.

(** [os.stat] and [os.listdir] of the machine the function runs on. *)
Variable os_stat : string -> result (list Z).
Variable os_listdir : string -> result (list string).
Variable IS_UPY : bool.

Definition get_filesize (filename : string) : result Z :=
  match (rstat <- os_stat filename ;; Stat.item rstat 6) with
  | Raise OSError => Ok (-1)%Z
  | other => other
  end.

Definition get_mode (filename : string) : result Z :=
  match (rstat <- os_stat filename ;; Stat.item rstat 0) with
  | Raise OSError => Ok 0%Z
  | other => other
  end.

(** The nested helper [stat] of [listdir_stat] is the one of [get_stat],
    [Stat.stat]. *)
Definition listdir_stat (dirname : string)
    : result (list (string * list Z)) :=
  if dirname =? "/"
  then files <- os_listdir dirname ;;
       mapM (fun file => st <- Stat.stat os_stat IS_UPY ("/" ++ file) ;;
                         Ok (file, st)) files
  else files <- os_listdir dirname ;;
       mapM (fun file => st <- Stat.stat os_stat IS_UPY (dirname ++ "/" ++ file) ;;
                         Ok (file, st)) files.

End OnMachine.

End Files.

(** *** Copying on one machine: [copy_file] *)

Module Copy.

(** The files of one machine, by path. *)
Definition files : Type := string -> option bytes.

(** What [f.write(data)] on a file opened for writing leaves on disk. *)
Definition append_to (fs : files) (path : string) (data : bytes) : files :=
  fun p => if String.eqb p path
           then match fs p with
                | Some old => Some (old ++ data)%list
                | None => Some data
                end
           else fs p.

(** [open(path, 'wb')]: the file is created, or truncated. *)
Definition truncate (fs : files) (path : string) : files :=
  fun p => if String.eqb p path then Some [] else fs p.

Section CopyFile.

Variable BUFFER_SIZE : Z.

(** Whether [open(path, 'wb')] succeeds. *)
Variable can_create : string -> bool.

(** The [while True] loop; [pos] is the read position in the source file,
    which is read as it is on disk at that moment.  [None] when the loop is
    still running after [fuel] reads. *)
Fixpoint copy_loop (fuel : nat) (src_filename dst_filename : string)
    (pos : nat) (fs : files) : option files :=
  match fuel with
  | O => None
  | S fuel' =>
      let content := match fs src_filename with
                     | Some c => c
                     | None => []
                     end in
      let (buf, _) := Xfer.file_read (skipn pos content) BUFFER_SIZE in
      let fs := if (0 <? Z.of_nat (List.length buf))%Z
                then append_to fs dst_filename buf else fs in
      if (Z.of_nat (List.length buf) <? BUFFER_SIZE)%Z
      then Some fs
      else copy_loop fuel' src_filename dst_filename
                     (pos + List.length buf) fs
  end.

(** Opening either file may raise, which the bare [except] turns into
    [False]; reads and writes of the open files succeed. *)
Definition copy_file (fuel : nat) (src_filename dst_filename : string)
    (fs : files) : option (bool * files) :=
  match fs src_filename with
  | None => Some (false, fs)
  | Some _ =>
      if can_create dst_filename
      then match copy_loop fuel src_filename dst_filename 0
                           (truncate fs dst_filename) with
           | Some fs' => Some (true, fs')
           | None => None
           end
      else Some (false, fs)
  end.

End CopyFile.

End Copy.

(** *** Tables and columns: [column_print], [print_cols] *)

Module Cols.

Local Open Scope string_scope.

(** [len(s)] *)
Definition len (s : string) : Z := Z.of_nat (String.length s).

(** [s * n]: empty when [n] is not positive. *)
Fixpoint replicate (n : nat) (s : string) : string :=
  match n with
  | O => ""
  | S n' => s ++ replicate n' s
  end.

Definition mul (s : string) (n : Z) : string := replicate (Z.to_nat n) s.

Definition align_cell (fmt : ascii) (elem : string) (width : Z) : string :=
  if Ascii.eqb fmt "<" then elem ++ mul " " (width - len elem)
  else if Ascii.eqb fmt ">" then mul " " (width - len elem) ++ elem
  else elem.

(** A row of [column_print]: a separator ([str]) or a tuple of cells. *)
Inductive row : Type :=
| Sep (s : string)
| Cells (c : list string).

(** [l[i]] on a list or tuple *)
Definition item {A : Type} (l : list A) (i : nat) : result A :=
  match nth_error l i with
  | Some v => Ok v
  | None => Raise IndexError
  end.

(** [max(...)] of a non-empty sequence of integers. *)
Fixpoint max_of (l : list Z) : result Z :=
  match l with
  | [] => Raise ValueError
  | [x] => Ok x
  | x :: rest => m <- max_of rest ;; Ok (Z.max x m)
  end.

(** [0 if isinstance(row, str) else len(row[i])] *)
Definition cell_len (i : nat) (r : row) : result Z :=
  match r with
  | Sep _ => Ok 0%Z
  | Cells c => e <- item c i ;; Ok (len e)
  end.

(** [fmt[i]] on a [str] *)
Definition char_at (s : string) (i : nat) : result ascii :=
  match String.get i s with
  | Some c => Ok c
  | None => Raise IndexError
  end.

(** The text printed for one row. *)
Definition line (fmt : string) (width : list Z) (r : row) : result string :=
  match r with
  | Sep s =>
      cells <- mapM (fun i => w <- item width i ;; Ok (mul s w))
                    (seq 0 (String.length fmt)) ;;
      Ok (PyStr.join " " cells)
  | Cells c =>
      cells <- mapM (fun i => f <- char_at fmt i ;;
                              e <- item c i ;;
                              w <- item width i ;;
                              Ok (align_cell f e w))
                    (seq 0 (String.length fmt)) ;;
      Ok (PyStr.join " " cells)
  end.

(** [column_print]: the lines given to [print_func], and the exception
    that ended the function if it raised. *)
Definition column_print (fmt : string) (rows : list row)
    : list string * option exn :=
  let num_cols := String.length fmt in
  match mapM (fun i => lens <- mapM (cell_len i) rows ;; max_of lens)
             (seq 0 num_cols) with
  | Raise e => ([], Some e)
  | Ok width =>
      for_each (fun r => match line fmt width r with
                         | Ok l => ([l], None)
                         | Raise e => ([], Some e)
                         end) rows
  end.

(** The escape character that starts a colour code. *)
Definition ESC : ascii := ascii_of_nat 27.

Definition LT_CYAN : string := String ESC "[1;36m".
Definition DK_GREEN : string := String ESC "[2;32m".
Definition NO_COLOR : string := String ESC "[0m".

Definition word_len (word : string) : result Z :=
  c <- PyStr.first word ;;
  if Ascii.eqb c ESC then Ok (len word - 11)%Z else Ok (len word).

(** [s.endswith(suffix)] *)
Definition endswith (s suffix : string) : bool :=
  (String.length suffix <=? String.length s)%nat &&
  (PyStr.drop (String.length s - String.length suffix) s =? suffix).

Section Colours.

(** The colour globals: the codes above, or all empty under [--nocolor]. *)
Variables DIR_COLOR PY_COLOR END_COLOR : string.

Definition decorated_filename (filename : string) (stat : list Z)
    : result string :=
  mode <- Stat.item stat 0 ;;
  if Stat.mode_isdir mode
  then Ok (DIR_COLOR ++ filename ++ END_COLOR ++ "/")
  else if endswith filename ".py"
       then Ok (PY_COLOR ++ filename ++ END_COLOR)
       else Ok filename.

End Colours.

(** An exception of [print_cols]. *)
Inductive failure : Type :=
| Exn (e : exn)
| ZeroDivisionError.

(** ['%-*s' % (w, s)]: left-justified in a field of [w] characters; a
    negative [w] is taken as its absolute value. *)
Definition ljust (w : Z) (s : string) : string :=
  s ++ mul " " (Z.abs w - len s).

(** [range(start, stop, step)] for a positive [step]. *)
Definition py_range (start stop step : nat) : list nat :=
  map (fun k => start + k * step)
      (seq 0 ((stop - start + (step - 1)) / step)).

Definition NL : string := String (ascii_of_nat 10) "".

(** [print_cols]: the calls of [print_func], each with its text and its
    [end] argument, and the exception that ended the function if it
    raised. *)
Definition print_cols (words : list string) (termwidth : Z)
    : list (string * string) * option failure :=
  match (lens <- mapM word_len words ;; max_of lens) with
  | Raise e => ([], Some (Exn e))
  | Ok width =>
      let nwords := List.length words in
      if (width + 1 =? 0)%Z then ([], Some ZeroDivisionError)
      else
        let ncols := Z.max 1 ((termwidth + 1) / (width + 1)) in
        let nrows := Z.to_nat ((Z.of_nat nwords + ncols - 1) / ncols) in
        for_each
          (fun row =>
             for_each
               (fun i =>
                  match item words i with
                  | Raise e => ([], Some (Exn e))
                  | Ok word =>
                      match PyStr.first word with
                      | Raise e => ([], Some (Exn e))
                      | Ok c =>
                          let e := if (nwords <=? i + nrows)%nat
                                   then NL else " " in
                          if Ascii.eqb c ESC
                          then ([(ljust (width + 11) word, e)], None)
                          else ([(ljust width word, e)], None)
                      end
                  end)
               (py_range row nwords nrows))
          (seq 0 nrows)
  end.

End Cols.

(** *** Shell commands *)

Module Shell.

Local Open Scope string_scope.

(** A line given to [self.print] or to [self.print_err]. *)
Inductive output : Type :=
| Out (s : string)
| Err (s : string).

(** The global [cur_dir] and the shell's [prev_dir]. *)
Record dirs : Type := {
  cur_dir : string;
  prev_dir : string
}.

(** [Device.status] *)
Definition status (self : Device) : string :=
  match pyb self with
  | None => "closed"
  | Some _ => "connected"
  end.

(** [do_boards]: the registry as a table. *)
Definition do_boards (r : Registry) : list string * option exn :=
  let rows := map (fun dev => Cols.Cells [name dev;
                                           "@ " ++ dev_name_short dev;
                                           status dev]) (DEVS r) in
  match rows with
  | [] => (["No boards connected"], None)
  | _ :: _ => Cols.column_print "<< " rows
  end.

Section Commands.

Variable expanduser : string -> string.
Variable r : Registry.

(** [os.stat] on the host, and on a board as evaluated there through
    [remote_eval]; a failure of the remote call is one of its exceptions. *)
Variable host_stat : string -> result (list Z).
Variable board_stat : Device -> string -> result (list Z).

(** [auto(get_mode, filename)] *)
Definition auto_get_mode (filename : string) : result Z :=
  Reg.auto r (Files.get_mode host_stat)
           (fun dev => Files.get_mode (board_stat dev)) filename.

Definition do_filetype (line : string) (sh : dirs) : result (list output) :=
  if (String.length line =? 0)%nat
  then Ok [Err "Must provide a filename"]
  else
    filename <- resolve_path expanduser (cur_dir sh) line ;;
    mode <- auto_get_mode filename ;;
    if Stat.mode_exists mode
    then if Stat.mode_isdir mode then Ok [Out "dir"]
         else if Stat.mode_isfile mode then Ok [Out "file"]
              else Ok [Out "unknown"]
    else Ok [Out "missing"].

(** [do_cd], from the argument list that [line_to_args] returns.  An
    exception leaves both directories as they were. *)
Definition do_cd (args : list string) (sh : dirs)
    : result (list output) * dirs :=
  let dirname :=
    match args with
    | [] => "~"
    | a :: _ => if a =? "-" then prev_dir sh else a
    end in
  match resolve_path expanduser (cur_dir sh) dirname with
  | Raise e => (Raise e, sh)
  | Ok dirname =>
      match auto_get_mode dirname with
      | Raise e => (Raise e, sh)
      | Ok mode =>
          if Stat.mode_isdir mode
          then (Ok [], {| cur_dir := dirname; prev_dir := cur_dir sh |})
          else (Ok [Err ("Directory '" ++ dirname ++ "' does not exist")], sh)
      end
  end.

Section Rm.

Variable fs : Type.
Variable os_stat : fs -> string -> result (list Z).
Variable os_listdir : fs -> string -> result (list string).
Variable os_rmdir : fs -> string -> result fs.
Variable os_remove : fs -> string -> result fs.
Variable remote_eval : Device -> string -> bool -> bool -> result bool.
Variable depth : nat.

(** [do_rm], from the parsed arguments: the messages printed, the
    exception that ended the command if one did, and the host's files. *)
Fixpoint do_rm (cwd : string) (filenames : list string)
    (recursive force : bool) (st : fs) : list output * option exn * fs :=
  match filenames with
  | [] => ([], None, st)
  | filename :: rest =>
      match resolve_path expanduser cwd filename with
      | Raise e => ([], Some e, st)
      | Ok filename =>
          match Remove.rm os_stat os_listdir os_rmdir os_remove remote_eval
                          r depth filename recursive force st with
          | (Raise e, st') => ([], Some e, st')
          | (Ok true, st') => do_rm cwd rest recursive force st'
          | (Ok false, st') =>
              (if negb force then [Err ("Unable to remove " ++ filename)]
               else [], None, st')
          end
      end
  end.

End Rm.

End Commands.

End Shell.

(** *** The REPL pass-through: the keyboard loop of [do_repl] *)

Module Repl.

Definition QUIT_REPL_CHAR : ascii := "X"%char.

(** [bytes((ord(QUIT_REPL_CHAR) - ord('@'),))]: Control-X. *)
Definition QUIT_REPL_BYTE : bytes :=
  [byte_of_ascii
     (ascii_of_nat (nat_of_ascii QUIT_REPL_CHAR - nat_of_ascii "@"%char))].

(** [a == b] on [bytes] *)
Fixpoint bytes_eqb (a b : bytes) : bool :=
  match a, b with
  | [], [] => true
  | x :: a', y :: b' => Byte.eqb x y && bytes_eqb a' b'
  | _, _ => false
  end.

(** How the loop stands when the keys given are used up. *)
Inductive stop : Type :=
| Quit              (* Control-X was typed *)
| Lost              (* [DeviceError]: the device is no longer present *)
| Crashed (e : exn) (* another exception leaves [do_repl] *)
| Waiting.          (* blocked in [getch] *)

(** The [while True] loop that follows the start of the reader thread.
    [keys] are the values that the calls of [getch] return, an empty one
    when no key was typed; [sent] collects what [dev.write] has accepted. *)
Fixpoint key_loop (keys : list bytes) (sent : bytes) (self : Device)
    : stop * bytes * Device :=
  match keys with
  | [] => (Waiting, sent, self)
  | char :: rest =>
      match char with
      | [] => key_loop rest sent self
      | _ :: _ =>
          if bytes_eqb char QUIT_REPL_BYTE then (Quit, sent, self)
          else
            let data := if bytes_eqb char [Byte.x0a] then [Byte.x0d] else char in
            match Remote.write data self with
            | (Ok _, self') => key_loop rest (sent ++ data) self'
            | (Raise DeviceError, self') => (Lost, sent, self')
            | (Raise e, self') => (Crashed e, sent, self')
            end
      end
  end.

End Repl.

(** *** Output redirection: [line_to_args] *)

Module Redirect.

Local Open Scope string_scope.

(** How a method of the shell ends: it returns, raises [ShellError] with
    its message, or raises another exception. *)
Inductive ended (A : Type) : Type :=
| Returned (a : A)
| ShellError (msg : string)
| Raised (e : exn).

Arguments Returned {A} a.
Arguments ShellError {A} msg.
Arguments Raised {A} e.

(** [self.redirect_mode], [self.redirect_dev], [self.redirect_filename]. *)
Record target : Type := {
  redirect_mode : string;
  redirect_dev : option Device;
  redirect_filename : string
}.

(** [args.index(x)] when [x in args]. *)
Fixpoint index (x : string) (args : list string) : option nat :=
  match args with
  | [] => None
  | a :: rest =>
      if a =? x then Some 0
      else match index x rest with
           | Some i => Some (S i)
           | None => None
           end
  end.

(** [del args[i]] *)
Fixpoint del (i : nat) (args : list string) : list string :=
  match i, args with
  | _, [] => []
  | O, _ :: rest => rest
  | S i', a :: rest => a :: del i' rest
  end.

Section LineToArgs.

Variable expanduser : string -> string.
Variable dirname : string -> string.   (* os.path.dirname *)
Variable r : Registry.
Variable host_stat : string -> result (list Z).
Variable board_stat : Device -> string -> result (list Z).

(** [open(filename, mode)] on the host. *)
Variable host_open : string -> string -> result unit.

(** [line_to_args] for a command without an [argparse] description, from
    the words of the line ([line.split()]): the arguments left and the
    redirection set up, if the line asks for one. *)
Definition line_to_args (args : list string) (sh : Shell.dirs)
    : ended (list string * option target) :=
  let redirect_index :=
    match index ">" args with
    | Some i => Some i
    | None => index ">>" args
    end in
  match redirect_index with
  | None => Returned (args, None)
  | Some i =>
      if (List.length args <=? i + 1)%nat
      then ShellError "> requires a filename"
      else
        match nth_error args (i + 1) with
        | None => Raised IndexError
        | Some name =>
            match resolve_path expanduser (Shell.cur_dir sh) name with
            | Raise e => Raised e
            | Ok filename =>
                match Shell.auto_get_mode r host_stat board_stat
                                          (dirname filename) with
                | Raise e => Raised e
                | Ok rmode =>
                    if negb (Stat.mode_isdir rmode)
                    then ShellError ("Unable to redirect to '" ++ filename ++
                                     "', directory doesn't exist")
                    else
                      match nth_error args i with
                      | None => Raised IndexError
                      | Some op =>
                          let mode := if op =? ">" then "wb" else "ab" in
                          let (dev, dev_filename) :=
                            Reg.get_dev_and_path r filename in
                          let opened :=
                            match dev with
                            | None => host_open dev_filename mode
                            | Some _ => Ok tt
                            end in
                          match opened with
                          | Raise e => Raised e
                          | Ok _ =>
                              Returned
                                (del i (del (i + 1) args),
                                 Some {| redirect_mode := mode;
                                         redirect_dev := dev;
                                         redirect_filename := dev_filename |})
                          end
                      end
                end
            end
        end
  end.

End LineToArgs.

End Redirect.

(** *** Connecting: [Device.__init__] *)

Module Connect.

Local Open Scope string_scope.

(** How the constructor ends: with the device, with [ShellError] for a
    firmware that can neither read binary data nor convert from hex, or
    with the exception of a remote call. *)
Inductive outcome : Type :=
| Connected (d : Device)
| Unsupported
| Failed (e : exn).

Section Probe.

(** What the remote calls of the constructor give on this board. *)
Variable test_buffer : result bool.
Variable test_unhexlify : result bool.
Variable listdir_root : result (list string).
Variable sync_time : result unit.
Variable board_name : result string.

(** [Device.__init__(self, pyb)]: [self] already has its short name, which
    the subclass sets; the registry gives it its mount name later. *)
Definition init (self : Device) (p : Pyboard) : outcome :=
  match test_buffer with
  | Raise e => Failed e
  | Ok buffer =>
      match (if buffer then Ok true else test_unhexlify) with
      | Raise e => Failed e
      | Ok false => Unsupported
      | Ok true =>
          match listdir_root with
          | Raise e => Failed e
          | Ok dirs =>
              match sync_time with
              | Raise e => Failed e
              | Ok _ =>
                  match board_name with
                  | Raise e => Failed e
                  | Ok nm =>
                      Connected
                        {| obj_id := obj_id self;
                           dev_name_short := dev_name_short self;
                           name := nm;
                           name_path := name_path self;
                           root_dirs := map (fun dir => "/" ++ dir ++ "/") dirs;
                           has_buffer := buffer;
                           pyb := Some p |}
                  end
              end
          end
      end
  end.

End Probe.

End Connect.

(** ** Vocabulary of the further statements *)

(** Devices other than those with the short name [short]. *)
Definition others (short : string) (devs : list Device) : list Device :=
  filter (fun d => negb (dev_name_short d =? short)%string) devs.

(** A registry as the program keeps it: one device per short name, one
    entry per object, and a default device, which is registered, as soon
    as there is a device. *)
Definition registry_ok (r : Registry) : Prop :=
  NoDup (map dev_name_short (DEVS r)) /\
  NoDup (map obj_id (DEVS r)) /\
  match DEFAULT_DEV r with
  | Some d => In d (DEVS r)
  | None => DEVS r = []
  end.

(** Where the loop of [copy_file] stands after the first [pos] bytes of
    the source, whose content is [content]: the destination holds these
    bytes and every other file is as in [fs0]. *)
Definition copied (src dst : string) (content : bytes) (fs0 : Copy.files)
    (pos : nat) (fs : Copy.files) : Prop :=
  fs src = Some content /\
  fs dst = Some (firstn pos content) /\
  forall p, p <> dst -> fs p = fs0 p.

(** The length of the longest entry of column [i], a separator row
    counting as empty. *)
Definition column_width (rows : list Cols.row) (i : nat) : Z :=
  fold_right Z.max 0%Z
    (map (fun r => match r with
                   | Cols.Sep _ => 0%Z
                   | Cols.Cells c => Cols.len (nth i c ""%string)
                   end) rows).

(** What [column_print] puts in column [i] of the line of row [r]: the
    separator repeated to the width of the column, or the entry aligned
    in it, which fills the column when the format is [<] or [>]. *)
Definition cell_ok (fmt : string) (rows : list Cols.row) (r : Cols.row)
    (i : nat) (cell : string) : Prop :=
  match r with
  | Cols.Sep s => cell = Cols.mul s (column_width rows i)
  | Cols.Cells c =>
      exists f e,
        String.get i fmt = Some f /\
        nth_error c i = Some e /\
        cell = Cols.align_cell f e (column_width rows i) /\
        (f = "<"%char \/ f = ">"%char ->
         Cols.len cell = column_width rows i)
  end.

(** Every tuple row has a cell for each column of the format. *)
Definition rows_fit (fmt : string) (rows : list Cols.row) : Prop :=
  Forall (fun r => match r with
                   | Cols.Sep _ => True
                   | Cols.Cells c => String.length fmt <= List.length c
                   end) rows.

(** The lines that a sequence of calls of [print_func] makes up: the
    texts printed, a call whose [end] is the newline closing a line.
    [cur] holds the texts of the line that is still open. *)
Fixpoint lines_of (calls : list (string * string)) (cur : list string)
    : list (list string) :=
  match calls with
  | [] => match cur with
          | [] => []
          | _ :: _ => [cur]
          end
  | (text, e) :: rest =>
      if (e =? Cols.NL)%string
      then (cur ++ [text]) :: lines_of rest []
      else lines_of rest (cur ++ [text])
  end.

(** The call that [print_cols] makes for the word at index [i], in a
    layout of [nrows] rows of cells [width] characters wide. *)
Definition cols_cell (words : list string) (width : Z) (nrows : nat)
    (i : nat) : string * string :=
  let word := nth i words ""%string in
  (Cols.ljust (match PyStr.first word with
               | Ok c => if Ascii.eqb c Cols.ESC then width + 11 else width
               | Raise _ => width
               end)%Z word,
   if (List.length words <=? i + nrows)%nat then Cols.NL else " "%string).

(** The number of columns and of rows that [print_cols] lays [nwords]
    words of width [width] out in. *)
Definition cols_ncols (termwidth width : Z) : Z :=
  Z.max 1 ((termwidth + 1) / (width + 1)).

Definition cols_nrows (nwords : nat) (termwidth width : Z) : nat :=
  Z.to_nat ((Z.of_nat nwords + cols_ncols termwidth width - 1)
            / cols_ncols termwidth width).

(** The keys typed before the first Control-X. *)
Fixpoint before_quit (keys : list bytes) : list bytes :=
  match keys with
  | [] => []
  | char :: rest =>
      if Repl.bytes_eqb char Repl.QUIT_REPL_BYTE then []
      else char :: before_quit rest
  end.

(** What the REPL sends for a key: a carriage return for a newline. *)
Definition key_bytes (char : bytes) : bytes :=
  if Repl.bytes_eqb char [Byte.x0a] then [Byte.x0d] else char.
(** * Proofs *)

(** ** Strings *)

Module PyStrFacts.

Import PyStr.
Local Open Scope string_scope.

Lemma split_not_nil sep s : split sep s <> [].
Proof.
  destruct s as [|c s]; simpl; [discriminate|].
  destruct (Ascii.eqb c sep); [discriminate|].
  destruct (split sep s); discriminate.
Qed.

Lemma split_sep_cons sep s : split sep (String sep s) = "" :: split sep s.
Proof. simpl. now rewrite Ascii.eqb_refl. Qed.

Lemma split_other_cons sep c s :
  Ascii.eqb c sep = false ->
  split sep (String c s) = String c (hd "" (split sep s)) :: tl (split sep s).
Proof.
  intros H. simpl. rewrite H.
  destruct (split sep s) eqn:E; [now apply split_not_nil in E|reflexivity].
Qed.

Lemma split_free sep s : Forall (fun c => has_char sep c = false) (split sep s).
Proof.
  induction s as [|c s IH]; simpl.
  - constructor; [reflexivity|constructor].
  - destruct (Ascii.eqb c sep) eqn:E.
    + constructor; [reflexivity|exact IH].
    + destruct (split sep s) as [|h t]; inversion IH; subst.
      * constructor; [simpl; now rewrite E|constructor].
      * constructor; [simpl; now rewrite E|assumption].
Qed.

Lemma split_app_sep sep x s :
  has_char sep x = false ->
  split sep (x ++ String sep s) = x :: split sep s.
Proof.
  induction x as [|c x IH]; simpl; intros H.
  - now rewrite Ascii.eqb_refl.
  - apply orb_false_iff in H as [Hc Hx]. rewrite Hc, (IH Hx). reflexivity.
Qed.

Lemma split_single sep x : has_char sep x = false -> split sep x = [x].
Proof.
  induction x as [|c x IH]; simpl; intros H; [reflexivity|].
  apply orb_false_iff in H as [Hc Hx]. now rewrite Hc, (IH Hx).
Qed.

Lemma join_cons sep x y l :
  join sep (x :: y :: l) = x ++ sep ++ join sep (y :: l).
Proof. reflexivity. Qed.

Lemma split_join sep l :
  l <> [] ->
  Forall (fun c => has_char sep c = false) l ->
  split sep (join (String sep "") l) = l.
Proof.
  induction l as [|x l IH]; intros Hne Hall; [contradiction|].
  inversion Hall as [|? ? Hx Hl]; subst.
  destruct l as [|y l].
  - simpl. now apply split_single.
  - rewrite join_cons. simpl append at 2.
    rewrite split_app_sep by assumption.
    f_equal. apply IH; [discriminate|assumption].
Qed.

Lemma first_append s t c : first s = Ok c -> first (s ++ t) = Ok c.
Proof. destruct s; simpl; [discriminate|trivial]. Qed.

Lemma first_ok_nonempty s : s <> "" -> exists c, first s = Ok c.
Proof. destruct s as [|c s]; [contradiction|]. intros _. now exists c. Qed.

Lemma last_ok_nonempty s : s <> "" -> exists c, last s = Ok c.
Proof.
  induction s as [|c s IH]; [contradiction|]. intros _.
  destruct s as [|d s]; [now exists c|].
  destruct IH as [x Hx]; [discriminate|]. exists x. exact Hx.
Qed.

End PyStrFacts.

(** ** [resolve_path] *)

Section ResolveFacts.

Import PyStr PyStrFacts.
Local Open Scope string_scope.

Lemma normal_app k a b :
  normal k (a ++ b) <-> normal k a /\ normal (k + List.length a) b.
Proof.
  revert k. induction a as [|c a IH]; intros k; simpl.
  - rewrite Nat.add_0_r. tauto.
  - rewrite IH. replace (S k + List.length a) with (k + S (List.length a)) by lia.
    tauto.
Qed.

Lemma normal_removelast k l : normal k l -> normal k (removelast l).
Proof.
  intros H. destruct l as [|c l]; [exact H|].
  assert (Hne : c :: l <> []) by discriminate.
  rewrite (app_removelast_last c Hne) in H.
  now apply normal_app in H.
Qed.

Lemma resolve_step_normal acc c :
  normal 0 acc -> normal 0 (resolve_step acc c).
Proof.
  intros H. unfold resolve_step.
  destruct (String.eqb_spec c ".") as [|Hdot]; [exact H|].
  destruct (String.eqb_spec c "..") as [Hdd|Hdd]; simpl.
  - destruct (Nat.ltb_spec 1 (List.length acc)).
    + now apply normal_removelast.
    + apply normal_app. split; [exact H|]. simpl. repeat split; auto. lia.
  - apply normal_app. split; [exact H|]. simpl. repeat split; auto.
    intros E. contradiction.
Qed.

Lemma fold_normal l acc :
  normal 0 acc -> normal 0 (fold_left resolve_step l acc).
Proof.
  revert acc. induction l as [|c l IH]; intros acc H; simpl; [exact H|].
  apply IH. now apply resolve_step_normal.
Qed.

Lemma fold_fixed l acc :
  normal (List.length acc) l -> fold_left resolve_step l acc = (acc ++ l)%list.
Proof.
  revert acc. induction l as [|c l IH]; intros acc H; simpl.
  - now rewrite app_nil_r.
  - destruct H as (Hdot & Hdd & Hrest).
    assert (E : resolve_step acc c = (acc ++ [c])%list).
    { unfold resolve_step.
      destruct (String.eqb_spec c "."); [contradiction|].
      destruct (String.eqb_spec c ".."); simpl; [|reflexivity].
      destruct (Nat.ltb_spec 1 (List.length acc)); [|reflexivity].
      specialize (Hdd e). lia. }
    rewrite E, IH.
    + now rewrite <- app_assoc.
    + rewrite length_app. simpl. now rewrite Nat.add_1_r.
Qed.

Lemma resolve_step_hd acc c :
  acc <> [] ->
  resolve_step acc c <> [] /\ hd "" (resolve_step acc c) = hd "" acc.
Proof.
  intros Hne. unfold resolve_step.
  destruct (c =? "."); [now split|].
  destruct ((c =? "..") && (1 <? List.length acc)%nat) eqn:E.
  - apply andb_true_iff in E as [_ E]. apply Nat.ltb_lt in E.
    destruct acc as [|a [|b acc]]; simpl in E; try lia.
    split; [|reflexivity].
    simpl. destruct acc; discriminate.
  - destruct acc as [|a acc]; [contradiction|]. simpl. split; [discriminate|reflexivity].
Qed.

Lemma fold_hd l acc :
  acc <> [] ->
  fold_left resolve_step l acc <> [] /\
  hd "" (fold_left resolve_step l acc) = hd "" acc.
Proof.
  revert acc. induction l as [|c l IH]; intros acc Hne; simpl; [now split|].
  destruct (resolve_step_hd c Hne) as [Hne' Hhd].
  destruct (IH _ Hne') as [H1 H2]. split; [exact H1|]. now rewrite H2.
Qed.

Lemma removelast_Forall (P : string -> Prop) l :
  Forall P l -> Forall P (removelast l).
Proof.
  intros H. destruct l as [|c l]; [exact H|].
  assert (Hne : c :: l <> []) by discriminate.
  rewrite (app_removelast_last c Hne) in H.
  now apply Forall_app in H.
Qed.

Lemma fold_free l acc :
  Forall (fun c => has_char "/" c = false) acc ->
  Forall (fun c => has_char "/" c = false) l ->
  Forall (fun c => has_char "/" c = false) (fold_left resolve_step l acc).
Proof.
  revert acc. induction l as [|c l IH]; intros acc Ha Hl; simpl; [exact Ha|].
  inversion Hl; subst. apply IH; [|assumption].
  unfold resolve_step.
  destruct (c =? "."); [exact Ha|].
  destruct ((c =? "..") && (1 <? List.length acc)%nat).
  - now apply removelast_Forall.
  - apply Forall_app. split; [exact Ha|]. now constructor.
Qed.

(** For an absolute path the folded components start with the empty root
    component, are in normal form and contain no separator. *)
Lemma fold_absolute s :
  exists t,
    fold_left resolve_step (split "/" (String "/" s)) [] = "" :: t /\
    normal 0 ("" :: t) /\
    Forall (fun c => has_char "/" c = false) ("" :: t).
Proof.
  rewrite split_sep_cons. simpl fold_left.
  change (resolve_step [] "") with [""].
  destruct (@fold_hd (split "/" s) [""]) as [Hne Hhd]; [discriminate|].
  destruct (fold_left resolve_step (split "/" s) [""]) as [|h t] eqn:E;
    [contradiction|].
  simpl in Hhd. subst h. exists t. split; [reflexivity|]. split.
  - rewrite <- E. apply fold_normal. simpl. repeat split; try discriminate.
  - rewrite <- E. apply fold_free; [now constructor|apply split_free].
Qed.

Lemma rejoin_absolute s :
  first (rejoin (String "/" s)) = Ok "/"%char /\
  rejoin (rejoin (String "/" s)) = rejoin (String "/" s).
Proof.
  destruct (fold_absolute s) as (t & E & Hn & Hf).
  assert (Hr : rejoin (String "/" s) =
               match t with [] => "/" | _ => join "/" ("" :: t) end).
  { unfold rejoin. rewrite E. destruct t; reflexivity. }
  rewrite Hr. destruct t as [|c t].
  - split; reflexivity.
  - split; [reflexivity|].
    unfold rejoin.
    rewrite (@split_join "/"%char ("" :: c :: t)) by (assumption || discriminate).
    rewrite fold_fixed by exact Hn. reflexivity.
Qed.

Variable expanduser : string -> string.
Variable cur_dir : string.

Lemma resolve_path_unfold p :
  resolve_path expanduser cur_dir p =
  (c0 <- first p ;;
   let p1 := if Ascii.eqb c0 "~" then expanduser p else p in
   c1 <- first p1 ;;
   path <- (if negb (Ascii.eqb c1 "/")
            then cl <- last cur_dir ;;
                 if Ascii.eqb cl "/"
                 then Ok (cur_dir ++ p1)
                 else Ok (cur_dir ++ "/" ++ p1)
            else Ok p1) ;;
   Ok (rejoin path)).
Proof.
  unfold resolve_path.
  destruct (first p) as [c0|]; [|reflexivity]. cbn [bind].
  destruct (first _) as [c1|]; [|reflexivity]. cbn [bind].
  destruct (negb _).
  - destruct (last cur_dir) as [cl|]; [|reflexivity]. cbn [bind].
    destruct (Ascii.eqb cl "/"); cbn [bind]; unfold rejoin;
      destruct (_ =? 1)%nat; reflexivity.
  - cbn [bind]. unfold rejoin. destruct (_ =? 1)%nat; reflexivity.
Qed.

Lemma resolve_path_absolute s :
  resolve_path expanduser cur_dir (String "/" s) = Ok (rejoin (String "/" s)).
Proof. rewrite resolve_path_unfold. reflexivity. Qed.

(** What [resolve_path] returns is [rejoin] of the path made absolute. *)
Lemma resolve_path_shape p r :
  resolve_path expanduser cur_dir p = Ok r ->
  exists q, r = rejoin q /\
    (first cur_dir = Ok "/"%char -> first q = Ok "/"%char).
Proof.
  rewrite resolve_path_unfold. intros H.
  destruct (first p) as [c0|] eqn:E0; [|discriminate]. cbn [bind] in H.
  set (p1 := if Ascii.eqb c0 "~" then expanduser p else p) in *.
  destruct (first p1) as [c1|] eqn:E1; [|discriminate]. cbn [bind] in H.
  destruct (Ascii.eqb_spec c1 "/") as [->|Hrel]; cbn [negb bind] in H.
  - exists p1. split; [congruence|intros _; exact E1].
  - destruct (last cur_dir) as [cl|] eqn:El; [|discriminate]. cbn [bind] in H.
    destruct (Ascii.eqb cl "/"); cbn [bind] in H.
    + exists (cur_dir ++ p1). split; [congruence|intros Hc; now apply first_append].
    + exists (cur_dir ++ "/" ++ p1). split; [congruence|intros Hc; now apply first_append].
Qed.

Lemma first_slash q : first q = Ok "/"%char -> exists s, q = String "/" s.
Proof. destruct q as [|c q]; simpl; [discriminate|]. intros [= ->]. now exists q. Qed.

End ResolveFacts.




(** ** [resolve_path] is partial *)

Module PosixFacts.

Local Open Scope string_scope.

Lemma expanduser_nonempty home pw q :
  q <> "" -> Posix.expanduser home pw q <> "".
Proof.
  intros Hq. destruct q as [|c rest]; [contradiction|].
  destruct (Ascii.eqb_spec c "~") as [->|Hc].
  - unfold Posix.expanduser.
    destruct (Posix.span_slash rest) as [user tail].
    destruct (if user =? "" then Some home else pw user) as [h|]; [|discriminate].
    destruct (String.eqb_spec (Posix.rstrip_slash h ++ tail) ""); [discriminate|assumption].
  - assert (E : Posix.expanduser home pw (String c rest) = String c rest).
    { destruct c as [[] [] [] [] [] [] [] []]; try reflexivity.
      now contradiction Hc. }
    rewrite E. discriminate.
Qed.

End PosixFacts.

(** C9.  [resolve_path] raises [IndexError] on the empty string, at the
    test of the first character, and on a relative path when the current
    directory is empty; it returns a path for every non-empty path with a
    non-empty current directory, and for every absolute path.
    ([expanduser], as in the library, maps no non-empty path to the empty
    string.) *)
Theorem resolve_path_partial :
  forall (expanduser : string -> string) (cur_dir : string),
    (forall q, q <> ""%string -> expanduser q <> ""%string) ->
    resolve_path expanduser cur_dir "" = Raise IndexError /\
    (forall p, p <> ""%string -> cur_dir <> ""%string ->
       exists r, resolve_path expanduser cur_dir p = Ok r) /\
    (forall p, PyStr.first p = Ok "/"%char ->
       exists r, resolve_path expanduser cur_dir p = Ok r) /\
    (forall p c, PyStr.first p = Ok c -> c <> "/"%char -> c <> "~"%char ->
       resolve_path expanduser "" p = Raise IndexError).
Proof.
  intros expanduser cur_dir Hexp. split; [reflexivity|]. split; [|split].
  - intros p Hp Hcd. rewrite resolve_path_unfold.
    destruct (PyStrFacts.first_ok_nonempty Hp) as [c0 E0]. rewrite E0. cbn [bind].
    set (p1 := if Ascii.eqb c0 "~" then expanduser p else p).
    assert (Hp1 : p1 <> ""%string).
    { unfold p1. destruct (Ascii.eqb c0 "~"); [now apply Hexp|exact Hp]. }
    destruct (PyStrFacts.first_ok_nonempty Hp1) as [c1 E1]. rewrite E1. cbn [bind].
    destruct (PyStrFacts.last_ok_nonempty Hcd) as [cl El]. rewrite El.
    destruct (negb (Ascii.eqb c1 "/")); cbn [bind].
    + destruct (Ascii.eqb cl "/"); cbn [bind]; eexists; reflexivity.
    + eexists; reflexivity.
  - intros p Hp. destruct (first_slash _ Hp) as [s ->].
    rewrite resolve_path_absolute. eexists; reflexivity.
  - intros p c Hp Hc1 Hc2. rewrite resolve_path_unfold. rewrite Hp. cbn [bind].
    destruct (Ascii.eqb_spec c "~"); [contradiction|]. rewrite Hp. cbn [bind].
    destruct (Ascii.eqb_spec c "/"); [contradiction|]. reflexivity.
Qed.

Lemma resolve_path_partial_witness :
  resolve_path (Posix.expanduser "/home/user" (fun _ => None)) "/home/user" ""
  = Raise IndexError /\
  exists r,
    resolve_path (Posix.expanduser "/home/user" (fun _ => None)) "/home/user"
      "~/boot.py" = Ok r.
Proof.
  pose proof (@resolve_path_partial
                (Posix.expanduser "/home/user" (fun _ => None)) "/home/user"
                (@PosixFacts.expanduser_nonempty "/home/user" (fun _ => None)))
    as H.
  split; [exact (proj1 H)|].
  apply (proj1 (proj2 H)); discriminate.
Defined.

(** ** Routing: [get_dev_and_path] *)

Module RouteFacts.

Import PyStr.
Local Open Scope string_scope.

Lemma prefix_append p t : String.prefix p (p ++ t) = true.
Proof.
  induction p as [|c p IH]; simpl; [now destruct t|].
  destruct (ascii_dec c c); [exact IH|contradiction].
Qed.

Lemma prefix_inv p s : String.prefix p s = true -> exists t, s = p ++ t.
Proof.
  revert s. induction p as [|c p IH]; intros s H.
  - now exists s.
  - destruct s as [|d s]; simpl in H; [discriminate|].
    destruct (ascii_dec c d); [subst|discriminate].
    destruct (IH _ H) as [t ->]. now exists t.
Qed.

Lemma app_assoc_s (a b c : string) : (a ++ b) ++ c = a ++ b ++ c.
Proof. induction a; simpl; congruence. Qed.

Lemma app_nil_s (a : string) : a ++ "" = a.
Proof. induction a; simpl; congruence. Qed.

Lemma prefix_weaken p s t :
  String.prefix p s = true -> String.prefix p (s ++ t) = true.
Proof.
  intros H. destruct (prefix_inv _ _ H) as [u ->].
  rewrite app_assoc_s. apply prefix_append.
Qed.

Lemma length_append a b :
  String.length (a ++ b) = String.length a + String.length b.
Proof. induction a; simpl; congruence. Qed.

Lemma drop_append p t : drop (String.length p) (p ++ t) = t.
Proof. induction p; simpl; [now destruct t|assumption]. Qed.

(** Stripping the mount prefix keeps what follows ["/" + name]. *)
Lemma strip_mount nm tail :
  slice_from ("/" ++ nm ++ tail)
             (Z.of_nat (String.length ("/" ++ nm ++ "/")) - 1) = tail.
Proof.
  unfold slice_from.
  replace (Z.of_nat (String.length ("/" ++ nm ++ "/")) - 1)%Z
    with (Z.of_nat (String.length ("/" ++ nm))).
  - destruct (Z.ltb_spec (Z.of_nat (String.length ("/" ++ nm))) 0) as [Hneg|_].
    + pose proof (Nat2Z.is_nonneg (String.length ("/" ++ nm))). lia.
    + rewrite Nat2Z.id.
      rewrite <- (app_assoc_s "/" nm tail). apply drop_append.
  - rewrite <- (app_assoc_s "/" nm "/"), (length_append ("/" ++ nm) "/").
    change (String.length "/") with 1. lia.
Qed.

Lemma is_root_path_true d filename rd :
  In rd (root_dirs d) ->
  startswith filename rd = true \/ rd = filename ++ "/" ->
  Reg.is_root_path d filename = true.
Proof.
  intros Hin H. unfold Reg.is_root_path. apply existsb_exists.
  exists rd. split; [exact Hin|]. unfold startswith in *.
  destruct H as [H| ->].
  - now apply prefix_weaken.
  - rewrite <- (app_nil_s (filename ++ "/")) at 2.
    apply prefix_append.
Qed.

Lemma find_first {A} (f : A -> bool) pre x post :
  Forall (fun y => f y = false) pre -> f x = true ->
  find f (pre ++ x :: post) = Some x.
Proof.
  induction pre as [|y pre IH]; intros Hpre Hx; simpl.
  - now rewrite Hx.
  - inversion Hpre; subst. rewrite H1. now apply IH.
Qed.

Lemma find_none {A} (f : A -> bool) l :
  Forall (fun y => f y = false) l -> find f l = None.
Proof.
  induction 1 as [|y l Hy _ IH]; simpl; [reflexivity|]. now rewrite Hy.
Qed.

End RouteFacts.

Module RouteFacts2.

Import PyStr RouteFacts.
Local Open Scope string_scope.

Lemma prefix_of_slashed rd f :
  String.prefix rd (f ++ "/") = true ->
  String.prefix rd f = true \/ rd = f ++ "/".
Proof.
  revert f. induction rd as [|c rd IH]; intros f H.
  - left. now destruct f.
  - destruct f as [|d f]; simpl in H |- *.
    + destruct (ascii_dec c "/"); [subst|discriminate].
      destruct rd; [now right|discriminate].
    + destruct (ascii_dec c d); [subst|discriminate].
      destruct (IH _ H) as [H1| ->]; [now left|now right].
Qed.

Lemma mounted_prefix nm tail :
  tail = "" \/ first tail = Ok "/"%char ->
  String.prefix ("/" ++ nm ++ "/") (("/" ++ nm ++ tail) ++ "/") = true.
Proof.
  intros [->|H].
  - simpl. rewrite app_nil_s.
    destruct (ascii_dec "/" "/"); [|contradiction].
    rewrite <- (app_nil_s (nm ++ "/")) at 2. apply prefix_append.
  - destruct tail as [|c t]; simpl in H; [discriminate|]. injection H as ->.
    simpl. destruct (ascii_dec "/" "/"); [|contradiction].
    replace ((nm ++ String "/" t) ++ "/") with ((nm ++ "/") ++ t ++ "/").
    + apply prefix_append.
    + rewrite !app_assoc_s. reflexivity.
Qed.

End RouteFacts2.

(** C4 (counterexample).  In the registry of scenario S3 the path ["/flash"]
    begins with none of the default device's root directories and with no
    mount prefix, nor is it a bare mount name; it is nevertheless routed to
    the default device and not to the host. *)
Lemma bare_root_dir_not_routed_to_host :
  forallb (fun rd => negb (PyStr.startswith "/flash" rd))
          ["/flash/"; "/sd/"]%string = true /\
  forallb (fun d => negb (PyStr.startswith "/flash" (name_path d)) &&
                    negb ("/flash" =? "/" ++ name d)%string)
          (DEVS registry_S3) = true /\
  routed registry_S3 "/flash" = (Some "pyboard", "/flash")%string /\
  routed registry_S3 "/flash" <> (None, "/flash"%string).
Proof. repeat split; try reflexivity. discriminate. Qed.

(** C4 (amended).  [get_dev_and_path] chooses exactly one destination:
    - the default device, with the path unchanged, when the path begins
      with one of its root directories or is one of them without the
      trailing slash, and only then;
    - otherwise the first registered device, in registry order, whose
      mount prefix ["/" + name + "/"] the path (with a slash appended)
      begins with, the path being stripped of ["/" + name] and the bare
      ["/" + name] becoming ["/"];
    - otherwise the host, with the path unchanged;
    and the four examples of scenario S3 are routed as stated. *)
Theorem get_dev_and_path_routing :
  forall (r : Registry) (filename : string),
    (forall d rd,
       DEFAULT_DEV r = Some d -> In rd (root_dirs d) ->
       PyStr.startswith filename rd = true \/ rd = (filename ++ "/")%string ->
       Reg.get_dev_and_path r filename = (Some d, filename)) /\
    (claimed_by_default r filename = true ->
     exists d rd,
       DEFAULT_DEV r = Some d /\ In rd (root_dirs d) /\
       (PyStr.startswith filename rd = true \/ rd = (filename ++ "/")%string)) /\
    (forall pre dev post nm tail,
       claimed_by_default r filename = false ->
       DEVS r = pre ++ dev :: post ->
       Forall (fun d => PyStr.startswith (filename ++ "/") (name_path d) = false) pre ->
       name_path dev = ("/" ++ nm ++ "/")%string ->
       filename = ("/" ++ nm ++ tail)%string ->
       tail = ""%string \/ PyStr.first tail = Ok "/"%char ->
       Reg.get_dev_and_path r filename =
       (Some dev, if (tail =? "")%string then "/"%string else tail)) /\
    (claimed_by_default r filename = false ->
     Forall (fun d => PyStr.startswith (filename ++ "/") (name_path d) = false)
            (DEVS r) ->
     Reg.get_dev_and_path r filename = (None, filename)) /\
    routed registry_S3 "/flash/x" = (Some "pyboard", "/flash/x")%string /\
    routed registry_S3 "/esp/main.py" = (Some "esp", "/main.py")%string /\
    routed registry_S3 "/etc/hosts" = (None, "/etc/hosts")%string /\
    routed registry_S3 "/esp" = (Some "esp", "/")%string.
Proof.
  intros r filename.
  split; [|split; [|split; [|split; [|repeat split]]]].
  - intros d rd Hd Hin H. unfold Reg.get_dev_and_path. rewrite Hd.
    now rewrite (RouteFacts.is_root_path_true d filename Hin H).
  - unfold claimed_by_default. intros H.
    destruct (DEFAULT_DEV r) as [d|]; [|discriminate].
    unfold Reg.is_root_path in H. apply existsb_exists in H as (rd & Hin & Hp).
    exists d, rd. repeat split; try assumption.
    now apply RouteFacts2.prefix_of_slashed.
  - intros pre dev post nm tail Hc Hdevs Hpre Hnp Hf Htail.
    unfold Reg.get_dev_and_path. fold (claimed_by_default r filename).
    rewrite Hc, Hdevs.
    rewrite (@RouteFacts.find_first _ _ pre dev post Hpre).
    + rewrite Hnp, Hf, RouteFacts.strip_mount. reflexivity.
    + rewrite Hnp, Hf. now apply RouteFacts2.mounted_prefix.
  - intros Hc Hall. unfold Reg.get_dev_and_path.
    fold (claimed_by_default r filename).
    now rewrite Hc, (RouteFacts.find_none _ Hall).
Qed.

Lemma get_dev_and_path_routing_witness :
  Reg.get_dev_and_path registry_S3 "/sd" =
    (DEFAULT_DEV registry_S3, "/sd"%string) /\
  routed registry_S3 "/esp/lib/a.py" = (Some "esp", "/lib/a.py")%string /\
  Reg.get_dev_and_path registry_S3 "/home" = (None, "/home"%string).
Proof.
  pose proof (get_dev_and_path_routing registry_S3 "/sd") as H1.
  pose proof (get_dev_and_path_routing registry_S3 "/esp/lib/a.py") as H2.
  pose proof (get_dev_and_path_routing registry_S3 "/home") as H3.
  split; [|split].
  - apply (proj1 H1) with (rd := "/sd/"%string).
    + reflexivity.
    + simpl. auto.
    + right. reflexivity.
  - unfold routed.
    rewrite (proj1 (proj2 (proj2 H2))
               [Reg.set_name_path
                  (Reg.new_device 1 "/dev/ttyACM0" "pyboard"
                                  ["/flash/"; "/sd/"]%string) "/pyboard/"]
               (Reg.set_name_path (Reg.new_device 2 "/dev/ttyUSB0" "esp" [])
                                  "/esp/")
               [] "esp"%string "/lib/a.py"%string).
    + reflexivity.
    + reflexivity.
    + reflexivity.
    + repeat constructor.
    + reflexivity.
    + reflexivity.
    + right. reflexivity.
  - apply (proj1 (proj2 (proj2 (proj2 H3)))).
    + reflexivity.
    + repeat constructor.
Defined.

(** ** The registry: [add_device] *)

Module RegFacts.

Import Reg.
Local Open Scope string_scope.

Lemma decimal_inj a b : decimal a = decimal b -> a = b.
Proof.
  unfold decimal. intros H.
  apply Unsigned.to_uint_inj.
  assert (E : Some (Nat.to_uint a) = Some (Nat.to_uint b)).
  { rewrite <- !NilEmpty.usu. now rewrite H. }
  now injection E.
Qed.

Lemma append_inj_r (a x y : string) : a ++ x = a ++ y -> x = y.
Proof. induction a; simpl; intros H; [exact H|]. injection H. auto. Qed.

Lemma suffixed_inj bare a b : suffixed bare a = suffixed bare b -> a = b.
Proof.
  unfold suffixed. intros H. apply append_inj_r in H.
  injection H as H. now apply decimal_inj.
Qed.

Lemma suffixed_not_bare bare k : suffixed bare k <> bare.
Proof.
  unfold suffixed. intros H.
  apply (f_equal String.length) in H.
  rewrite RouteFacts.length_append in H. simpl in H. lia.
Qed.

Lemma names_upto_NoDup bare n : NoDup (names_upto bare n).
Proof.
  destruct n as [|n]; simpl; constructor.
  - intros Hin. apply in_map_iff in Hin as (k & Hk & _).
    now apply suffixed_not_bare in Hk.
  - apply Injective_map_NoDup; [|apply seq_NoDup].
    intros a b. apply suffixed_inj.
Qed.

Lemma names_upto_snoc bare n :
  names_upto bare (S n) =
  (names_upto bare n ++ [if (n =? 0)%nat then bare else suffixed bare (S n)])%list.
Proof.
  destruct n as [|n]; [reflexivity|].
  cbn [names_upto Nat.eqb]. rewrite seq_S, map_app. reflexivity.
Qed.

Lemma drop_same_short_absent short devs default :
  ~ In short (map dev_name_short devs) ->
  drop_same_short short devs default = (devs, default).
Proof.
  induction devs as [|d devs IH]; simpl; intros H; [reflexivity|].
  destruct (String.eqb_spec (dev_name_short d) short) as [E|E].
  - exfalso. apply H. now left.
  - rewrite IH; [reflexivity|]. intros Hin. apply H. now right.
Qed.

Lemma find_name_collided bare shorts r :
  collided bare shorts r ->
  (exists d, find_device_by_name r bare = Some d) <-> shorts <> [].
Proof.
  intros (Hs & Hn & _ & _ & Hd). unfold find_device_by_name.
  destruct (String.eqb_spec bare "") as [E|E].
  - destruct (DEFAULT_DEV r) as [d|]; split.
    + intros _ Hnil. apply Hd in Hnil. discriminate.
    + intros _. now exists d.
    + intros [d H]. discriminate.
    + intros H. exfalso. apply H. now apply Hd.
  - destruct (DEVS r) as [|d devs]; simpl in *.
    + subst shorts. split; [intros [d H]; discriminate|intros H; now contradiction H].
    + subst shorts. simpl in Hn. injection Hn as Hname _.
      rewrite Hname, String.eqb_refl. split; [discriminate|intros _; now exists d].
Qed.

Lemma add_device_collided bare shorts r dev :
  collided bare shorts r ->
  name dev = bare ->
  ~ In (dev_name_short dev) shorts ->
  collided bare (shorts ++ [dev_name_short dev]) (add_device r dev).
Proof.
  intros Hc Hname Hfresh.
  pose proof (find_name_collided Hc) as Hfind.
  destruct Hc as (Hs & Hn & Hp & Hi & Hd).
  unfold add_device.
  rewrite drop_same_short_absent by (now rewrite Hs).
  replace {| DEVS := DEVS r; DEFAULT_DEV := DEFAULT_DEV r; DEV_IDX := DEV_IDX r |}
    with r by (now destruct r).
  rewrite Hname.
  assert (Hnew :
    name (match find_device_by_name r bare with
          | Some _ => set_name dev (bare ++ "-" ++ decimal (DEV_IDX r))
          | None => dev
          end) =
    if (List.length shorts =? 0)%nat then bare
    else suffixed bare (S (List.length shorts))).
  { destruct (find_device_by_name r bare) as [d|] eqn:E.
    - assert (Hne : shorts <> []) by (apply Hfind; now exists d).
      destruct shorts; [contradiction|]. simpl.
      rewrite Hi. unfold suffixed. simpl List.length.
      now rewrite Nat.add_1_r.
    - destruct shorts as [|s shorts]; [now simpl|].
      exfalso. assert (H : exists d, @None Device = Some d)
        by (apply Hfind; discriminate).
      destruct H as [d H]. discriminate. }
  set (dev1 := match find_device_by_name r bare with
               | Some _ => _ | None => _ end) in *.
  assert (Hshort : dev_name_short dev1 = dev_name_short dev).
  { unfold dev1. now destruct (find_device_by_name r bare). }
  unfold collided. cbn [DEVS DEFAULT_DEV DEV_IDX].
  rewrite !map_app, length_app. cbn [map List.length name dev_name_short
    name_path set_name_path].
  rewrite Nat.add_1_r, names_upto_snoc, map_app, Hs, Hn, Hp, Hnew, Hshort.
  repeat split.
  - lia.
  - intros H. destruct (DEFAULT_DEV r); discriminate.
  - intros H. destruct shorts; discriminate.
Qed.

Lemma add_all_collided bare devs shorts r :
  collided bare shorts r ->
  Forall (fun d => name d = bare) devs ->
  NoDup (shorts ++ map dev_name_short devs) ->
  collided bare (shorts ++ map dev_name_short devs) (add_all r devs).
Proof.
  revert shorts r. induction devs as [|d devs IH]; intros shorts r Hc Hall Hnd.
  - simpl. now rewrite app_nil_r.
  - inversion Hall; subst. simpl map.
    replace (shorts ++ dev_name_short d :: map dev_name_short devs)%list
      with ((shorts ++ [dev_name_short d]) ++ map dev_name_short devs)%list
      by (now rewrite <- app_assoc).
    apply IH; [|assumption|now rewrite <- app_assoc].
    apply add_device_collided; [assumption|reflexivity|].
    simpl in Hnd. apply NoDup_remove_2 in Hnd.
    intros Hin. apply Hnd. apply in_or_app. now left.
Qed.

Lemma initial_collided bare : collided bare [] initial.
Proof. unfold collided. simpl. repeat split; auto. Qed.

End RegFacts.

(** X3.  Boards that all report the same name (and have distinct short names),
    added one after the other to the empty registry, are named [bare],
    [bare-2], ..., [bare-n]: pairwise distinct names, the first one bare,
    each mounted under ["/" + name + "/"]. *)
Lemma colliding_names_distinct :
  forall (bare : string) (devs : list Device),
    Forall (fun d => name d = bare) devs ->
    NoDup (map dev_name_short devs) ->
    let r := add_all Reg.initial devs in
    map name (DEVS r) = names_upto bare (List.length devs) /\
    NoDup (map name (DEVS r)) /\
    map name_path (DEVS r) =
      map (fun n => ("/" ++ n ++ "/")%string) (map name (DEVS r)).
Proof.
  intros bare devs Hall Hnd r.
  destruct (@RegFacts.add_all_collided bare devs [] Reg.initial
              (RegFacts.initial_collided bare) Hall Hnd)
    as (Hs & Hn & Hp & _).
  fold r in Hs, Hn, Hp. simpl in Hn, Hp. rewrite length_map in Hn, Hp.
  rewrite Hn, Hp. repeat split. apply RegFacts.names_upto_NoDup.
Qed.

(** C7.  The display names stay distinct when the boards all report the
    same name, but not under every [add_device]: after boards reporting
    ["pyboard"], ["pyboard-3"] and ["pyboard"] the third is renamed to
    ["pyboard-3"], the name of the second. *)
Theorem add_device_suffix_clash :
  map name (DEVS registry_suffix_clash) =
    ["pyboard"; "pyboard-3"; "pyboard-3"]%string /\
  ~ NoDup (map name (DEVS registry_suffix_clash)) /\
  NoDup (map name (DEVS (add_all Reg.initial
           [Reg.new_device 1 "/dev/ttyACM0" "pyboard" [];
            Reg.new_device 2 "/dev/ttyACM1" "pyboard-3" []]))) /\
  map name (DEVS (add_all Reg.initial
           [Reg.new_device 1 "/dev/ttyACM0" "pyboard" [];
            Reg.new_device 2 "/dev/ttyACM1" "pyboard" []])) =
    ["pyboard"; "pyboard-2"]%string /\
  map name_path (DEVS (add_all Reg.initial
           [Reg.new_device 1 "/dev/ttyACM0" "pyboard" [];
            Reg.new_device 2 "/dev/ttyACM1" "pyboard" []])) =
    ["/pyboard/"; "/pyboard-2/"]%string.
Proof.
  split; [reflexivity|]. split; [|split; [|split; reflexivity]].
  - change (map name (DEVS registry_suffix_clash))
      with ["pyboard"; "pyboard-3"; "pyboard-3"]%string.
    intros H. inversion H as [|? ? _ H2]; subst.
    inversion H2 as [|? ? H3 _]; subst. apply H3. now left.
  - change (NoDup ["pyboard"; "pyboard-3"]%string).
    repeat constructor; simpl; intuition discriminate.
Qed.

(** ** [get_stat] *)

(** When [os.stat] returns a tuple, [get_stat] returns one of the same
    length: the ten fields of the board or of the host. *)
Lemma get_stat_existing_length :
  forall os_stat IS_UPY filename t,
    os_stat filename = Ok t ->
    exists t', Stat.get_stat os_stat IS_UPY filename = Ok t' /\
               List.length t' = List.length t.
Proof.
  intros os_stat IS_UPY filename t H. unfold Stat.get_stat, Stat.stat.
  rewrite H. cbn [bind]. destruct IS_UPY; eexists; split; try reflexivity.
  rewrite length_app, length_map. rewrite <- (firstn_skipn 7 t) at 3.
  now rewrite length_app.
Qed.

(** C6.  For a file that does not exist, [get_stat] returns a tuple of
    eight zeros, not ten: the field [mtime], at index 8, is missing from
    it.  For a file that exists the ten fields come back. *)
Theorem get_stat_missing_file_has_8_fields :
  Stat.get_stat (fun _ => Raise OSError) false "/flash/missing" =
    Ok [0; 0; 0; 0; 0; 0; 0; 0]%Z /\
  Stat.get_stat (fun _ => Raise OSError) true "/flash/missing" =
    Ok [0; 0; 0; 0; 0; 0; 0; 0]%Z /\
  List.length [0; 0; 0; 0; 0; 0; 0; 0]%Z = 8 /\
  Stat.stat_mtime [0; 0; 0; 0; 0; 0; 0; 0]%Z = Raise IndexError /\
  Stat.get_stat (fun _ => Ok [33188; 7; 8; 1; 0; 0; 6; 10; 20; 30]%Z) true
    "/flash/a" =
    Ok [33188; 7; 8; 1; 0; 0; 6; 946684810; 946684820; 946684830]%Z.
Proof. repeat split. Qed.

(** ** [remove_file] *)

Module RemoveFacts.

Import Remove.

Section Facts.

Variable fs : Type.
Variable os_stat : fs -> string -> result (list Z).
Variable os_listdir : fs -> string -> result (list string).
Variable os_rmdir : fs -> string -> result fs.
Variable os_remove : fs -> string -> result fs.

(** The loop over the children never returns early when [force] is set. *)
Lemma remove_children_force (rec : string -> fs -> result bool * fs)
    filename files st :
  forall b, fst (remove_children rec filename true files st) <> Return b.
Proof.
  revert st. induction files as [|f files IH]; intros st b; simpl.
  - discriminate.
  - destruct (rec _ st) as [[success|e] st']; simpl.
    + rewrite andb_false_r. apply IH.
    + discriminate.
Qed.

Lemma unlink_not_return op filename (st : fs) b :
  fst (unlink op filename st) <> Return b.
Proof. unfold unlink. destruct (op st filename); discriminate. Qed.

Lemma remove_file_force depth filename recursive st :
  fst (remove_file os_stat os_listdir os_rmdir os_remove
                   (S depth) filename recursive true st) = Ok true.
Proof.
  cbn [Remove.remove_file].
  match goal with |- fst (match ?body with _ => _ end) = _ =>
    destruct body as [[| b |e] st'] eqn:E end; try reflexivity.
  exfalso. revert E.
  destruct (os_stat st filename) as [t|]; [|discriminate].
  destruct (Stat.item t 0) as [mode|]; [|discriminate].
  destruct (negb _).
  - destruct recursive.
    + destruct (os_listdir st filename) as [files|]; [|discriminate].
      match goal with |- context [remove_children ?r ?f true ?l ?s] =>
        pose proof (@remove_children_force r f l s) as Hc;
        destruct (remove_children r f true l s) as [[| b' |e'] st1] end.
      * intros E. apply (f_equal fst) in E. now apply unlink_not_return in E.
      * now contradiction (Hc b').
      * discriminate.
    + intros E. apply (f_equal fst) in E. now apply unlink_not_return in E.
  - intros E. apply (f_equal fst) in E. now apply unlink_not_return in E.
Qed.

End Facts.

End RemoveFacts.

Module RemoveFacts2.

Import Remove.

Section Facts.

Variable fs : Type.
Variable os_stat : fs -> string -> result (list Z).
Variable os_listdir : fs -> string -> result (list string).
Variable os_rmdir : fs -> string -> result fs.
Variable os_remove : fs -> string -> result fs.

(** Without [force] the loop over the children only ever returns [False]. *)
Lemma remove_children_return (rec : string -> fs -> result bool * fs)
    filename files st b :
  fst (remove_children rec filename false files st) = Return b -> b = false.
Proof.
  revert st. induction files as [|f files IH]; intros st; simpl.
  - discriminate.
  - destruct (rec _ st) as [[success|e] st']; simpl; [|discriminate].
    destruct success; simpl; [apply IH|]. now intros [= <-].
Qed.

End Facts.

End RemoveFacts2.

(** C10.  With [force] set, [remove_file] returns [True] whatever happens
    to [os.stat], to the deletion and to the children.  Without it, it
    returns [False] when [os.stat] raises, when [os.remove] or [os.rmdir]
    raises, when [os.listdir] raises and when the loop over the children
    of a directory stops at a failing child.  [rm] is [remove_file] on the
    host for a host path and the device's evaluation of it otherwise. *)
Theorem remove_file_force_flag :
  forall (fs : Type)
         (os_stat : fs -> string -> result (list Z))
         (os_listdir : fs -> string -> result (list string))
         (os_rmdir os_remove : fs -> string -> result fs)
         (remote_eval : Device -> string -> bool -> bool -> result bool)
         (r : Registry) (depth : nat) (filename : string)
         (recursive : bool) (st : fs),
    let remove_file := Remove.remove_file os_stat os_listdir os_rmdir os_remove in
    let rm := Remove.rm os_stat os_listdir os_rmdir os_remove remote_eval in
    fst (remove_file (S depth) filename recursive true st) = Ok true /\
    (forall e, os_stat st filename = Raise e ->
       remove_file (S depth) filename recursive false st = (Ok false, st)) /\
    (forall t mode e,
       os_stat st filename = Ok t -> Stat.item t 0 = Ok mode ->
       Z.land mode 0x4000 = 0%Z -> os_remove st filename = Raise e ->
       remove_file (S depth) filename recursive false st = (Ok false, st)) /\
    (forall t mode e,
       os_stat st filename = Ok t -> Stat.item t 0 = Ok mode ->
       Z.land mode 0x4000 <> 0%Z -> os_rmdir st filename = Raise e ->
       remove_file (S depth) filename false false st = (Ok false, st)) /\
    (forall t mode e,
       os_stat st filename = Ok t -> Stat.item t 0 = Ok mode ->
       Z.land mode 0x4000 <> 0%Z -> os_listdir st filename = Raise e ->
       remove_file (S depth) filename true false st = (Ok false, st)) /\
    (forall t mode files fl st',
       os_stat st filename = Ok t -> Stat.item t 0 = Ok mode ->
       Z.land mode 0x4000 <> 0%Z -> os_listdir st filename = Ok files ->
       Remove.remove_children (fun f => remove_file depth f true false)
         filename false files st = (fl, st') ->
       fl <> Remove.Fallthrough ->
       remove_file (S depth) filename true false st = (Ok false, st')) /\
    (forall t mode files st' e,
       os_stat st filename = Ok t -> Stat.item t 0 = Ok mode ->
       Z.land mode 0x4000 <> 0%Z -> os_listdir st filename = Ok files ->
       Remove.remove_children (fun f => remove_file depth f true false)
         filename false files st = (Remove.Fallthrough, st') ->
       os_rmdir st' filename = Raise e ->
       remove_file (S depth) filename true false st = (Ok false, st')) /\
    (forall f, Reg.get_dev_and_path r filename = (None, f) ->
       fst (rm r (S depth) filename recursive true st) = Ok true) /\
    (forall dev f force, Reg.get_dev_and_path r filename = (Some dev, f) ->
       rm r depth filename recursive force st =
       (remote_eval dev f recursive force, st)).
Proof.
  intros fs os_stat os_listdir os_rmdir os_remove remote_eval r depth filename
         recursive st remove_file rm.
  assert (Hdir : forall mode, Z.land mode 0x4000 <> 0%Z ->
                   negb (Z.land mode 0x4000 =? 0)%Z = true).
  { intros mode H. destruct (Z.eqb_spec (Z.land mode 0x4000) 0); [contradiction|reflexivity]. }
  split; [apply RemoveFacts.remove_file_force|].
  split; [intros e H; unfold remove_file; cbn [Remove.remove_file]; now rewrite H|].
  split.
  { intros t mode e H1 H2 H3 H4. unfold remove_file. cbn [Remove.remove_file].
    rewrite H1, H2, H3. cbn [Z.eqb negb]. unfold Remove.unlink. now rewrite H4. }
  split.
  { intros t mode e H1 H2 H3 H4. unfold remove_file. cbn [Remove.remove_file].
    rewrite H1, H2, (Hdir _ H3). unfold Remove.unlink. now rewrite H4. }
  split.
  { intros t mode e H1 H2 H3 H4. unfold remove_file. cbn [Remove.remove_file].
    now rewrite H1, H2, (Hdir _ H3), H4. }
  split.
  { intros t mode files fl st' H1 H2 H3 H4 H5 H6.
    unfold remove_file in *. cbn [Remove.remove_file].
    rewrite H1, H2, (Hdir _ H3), H4, H5.
    destruct fl as [| b |e]; [contradiction| |reflexivity].
    apply (f_equal fst) in H5. apply RemoveFacts2.remove_children_return in H5.
    now subst b. }
  split.
  { intros t mode files st' e H1 H2 H3 H4 H5 H6.
    unfold remove_file in *. cbn [Remove.remove_file].
    rewrite H1, H2, (Hdir _ H3), H4, H5. unfold Remove.unlink. now rewrite H6. }
  split.
  { intros f H. unfold rm, Remove.rm, Reg.auto. rewrite H.
    apply RemoveFacts.remove_file_force. }
  intros dev f force H. unfold rm, Remove.rm, Reg.auto. now rewrite H.
Qed.

Lemma remove_file_force_flag_witness :
  fst (Remove.remove_file Remove.mem_stat Remove.mem_listdir Remove.mem_rmdir
         Remove.mem_remove 8 "/tmp/d" true true Remove.example_fs) = Ok true /\
  fst (Remove.remove_file Remove.mem_stat Remove.mem_listdir Remove.mem_rmdir
         Remove.mem_remove 8 "/tmp/nothing" true false Remove.example_fs)
    = Ok false /\
  fst (Remove.remove_file Remove.mem_stat Remove.mem_listdir Remove.mem_rmdir
         Remove.mem_remove 8 "/tmp/d/b" false false Remove.example_fs)
    = Ok false /\
  fst (Remove.remove_file Remove.mem_stat Remove.mem_listdir Remove.mem_rmdir
         Remove.mem_remove 8 "/tmp/d" false false Remove.example_fs)
    = Ok false /\
  fst (Remove.remove_file Remove.mem_stat Remove.mem_listdir Remove.mem_rmdir
         Remove.mem_remove 8 "/tmp/d" true false Remove.example_fs)
    = Ok false /\
  fst (Remove.rm Remove.mem_stat Remove.mem_listdir Remove.mem_rmdir
         Remove.mem_remove (fun _ _ _ _ => Raise DeviceError)
         registry_S3 8 "/tmp/d" true true Remove.example_fs) = Ok true.
Proof.
  pose proof (fun file rec =>
    @remove_file_force_flag Remove.memfs Remove.mem_stat Remove.mem_listdir
      Remove.mem_rmdir Remove.mem_remove (fun _ _ _ _ => Raise DeviceError)
      registry_S3 7 file rec Remove.example_fs) as H.
  cbv zeta in H.
  split; [exact (proj1 (H "/tmp/d"%string true))|].
  split.
  { rewrite (proj1 (proj2 (H "/tmp/nothing"%string true)) OSError eq_refl).
    reflexivity. }
  split.
  { rewrite (proj1 (proj2 (proj2 (H "/tmp/d/b"%string false)))
               _ 0x8000%Z OSError eq_refl eq_refl eq_refl eq_refl).
    reflexivity. }
  split.
  { assert (Hd : Z.land 0x4000 0x4000 <> 0%Z) by discriminate.
    rewrite (proj1 (proj2 (proj2 (proj2 (H "/tmp/d"%string false))))
               _ 0x4000%Z OSError eq_refl eq_refl Hd eq_refl).
    reflexivity. }
  split.
  { assert (Hd : Z.land 0x4000 0x4000 <> 0%Z) by discriminate.
    assert (Hf : Remove.Return false <> Remove.Fallthrough) by discriminate.
    rewrite (proj1 (proj2 (proj2 (proj2 (proj2 (proj2 (H "/tmp/d"%string true))))))
               _ 0x4000%Z _ _ _ eq_refl eq_refl Hd eq_refl eq_refl Hf).
    reflexivity. }
  apply (proj1 (proj2 (proj2 (proj2 (proj2 (proj2 (proj2 (proj2
           (H "/tmp/d"%string true))))))))) with (f := "/tmp/d"%string).
  reflexivity.
Defined.

(** ** [Device.remote] *)

Module RemoteFacts.

Import Remote.

Lemma read_closes num_bytes self self' :
  read num_bytes self = (Raise DeviceError, self') -> pyb self' = None.
Proof.
  unfold read, bindM, check_pyb, on_pyb, serial_read, close, raise.
  destruct self as [i s n np rd hb [p|]]; cbn.
  - destruct (link_up p); cbn; intros [= <-]; reflexivity.
  - intros [= <-]. reflexivity.
Qed.

Lemma write_closes buf self self' :
  write buf self = (Raise DeviceError, self') -> pyb self' = None.
Proof.
  unfold write, bindM, check_pyb, on_pyb, serial_write.
  destruct self as [i s n np rd hb [p|]]; cbn.
  - destruct (link_up p); cbn; intros [= <-]; reflexivity.
  - intros [= <-]. reflexivity.
Qed.

End RemoteFacts.

Ltac finish :=
  cbn; repeat split; intros; subst; cbn in *;
  try discriminate; try congruence; auto.




(** ** The transfer sub-protocol *)

Module XferFacts.

Import Xfer.

Lemma hexlify_app a b : hexlify (a ++ b) = hexlify a ++ hexlify b.
Proof. unfold hexlify. apply flat_map_app. Qed.

Lemma hexlify_length l : List.length (hexlify l) = 2 * List.length l.
Proof. induction l as [|b l IH]; simpl; [reflexivity|]. rewrite IH. lia. Qed.

Lemma unhexlify_byte b rest :
  unhexlify (hexlify_byte b ++ rest) = (r <- unhexlify rest ;; Ok (b :: r)).
Proof. destruct b; reflexivity. Qed.

Lemma unhexlify_hexlify l : unhexlify (hexlify l) = Ok l.
Proof.
  induction l as [|b l IH]; [reflexivity|].
  change (hexlify (b :: l)) with (hexlify_byte b ++ hexlify l).
  now rewrite unhexlify_byte, IH.
Qed.

Lemma bound_nonneg len i :
  (0 <= i)%Z -> bound len i = Nat.min (Z.to_nat i) len.
Proof. intros H. unfold bound. destruct (Z.ltb_spec i 0); [lia|reflexivity]. Qed.

Lemma slice_prefix w n :
  (0 <= n)%Z -> slice w 0 n = firstn (Z.to_nat n) w.
Proof.
  intros H. unfold slice. rewrite !bound_nonneg by lia.
  simpl. rewrite Nat.sub_0_r.
  destruct (Nat.le_ge_cases (Z.to_nat n) (List.length w)).
  - now rewrite Nat.min_l.
  - rewrite Nat.min_r by assumption. now rewrite !firstn_all2 by lia.
Qed.

Lemma slice_whole x : slice x 0 (Z.of_nat (List.length x)) = x.
Proof. rewrite slice_prefix by lia. rewrite Nat2Z.id. apply firstn_all. Qed.

(** Assigning [x] to the slice [w[i:len(x)]] keeps the first [i] bytes and
    puts [x] after them, whatever follows. *)
Lemma slice_assign_prefix w i x :
  i <= List.length w ->
  firstn (i + List.length x)
         (slice_assign w (Z.of_nat i) (Z.of_nat (List.length x)) x) =
  firstn i w ++ x.
Proof.
  intros H. unfold slice_assign. rewrite !bound_nonneg by lia.
  rewrite !Nat2Z.id. rewrite (Nat.min_l i) by assumption.
  rewrite app_assoc. rewrite firstn_app.
  rewrite length_app, length_firstn, (Nat.min_l i) by assumption.
  rewrite Nat.sub_diag. simpl. rewrite app_nil_r.
  apply firstn_all2. rewrite length_app, length_firstn. lia.
Qed.

Lemma firstn_more {A} n (l : list A) :
  List.length l <= n -> firstn n l = l.
Proof. apply firstn_all2. Qed.

End XferFacts.

Module AckFacts.

Import Xfer.

Lemma deliver_one b rest :
  deliver 1 (b :: rest) [] = Some ([b], rest, []).
Proof.
  unfold deliver. cbn [Z.leb Z.compare tl].
  replace (Nat.max 1 (Nat.min (List.length (b :: rest))
             (Nat.min (Z.to_nat 1) (List.length (b :: rest))))) with 1.
  - reflexivity.
  - change (Z.to_nat 1) with 1. simpl List.length. lia.
Qed.

Lemma deliver_empty n : (0 < n)%Z -> deliver n [] [] = None.
Proof. intros H. unfold deliver. destruct (Z.leb_spec n 0); [lia|reflexivity]. Qed.

Section Paced.

Variable HAS_BUFFER : bool.
Variable BUFFER_SIZE : Z.

Lemma feed_paced fuel :
  forall s inp,
    hs_reachable s ->
    let t := feed (hs_step HAS_BUFFER BUFFER_SIZE) fuel s inp in
    exists consumed,
      inp = consumed ++ unread t /\
      List.length (sent t) <= credit s + acks consumed /\
      pending s ++ filter not_ack consumed = out t ++ pending (final t) /\
      err t = [] /\
      hs_reachable (final t).
Proof.
  induction fuel as [|fuel IH]; intros s inp Hs.
  - exists []. cbn. rewrite !app_nil_r. repeat split; auto; try lia.
  - destruct s as [br src|br rs src|char br rs src].
    + (* at the test of the outer loop *)
      cbn [feed hs_step]. destruct (br >? 0)%Z.
      * destruct (file_read src (Z.min br (if HAS_BUFFER then BUFFER_SIZE
                                           else (BUFFER_SIZE / 2)%Z)))
          as [buf src'].
        destruct (IH (HS_ack br (Z.min br (if HAS_BUFFER then BUFFER_SIZE
                                            else (BUFFER_SIZE / 2)%Z)) src')
                     inp I) as (consumed & H1 & H2 & H3 & H4 & H5).
        exists consumed. cbn in *. repeat split; auto; try lia.
      * exists []. cbn. repeat split; auto; try lia.
    + (* waiting for the ACK *)
      cbn [feed hs_step]. destruct inp as [|b rest].
      * rewrite deliver_empty by lia. exists []. cbn. repeat split; auto.
      * rewrite deliver_one. cbn [is_ack].
        destruct (Byte.eqb b ACK) eqn:Eb.
        -- destruct (IH (HS_loop (br - rs) src) rest I)
             as (consumed & H1 & H2 & H3 & H4 & H5).
           exists (b :: consumed). cbn [app]. rewrite <- H1.
           unfold acks, not_ack in *. cbn [filter]. rewrite Eb. cbn in *.
           repeat split; auto; try lia.
        -- assert (Hr : hs_reachable (HS_echo [b] br rs src)).
           { exists b. split; [reflexivity|]. unfold not_ack. now rewrite Eb. }
           destruct (IH (HS_echo [b] br rs src) rest Hr)
             as (consumed & H1 & H2 & H3 & H4 & H5).
           exists (b :: consumed). cbn [app]. rewrite <- H1.
           unfold acks, not_ack in *. cbn [filter]. rewrite Eb. cbn in *.
           repeat split; auto.
    + (* echoing a byte that is not the ACK *)
      destruct Hs as (c & -> & Hc).
      cbn [feed hs_step console].
      destruct (IH (HS_ack br rs src) inp I)
        as (consumed & H1 & H2 & H3 & H4 & H5).
      exists consumed. cbn in *. repeat split; auto. now rewrite <- H3.
Qed.

(** Without an ACK a sender that has something to send never returns. *)
Lemma feed_blocks fuel :
  forall s inp,
    hs_reachable s ->
    acks inp = 0 ->
    returned (hs_step HAS_BUFFER BUFFER_SIZE) s = false ->
    returned (hs_step HAS_BUFFER BUFFER_SIZE)
             (final (feed (hs_step HAS_BUFFER BUFFER_SIZE) fuel s inp)) = false.
Proof.
  induction fuel as [|fuel IH]; intros s inp Hs Hinp Hret; [exact Hret|].
  destruct s as [br src|br rs src|char br rs src].
  - unfold returned in Hret. cbn [feed hs_step] in *.
    destruct (br >? 0)%Z; [|discriminate].
    destruct (file_read src _) as [buf src']. cbn [final].
    apply IH; auto; exact I.
  - cbn [feed hs_step]. destruct inp as [|b rest].
    + rewrite deliver_empty by lia. reflexivity.
    + rewrite deliver_one. cbn [is_ack].
      unfold acks in Hinp. cbn [filter] in Hinp.
      destruct (Byte.eqb b ACK) eqn:Eb; [discriminate|].
      apply IH; auto.
      exists b. split; [reflexivity|]. unfold not_ack. now rewrite Eb.
  - destruct Hs as (c & -> & Hc). cbn [feed hs_step console final].
    apply IH; auto; exact I.
Qed.

End Paced.

End AckFacts.

(** C5 (counterexample).  A byte other than the ACK that arrives while the
    host waits is written to the standard output ([sys.stdout.write]), not
    to the standard error, which stays empty. *)
Lemma non_ack_byte_goes_to_stdout :
  let t := Xfer.feed (Xfer.hs_step true 512) 10
             (Xfer.send_file_to_remote [Byte.x41] 1) [Byte.x21; Xfer.ACK] in
  Xfer.err t = [] /\ Xfer.out t = [Byte.x21] /\ Xfer.err t <> [Byte.x21].
Proof. repeat split. discriminate. Qed.

(** C5 (amended).  Whatever bytes [inp] arrive and however long
    [send_file_to_remote] runs, it has written at most one chunk more than
    it has read ACK bytes; every other byte it has read is written, in
    order, to the standard output (the last one possibly still to be
    printed) and nothing to the standard error; and as long as no ACK has
    arrived it has written at most one chunk and has not returned. *)
Theorem send_file_to_remote_ack_paced :
  forall (HAS_BUFFER : bool) (BUFFER_SIZE : Z) (src_file : bytes)
         (filesize : Z) (inp : bytes) (fuel : nat),
    let step := Xfer.hs_step HAS_BUFFER BUFFER_SIZE in
    let t := Xfer.feed step fuel (Xfer.send_file_to_remote src_file filesize) inp in
    exists consumed,
      inp = consumed ++ Xfer.unread t /\
      List.length (Xfer.sent t) <= 1 + acks consumed /\
      Xfer.out t ++ pending (Xfer.final t) = filter not_ack consumed /\
      Xfer.err t = [] /\
      (acks inp = 0 -> (0 < filesize)%Z ->
       List.length (Xfer.sent t) <= 1 /\
       Xfer.returned step (Xfer.final t) = false).
Proof.
  intros HAS_BUFFER BUFFER_SIZE src_file filesize inp fuel step t.
  destruct (@AckFacts.feed_paced HAS_BUFFER BUFFER_SIZE fuel
              (Xfer.send_file_to_remote src_file filesize) inp I)
    as (consumed & H1 & H2 & H3 & H4 & _).
  fold step in H1, H2, H3, H4. fold t in H1, H2, H3, H4.
  exists consumed. cbn in H2, H3. repeat split; auto.
  - assert (Hc : acks consumed = 0).
    { unfold acks in *. rewrite H1, filter_app, length_app in H. lia. }
    lia.
  - apply AckFacts.feed_blocks; auto; try exact I.
    unfold Xfer.returned, Xfer.send_file_to_remote. cbn.
    destruct (Z.gtb_spec filesize 0); [|lia].
    now destruct (Xfer.file_read _ _).
Qed.

Lemma send_file_to_remote_ack_paced_witness :
  List.length
    (Xfer.sent (Xfer.feed (Xfer.hs_step true 2) 20
                  (Xfer.send_file_to_remote [Byte.x41; Byte.x42; Byte.x43] 3)
                  [Byte.x21; Byte.x3f])) <= 1 /\
  Xfer.returned (Xfer.hs_step true 2)
    (Xfer.final (Xfer.feed (Xfer.hs_step true 2) 20
                   (Xfer.send_file_to_remote [Byte.x41; Byte.x42; Byte.x43] 3)
                   [Byte.x21; Byte.x3f])) = false.
Proof.
  destruct (@send_file_to_remote_ack_paced true 2
              [Byte.x41; Byte.x42; Byte.x43] 3 [Byte.x21; Byte.x3f] 20)
    as (consumed & _ & _ & _ & _ & H).
  apply H; [reflexivity|lia].
Defined.

Module WireFacts.

Import Xfer.

Lemma file_read_pos src n :
  (0 <= n)%Z ->
  file_read src n = (firstn (Z.to_nat n) src, skipn (Z.to_nat n) src).
Proof. intros H. unfold file_read. destruct (Z.ltb_spec n 0); [lia|reflexivity]. Qed.

Lemma is_ack_ACK : is_ack [ACK] = true.
Proof. reflexivity. Qed.

Lemma firstn_min {A} n (l : list A) :
  firstn (Nat.min (List.length l) n) l = firstn n l.
Proof.
  destruct (Nat.le_ge_cases n (List.length l)).
  - now rewrite Nat.min_r.
  - rewrite Nat.min_l by assumption. now rewrite !firstn_all2 by lia.
Qed.

Lemma skipn_min {A} n (l : list A) :
  skipn (Nat.min (List.length l) n) l = skipn n l.
Proof.
  destruct (Nat.le_ge_cases n (List.length l)).
  - now rewrite Nat.min_r.
  - rewrite Nat.min_l by assumption. now rewrite !skipn_all2 by lia.
Qed.

Lemma pieces_cons n size b file :
  pieces (S n) size (b :: file) =
  firstn size (b :: file) :: pieces n size (skipn size (b :: file)).
Proof. reflexivity. Qed.

Lemma pieces_concat n size file :
  1 <= size -> List.length file <= n ->
  List.concat (pieces n size file) = file.
Proof.
  intros Hs. revert file. induction n as [|n IH]; intros file Hn.
  - destruct file; [reflexivity|simpl in Hn; lia].
  - destruct file as [|b file]; [reflexivity|].
    cbn [pieces List.concat]. rewrite IH; [apply firstn_skipn|].
    rewrite length_skipn. simpl List.length in *. lia.
Qed.

Lemma pieces_bound n size file :
  Forall (fun p => List.length p <= size) (pieces n size file).
Proof.
  revert file. induction n as [|n IH]; intros file; [constructor|].
  destruct file as [|b file]; [constructor|].
  cbn [pieces]. constructor; [|apply IH].
  rewrite length_firstn. lia.
Qed.

Section Senders.

Variable HAS_BUFFER : bool.
Variable BUFFER_SIZE : Z.
Hypothesis Hpayload : (1 <= payload_size HAS_BUFFER BUFFER_SIZE)%Z.

(** The chunks [send_file_to_remote] writes when every ACK arrives. *)
Lemma hs_chunks n :
  forall src k,
    List.length src <= n -> List.length src <= k ->
    exists fuel,
      let t := feed (hs_step HAS_BUFFER BUFFER_SIZE) fuel
                    (HS_loop (Z.of_nat (List.length src)) src)
                    (repeat ACK k) in
      sent t = map (encode HAS_BUFFER)
                   (pieces n (Z.to_nat (payload_size HAS_BUFFER BUFFER_SIZE)) src) /\
      returned (hs_step HAS_BUFFER BUFFER_SIZE) (final t) = true.
Proof.
  induction n as [|n IH]; intros src k Hn Hk.
  - destruct src; [|simpl in Hn; lia].
    exists 1. cbn. repeat split; auto.
  - destruct src as [|b src0].
    + exists 1. cbn. repeat split; auto.
    + set (src := b :: src0) in *.
      set (br := Z.of_nat (List.length src)).
      set (rs := Z.min br (payload_size HAS_BUFFER BUFFER_SIZE)).
      assert (Hbr : (0 < br)%Z) by (unfold br, src; simpl List.length; lia).
      assert (Hrs : (1 <= rs <= br)%Z) by (unfold rs; lia).
      assert (Ers : Z.to_nat rs =
                    Nat.min (List.length src)
                            (Z.to_nat (payload_size HAS_BUFFER BUFFER_SIZE)))
        by (unfold rs, br; lia).
      destruct k as [|k]; [unfold src in Hk; simpl in Hk; lia|].
      destruct (IH (skipn (Z.to_nat rs) src) k) as (fuel & H1 & H4).
      { rewrite length_skipn. unfold br in *. lia. }
      { rewrite length_skipn. unfold br in *. lia. }
      exists (S (S fuel)).
      assert (Hlen : Z.of_nat (List.length (skipn (Z.to_nat rs) src)) = (br - rs)%Z).
      { rewrite length_skipn. unfold br in *. lia. }
      rewrite Hlen in *.
      cbn [feed hs_step]. fold br.
      destruct (Z.gtb_spec br 0); [|lia].
      change (if HAS_BUFFER then BUFFER_SIZE else (BUFFER_SIZE / 2)%Z)
        with (payload_size HAS_BUFFER BUFFER_SIZE).
      fold rs. rewrite file_read_pos by lia.
      cbn [feed hs_step repeat]. rewrite AckFacts.deliver_one, is_ack_ACK.
      cbn [sent final].
      change (pieces (S n) (Z.to_nat (payload_size HAS_BUFFER BUFFER_SIZE)) src)
        with (firstn (Z.to_nat (payload_size HAS_BUFFER BUFFER_SIZE)) src
              :: pieces n (Z.to_nat (payload_size HAS_BUFFER BUFFER_SIZE))
                   (skipn (Z.to_nat (payload_size HAS_BUFFER BUFFER_SIZE)) src)).
      cbn [map]. rewrite Ers in *. rewrite firstn_min, skipn_min in *.
      split; [unfold encode at 1; f_equal; exact H1|exact H4].
Qed.

(** The chunks [send_file_to_host] writes when every ACK arrives. *)
Lemma bs_chunks n :
  forall src k,
    List.length src <= n -> List.length src <= k ->
    exists fuel,
      let t := feed (bs_step HAS_BUFFER BUFFER_SIZE) fuel
                    (BS_loop (Z.of_nat (List.length src)) src)
                    (repeat ACK k) in
      sent t = map (encode HAS_BUFFER)
                   (pieces n (Z.to_nat (payload_size HAS_BUFFER BUFFER_SIZE)) src) /\
      returned (bs_step HAS_BUFFER BUFFER_SIZE) (final t) = true.
Proof.
  induction n as [|n IH]; intros src k Hn Hk.
  - destruct src; [|simpl in Hn; lia].
    exists 1. cbn. repeat split; auto.
  - destruct src as [|b src0].
    + exists 1. cbn. repeat split; auto.
    + set (src := b :: src0) in *.
      set (br := Z.of_nat (List.length src)).
      set (rs := Z.min br (payload_size HAS_BUFFER BUFFER_SIZE)).
      assert (Hbr : (0 < br)%Z) by (unfold br, src; simpl List.length; lia).
      assert (Hrs : (1 <= rs <= br)%Z) by (unfold rs; lia).
      assert (Ers : Z.to_nat rs =
                    Nat.min (List.length src)
                            (Z.to_nat (payload_size HAS_BUFFER BUFFER_SIZE)))
        by (unfold rs, br; lia).
      destruct k as [|k]; [unfold src in Hk; simpl in Hk; lia|].
      destruct (IH (skipn (Z.to_nat rs) src) k) as (fuel & H1 & H4).
      { rewrite length_skipn. unfold br in *. lia. }
      { rewrite length_skipn. unfold br in *. lia. }
      exists (S (S fuel)).
      assert (Hlen : Z.of_nat (List.length (skipn (Z.to_nat rs) src)) = (br - rs)%Z).
      { rewrite length_skipn. unfold br in *. lia. }
      rewrite Hlen in *.
      cbn [feed bs_step]. fold br.
      destruct (Z.gtb_spec br 0); [|lia].
      change (if HAS_BUFFER then BUFFER_SIZE else (BUFFER_SIZE / 2)%Z)
        with (payload_size HAS_BUFFER BUFFER_SIZE).
      fold rs. rewrite file_read_pos by lia.
      cbn [feed bs_step repeat]. rewrite AckFacts.deliver_one.
      cbn [is_ack]. change (Byte.eqb ACK ACK) with true. cbn iota.
      cbn [sent final].
      change (pieces (S n) (Z.to_nat (payload_size HAS_BUFFER BUFFER_SIZE)) src)
        with (firstn (Z.to_nat (payload_size HAS_BUFFER BUFFER_SIZE)) src
              :: pieces n (Z.to_nat (payload_size HAS_BUFFER BUFFER_SIZE))
                   (skipn (Z.to_nat (payload_size HAS_BUFFER BUFFER_SIZE)) src)).
      cbn [map]. rewrite Ers in *. rewrite firstn_min, skipn_min in *.
      split; [unfold encode at 1; f_equal; exact H1|exact H4].
Qed.

End Senders.

Lemma encoded_length hb ps :
  Z.of_nat (List.length (List.concat (map (encode hb) ps))) =
  ((if hb then 1 else 2) * Z.of_nat (List.length (List.concat ps)))%Z.
Proof.
  induction ps as [|p ps IH]; simpl; [now destruct hb|].
  rewrite !length_app, !Nat2Z.inj_add, IH.
  destruct hb; simpl encode; [lia|].
  rewrite XferFacts.hexlify_length. lia.
Qed.

Lemma encoded_bound hb bs p :
  (1 <= payload_size hb bs)%Z ->
  List.length p <= Z.to_nat (payload_size hb bs) ->
  (Z.of_nat (List.length (encode hb p)) <= bs)%Z.
Proof.
  unfold payload_size, encode. destruct hb; [lia|].
  rewrite XferFacts.hexlify_length. intros H0 H.
  pose proof (Z.mul_div_le bs 2). lia.
Qed.

End WireFacts.



Module RunFacts.

Import Xfer.

Section Runs.

Variables A B RA RB : Type.
Variable step_a : A -> action A RA.
Variable step_b : B -> action B RB.

Lemma steps_add n m s :
  steps step_a step_b (n + m) s = steps step_a step_b m (steps step_a step_b n s).
Proof.
  revert s. induction n as [|n IH]; intros s; [reflexivity|].
  simpl. destruct (sys_step step_a step_b s) as [s'|] eqn:E; [apply IH|].
  clear IH. induction m as [|m IHm]; [reflexivity|]. simpl. now rewrite E.
Qed.

Lemma steps_one s s' :
  sys_step step_a step_b s = Some s' -> steps step_a step_b 1 s = s'.
Proof. intros H. simpl. now rewrite H. Qed.

(** A state with no step left is where the run ends. *)
Lemma run_steps n s s' :
  steps step_a step_b n s = s' ->
  sys_step step_a step_b s' = None ->
  run step_a step_b n s = Some (verdict step_a step_b s').
Proof.
  revert s. induction n as [|n IH]; intros s Hs Hend.
  - simpl in Hs. subst s'. simpl. now rewrite Hend.
  - simpl in Hs. simpl.
    destruct (sys_step step_a step_b s) as [s1|] eqn:E.
    + now apply IH.
    + now subst s'.
Qed.

(** More fuel does not change the outcome of a run that has ended. *)
Lemma run_more n k s o :
  run step_a step_b n s = Some o -> run step_a step_b (n + k) s = Some o.
Proof.
  revert s. induction n as [|n IH]; intros s H; simpl in *.
  - destruct (sys_step step_a step_b s) eqn:E; [discriminate|].
    destruct k; simpl; now rewrite E.
  - destruct (sys_step step_a step_b s); [now apply IH|exact H].
Qed.

End Runs.

Lemma deliver_some n line sch :
  (1 <= n)%Z -> line <> [] ->
  exists m, 1 <= m <= List.length line /\ (Z.of_nat m <= n)%Z /\
            deliver n line sch = Some (firstn m line, skipn m line, tl sch).
Proof.
  intros Hn Hl. unfold deliver.
  destruct (Z.leb_spec n 0); [lia|].
  destruct line as [|b line]; [contradiction|].
  eexists. split; [|split; [|reflexivity]]; simpl List.length; lia.
Qed.

Lemma deliver_all n line :
  (Z.of_nat (List.length line) <= n)%Z -> line <> [] ->
  deliver n line [] = Some (line, [], []).
Proof.
  intros Hn Hl. unfold deliver.
  destruct line as [|b line]; [contradiction|].
  destruct (Z.leb_spec n 0); [simpl List.length in Hn; lia|].
  cbn [tl].
  replace (Nat.max 1 _) with (List.length (b :: line))
    by (simpl List.length in *; lia).
  now rewrite firstn_all, skipn_all.
Qed.

End RunFacts.

Module PairFacts.

Import Xfer.

Section Pair.

Variables A B RA RB : Type.
Variable step_a : A -> action A RA.
Variable step_b : B -> action B RB.

Lemma sender_sends a b down up sch data a' :
  step_a a = Send data a' ->
  sys_step step_a step_b (quiet a b down up sch) =
  Some (quiet a' b (down ++ data) up sch).
Proof. intros H. unfold sys_step, quiet. cbn. now rewrite H. Qed.

Lemma sender_receives a b down up sch n k piece rest x :
  step_a a = Recv n k ->
  deliver n up [] = Some (piece, rest, x) ->
  sys_step step_a step_b (quiet a b down up sch) =
  Some (quiet (k piece) b down rest sch).
Proof. intros H D. unfold sys_step, quiet. cbn. now rewrite H, D. Qed.

Lemma receiver_sends a b down sch n k data b' :
  step_a a = Recv n k -> (1 <= n)%Z ->
  step_b b = Send data b' ->
  sys_step step_a step_b (quiet a b down [] sch) =
  Some (quiet a b' down data sch).
Proof.
  intros H Hn Hb. unfold sys_step, receiver_step, quiet. cbn.
  rewrite H, AckFacts.deliver_empty by lia. cbn. now rewrite Hb.
Qed.

Lemma receiver_receives a b down sch n k n' k' piece rest sch' :
  step_a a = Recv n k -> (1 <= n)%Z ->
  step_b b = Recv n' k' ->
  deliver n' down sch = Some (piece, rest, sch') ->
  sys_step step_a step_b (quiet a b down [] sch) =
  Some (quiet a (k' piece) rest [] sch').
Proof.
  intros H Hn Hb D. unfold sys_step, receiver_step, quiet. cbn.
  rewrite H, AckFacts.deliver_empty by lia. cbn. now rewrite Hb, D.
Qed.

Lemma both_done a b sch ra rb :
  step_a a = Done ra -> step_b b = Done rb ->
  sys_step step_a step_b (quiet a b [] [] sch) = None /\
  verdict step_a step_b (quiet a b [] [] sch) = Finished ra rb.
Proof.
  intros Ha Hb. unfold sys_step, receiver_step, verdict, quiet. cbn.
  now rewrite Ha, Hb.
Qed.

End Pair.

End PairFacts.

Module FidelityFacts.

Import Xfer.

Lemma firstn_length_le {X} n (w got : list X) :
  firstn n w = got -> List.length got = n -> n <= List.length w.
Proof.
  intros H1 H2. rewrite <- H1, length_firstn in H2. lia.
Qed.

Section Modes.

Variable HAS_BUFFER : bool.
Variable BUFFER_SIZE : Z.
Hypothesis Hbuf : buffer_ok HAS_BUFFER BUFFER_SIZE.

Lemma payload_pos : (1 <= payload_size HAS_BUFFER BUFFER_SIZE)%Z.
Proof.
  unfold buffer_ok, payload_size in *. destruct HAS_BUFFER; [exact Hbuf|].
  destruct Hbuf as [H1 H2]. apply Z.div_le_lower_bound; lia.
Qed.

Lemma buffer_pos : (1 <= BUFFER_SIZE)%Z.
Proof. unfold buffer_ok in *. destruct HAS_BUFFER; lia. Qed.

Lemma buffer_split :
  BUFFER_SIZE = (wire_factor HAS_BUFFER * payload_size HAS_BUFFER BUFFER_SIZE)%Z.
Proof.
  unfold buffer_ok, payload_size, wire_factor in *. destruct HAS_BUFFER; [lia|].
  destruct Hbuf as [H1 H2].
  pose proof (Z.div_mod BUFFER_SIZE 2). lia.
Qed.

Lemma wire_length p :
  Z.of_nat (List.length (encode HAS_BUFFER p)) =
  (wire_factor HAS_BUFFER * Z.of_nat (List.length p))%Z.
Proof.
  unfold encode, wire_factor. destruct HAS_BUFFER; [lia|].
  rewrite XferFacts.hexlify_length. lia.
Qed.

Lemma decode_encode p :
  (if HAS_BUFFER then Ok (encode HAS_BUFFER p)
   else unhexlify (encode HAS_BUFFER p)) = Ok p.
Proof.
  unfold encode. destruct HAS_BUFFER; [reflexivity|].
  apply XferFacts.unhexlify_hexlify.
Qed.

(** The inner loop of [recv_file_from_host]: whatever pieces the reads
    return, the chunk on the line ends up in the file and the ACK on the
    line back. *)
Lemma br_inner_loop n :
  forall rest got R wbuf sch a m k brr chunk dst,
    List.length rest <= n ->
    hs_step HAS_BUFFER BUFFER_SIZE a = Recv m k -> (1 <= m)%Z ->
    br_step HAS_BUFFER BUFFER_SIZE R =
      br_inner HAS_BUFFER BUFFER_SIZE brr
        (Z.of_nat (List.length got + List.length rest))
        (Z.of_nat (List.length rest)) (Z.of_nat (List.length got)) wbuf dst ->
    firstn (List.length got) wbuf = got ->
    (Z.of_nat (List.length got + List.length rest) <= brr)%Z ->
    (if HAS_BUFFER then Ok (got ++ rest) else unhexlify (got ++ rest)) = Ok chunk ->
    exists j wbuf' sch',
      steps (hs_step HAS_BUFFER BUFFER_SIZE) (br_step HAS_BUFFER BUFFER_SIZE) j
            (quiet a R rest [] sch) =
      quiet a (BR_outer (brr - Z.of_nat (List.length got + List.length rest))
                        wbuf' (dst ++ chunk))
            [] [ACK] sch'.
Proof.
  induction n as [|n IH];
    intros rest got R wbuf sch a m k brr chunk dst Hn Ha Hm HR Hw Hbrr Hdec.
  - destruct rest; [|simpl in Hn; lia].
    exists 1, wbuf, sch. apply RunFacts.steps_one.
    eapply PairFacts.receiver_sends; eauto.
    rewrite HR. unfold br_inner. cbn [List.length Z.of_nat Z.gtb Z.compare].
    rewrite Nat.add_0_r in *. rewrite app_nil_r in Hdec.
    rewrite XferFacts.slice_prefix by lia. rewrite Nat2Z.id, Hw.
    unfold bytes in *. rewrite Hdec. reflexivity.
  - destruct rest as [|b rest0].
    + apply (IH [] got R wbuf sch a m k brr chunk dst); auto. simpl. lia.
    + set (rest := b :: rest0) in *.
      assert (Hlen : 1 <= List.length rest) by (unfold rest; simpl; lia).
      pose proof buffer_pos as Hbs.
      destruct (@RunFacts.deliver_some
                  (Z.min brr (Z.max 0 BUFFER_SIZE)) rest sch)
        as (p & Hp & Hpn & Hd); [lia|unfold rest; discriminate|].
      set (piece := firstn p rest) in *.
      assert (Hpl : List.length piece = p)
        by (unfold piece; rewrite length_firstn; lia).
      assert (Hgw : List.length got <= List.length wbuf)
        by (eapply firstn_length_le; eauto).
      set (wbuf1 := slice_assign wbuf (Z.of_nat (List.length got))
                      (Z.of_nat (List.length piece))
                      (slice piece 0 (Z.of_nat (List.length piece)))).
      destruct (IH (skipn p rest) (got ++ piece)
                   (BR_inner brr (Z.of_nat (List.length got + List.length rest))
                      (Z.of_nat (List.length rest) - Z.of_nat (List.length piece))
                      (Z.of_nat (List.length got) + Z.of_nat (List.length piece))
                      wbuf1 dst)
                   wbuf1 (tl sch) a m k brr chunk dst)
        as (j & wbuf' & sch' & Hsteps); auto.
      * rewrite length_skipn. lia.
      * cbn [br_step]. rewrite length_app, length_skipn, Hpl.
        f_equal; lia.
      * unfold wbuf1. rewrite XferFacts.slice_whole, length_app.
        now rewrite XferFacts.slice_assign_prefix, Hw.
      * rewrite length_app, length_skipn, Hpl. lia.
      * rewrite <- app_assoc. unfold piece. now rewrite firstn_skipn.
      * exists (S j), wbuf', sch'.
        change (S j) with (1 + j). rewrite RunFacts.steps_add.
        erewrite RunFacts.steps_one.
        2:{ eapply PairFacts.receiver_receives; eauto.
            rewrite HR. unfold br_inner.
            destruct (Z.gtb_spec (Z.of_nat (List.length rest)) 0); [|lia].
            reflexivity. }
        cbv beta. fold piece.
        destruct (Z.gtb_spec (Z.of_nat (List.length piece)) 0); [|lia].
        fold wbuf1. rewrite Hsteps.
        rewrite length_app, length_skipn, Hpl.
        replace (List.length got + p + (List.length rest - p))
          with (List.length got + List.length rest) by lia.
        reflexivity.
Qed.

(** The sizes the two sides compute for a chunk agree. *)
Lemma sizes_agree len :
  Z.min (wire_factor HAS_BUFFER * Z.of_nat len) BUFFER_SIZE =
  (wire_factor HAS_BUFFER *
   Z.min (Z.of_nat len) (payload_size HAS_BUFFER BUFFER_SIZE))%Z.
Proof.
  rewrite buffer_split at 1. unfold wire_factor. destruct HAS_BUFFER; lia.
Qed.

(** One chunk, host to board: written, reassembled, stored, acknowledged. *)
Lemma h2b_round b src0 dst wbuf sch :
  let src := b :: src0 in
  let r := Z.to_nat (payload_size HAS_BUFFER BUFFER_SIZE) in
  exists j wbuf' sch',
    steps (hs_step HAS_BUFFER BUFFER_SIZE) (br_step HAS_BUFFER BUFFER_SIZE) j
      (quiet (HS_loop (Z.of_nat (List.length src)) src)
             (BR_outer (wire_factor HAS_BUFFER * Z.of_nat (List.length src))
                       wbuf dst) [] [] sch) =
    quiet (HS_loop (Z.of_nat (List.length (skipn r src))) (skipn r src))
          (BR_outer (wire_factor HAS_BUFFER *
                     Z.of_nat (List.length (skipn r src)))
                    wbuf' (dst ++ firstn r src)) [] [] sch'.
Proof.
  intros src r.
  pose proof payload_pos as Hps.
  set (br := Z.of_nat (List.length src)).
  set (rs := Z.min br (payload_size HAS_BUFFER BUFFER_SIZE)).
  assert (Hbr : (0 < br)%Z) by (unfold br, src; simpl List.length; lia).
  assert (Hrs : (1 <= rs <= br)%Z) by (unfold rs; lia).
  assert (Ers : Z.to_nat rs = Nat.min (List.length src) r)
    by (unfold rs, br, r; lia).
  assert (Hfirst : firstn (Z.to_nat rs) src = firstn r src)
    by (rewrite Ers; apply WireFacts.firstn_min).
  assert (Hskip : skipn (Z.to_nat rs) src = skipn r src)
    by (rewrite Ers; apply WireFacts.skipn_min).
  set (chunk := firstn r src) in *.
  set (src' := skipn r src) in *.
  assert (Hchunk : Z.of_nat (List.length chunk) = rs).
  { rewrite <- Hfirst, length_firstn. unfold br in *. lia. }
  assert (Hsrc' : Z.of_nat (List.length src') = (br - rs)%Z).
  { rewrite <- Hskip, length_skipn. unfold br in *. lia. }
  assert (Hsend : hs_step HAS_BUFFER BUFFER_SIZE (HS_loop br src) =
                  Send (encode HAS_BUFFER chunk) (HS_ack br rs src')).
  { cbn [hs_step]. destruct (Z.gtb_spec br 0); [|lia].
    change (if HAS_BUFFER then BUFFER_SIZE else (BUFFER_SIZE / 2)%Z)
      with (payload_size HAS_BUFFER BUFFER_SIZE).
    fold rs. rewrite WireFacts.file_read_pos by lia.
    rewrite Hfirst, Hskip. reflexivity. }
  set (wire := encode HAS_BUFFER chunk).
  assert (Hwire : Z.of_nat (List.length wire) = (wire_factor HAS_BUFFER * rs)%Z).
  { unfold wire. rewrite wire_length, Hchunk. reflexivity. }
  set (brr := (wire_factor HAS_BUFFER * br)%Z).
  assert (Hmin : Z.min brr BUFFER_SIZE = Z.of_nat (List.length wire)).
  { unfold brr, br. rewrite sizes_agree. fold br. fold rs. now rewrite Hwire. }
  assert (Hf : (1 <= wire_factor HAS_BUFFER)%Z)
    by (unfold wire_factor; destruct HAS_BUFFER; lia).
  destruct (@br_inner_loop (List.length wire) wire [] (BR_outer brr wbuf dst)
              wbuf sch (HS_ack br rs src') 1%Z
              (fun char => if is_ack char then HS_loop (br - rs) src'
                           else HS_echo char br rs src')
              brr chunk dst)
    as (j & wbuf' & sch' & Hloop); auto; try lia.
  - cbn [br_step]. destruct (Z.gtb_spec brr 0); [|unfold brr; nia].
    rewrite Hmin. reflexivity.
  - change (List.length (@nil Byte.byte) + List.length wire)
      with (List.length wire).
    rewrite Hwire. unfold brr. nia.
  - simpl app. apply decode_encode.
  - change (List.length (@nil Byte.byte) + List.length wire)
      with (List.length wire) in Hloop.
    rewrite Hwire in Hloop.
    exists (1 + (j + 1)), wbuf', sch'.
    rewrite RunFacts.steps_add.
    erewrite RunFacts.steps_one by (apply PairFacts.sender_sends; exact Hsend).
    simpl app. fold wire. fold brr.
    rewrite RunFacts.steps_add, Hloop.
    erewrite RunFacts.steps_one.
    2:{ eapply PairFacts.sender_receives; [reflexivity|].
        apply AckFacts.deliver_one. }
    cbv beta. rewrite WireFacts.is_ack_ACK.
    rewrite Hsrc'. unfold brr.
    replace (wire_factor HAS_BUFFER * br - (wire_factor HAS_BUFFER * rs))%Z
      with (wire_factor HAS_BUFFER * (br - rs))%Z by lia.
    reflexivity.
Qed.

(** The whole file, host to board. *)
Lemma h2b_all n :
  forall src dst wbuf sch,
    List.length src <= n ->
    exists j wbuf' sch',
      steps (hs_step HAS_BUFFER BUFFER_SIZE) (br_step HAS_BUFFER BUFFER_SIZE) j
        (quiet (HS_loop (Z.of_nat (List.length src)) src)
               (BR_outer (wire_factor HAS_BUFFER * Z.of_nat (List.length src))
                         wbuf dst) [] [] sch) =
      quiet (HS_loop 0 []) (BR_outer 0 wbuf' (dst ++ src)) [] [] sch'.
Proof.
  pose proof payload_pos as Hps.
  induction n as [|n IH]; intros src dst wbuf sch Hn.
  - destruct src; [|simpl in Hn; lia].
    exists 0, wbuf, sch. simpl. now rewrite Z.mul_0_r, app_nil_r.
  - destruct src as [|b src0].
    + exists 0, wbuf, sch. simpl. now rewrite Z.mul_0_r, app_nil_r.
    + destruct (h2b_round b src0 dst wbuf sch) as (j1 & wbuf1 & sch1 & H1).
      cbv zeta in H1.
      set (r := Z.to_nat (payload_size HAS_BUFFER BUFFER_SIZE)) in *.
      destruct (IH (skipn r (b :: src0)) (dst ++ firstn r (b :: src0)) wbuf1 sch1)
        as (j2 & wbuf2 & sch2 & H2).
      { rewrite length_skipn. simpl List.length in *. lia. }
      exists (j1 + j2), wbuf2, sch2.
      rewrite RunFacts.steps_add, H1, H2.
      now rewrite <- app_assoc, firstn_skipn.
Qed.

Lemma host_to_board_delivers file sch :
  exists fuel, forall k,
    host_to_board HAS_BUFFER BUFFER_SIZE file sch (fuel + k) =
    Some (Finished (Ok tt) (true, file)).
Proof.
  pose proof buffer_pos as Hbs.
  destruct (@h2b_all (List.length file) file []
              (repeat Byte.x00 (Z.to_nat BUFFER_SIZE)) sch (le_n _))
    as (j & wbuf' & sch' & H).
  exists j. intros k. unfold host_to_board. apply RunFacts.run_more.
  assert (Hinit :
    start (send_file_to_remote file (Z.of_nat (List.length file)))
          (recv_file_from_host HAS_BUFFER BUFFER_SIZE
             (Z.of_nat (List.length file))) sch =
    quiet (HS_loop (Z.of_nat (List.length file)) file)
          (BR_outer (wire_factor HAS_BUFFER * Z.of_nat (List.length file))
                    (repeat Byte.x00 (Z.to_nat BUFFER_SIZE)) []) [] [] sch).
  { unfold start, quiet, send_file_to_remote, recv_file_from_host, bytearray.
    destruct (Z.ltb_spec BUFFER_SIZE 0); [lia|].
    unfold wire_factor. destruct HAS_BUFFER; cbn [negb];
      [rewrite Z.mul_1_l|rewrite (Z.mul_comm 2)]; reflexivity. }
  rewrite Hinit.
  destruct (@PairFacts.both_done _ _ _ _
              (hs_step HAS_BUFFER BUFFER_SIZE) (br_step HAS_BUFFER BUFFER_SIZE)
              (HS_loop 0 []) (BR_outer 0 wbuf' file) sch'
              (Ok tt) (true, file) eq_refl eq_refl) as [Hend Hver].
  simpl app in H.
  rewrite (RunFacts.run_steps _ _ _ _ H Hend). now rewrite Hver.
Qed.

(** The inner loop of [recv_file_from_remote], likewise. *)
Lemma hr_inner_loop n :
  forall rest got R wbuf sch a m k brr chunk dst,
    List.length rest <= n ->
    bs_step HAS_BUFFER BUFFER_SIZE a = Recv m k -> (1 <= m)%Z ->
    hr_step HAS_BUFFER BUFFER_SIZE R =
      hr_inner HAS_BUFFER brr
        (Z.of_nat (List.length got + List.length rest))
        (Z.of_nat (List.length rest)) (Z.of_nat (List.length got)) wbuf dst ->
    firstn (List.length got) wbuf = got ->
    (Z.of_nat (List.length got + List.length rest) <= brr)%Z ->
    (if HAS_BUFFER then Ok (got ++ rest) else unhexlify (got ++ rest)) = Ok chunk ->
    exists j wbuf' sch',
      steps (bs_step HAS_BUFFER BUFFER_SIZE) (hr_step HAS_BUFFER BUFFER_SIZE) j
            (quiet a R rest [] sch) =
      quiet a (HR_outer (brr - Z.of_nat (List.length got + List.length rest))
                        wbuf' (dst ++ chunk))
            [] [ACK] sch'.
Proof.
  induction n as [|n IH];
    intros rest got R wbuf sch a m k brr chunk dst Hn Ha Hm HR Hw Hbrr Hdec.
  - destruct rest; [|simpl in Hn; lia].
    exists 1, wbuf, sch. apply RunFacts.steps_one.
    eapply PairFacts.receiver_sends; eauto.
    rewrite HR. unfold hr_inner. cbn [List.length Z.of_nat Z.gtb Z.compare].
    rewrite Nat.add_0_r in *. rewrite app_nil_r in Hdec.
    rewrite XferFacts.slice_prefix by lia. rewrite Nat2Z.id, Hw.
    unfold bytes in *. rewrite Hdec. reflexivity.
  - destruct rest as [|b rest0].
    + apply (IH [] got R wbuf sch a m k brr chunk dst); auto. simpl. lia.
    + set (rest := b :: rest0) in *.
      assert (Hlen : 1 <= List.length rest) by (unfold rest; simpl; lia).
      pose proof buffer_pos as Hbs.
      destruct (@RunFacts.deliver_some
                  (Z.of_nat (List.length rest)) rest sch)
        as (p & Hp & Hpn & Hd); [lia|unfold rest; discriminate|].
      set (piece := firstn p rest) in *.
      assert (Hpl : List.length piece = p)
        by (unfold piece; rewrite length_firstn; lia).
      assert (Hgw : List.length got <= List.length wbuf)
        by (eapply firstn_length_le; eauto).
      set (wbuf1 := slice_assign wbuf (Z.of_nat (List.length got))
                      (Z.of_nat (List.length piece))
                      (slice piece 0 (Z.of_nat (List.length piece)))).
      destruct (IH (skipn p rest) (got ++ piece)
                   (HR_inner brr (Z.of_nat (List.length got + List.length rest))
                      (Z.of_nat (List.length rest) - Z.of_nat (List.length piece))
                      (Z.of_nat (List.length got) + Z.of_nat (List.length piece))
                      wbuf1 dst)
                   wbuf1 (tl sch) a m k brr chunk dst)
        as (j & wbuf' & sch' & Hsteps); auto.
      * rewrite length_skipn. lia.
      * cbn [hr_step]. rewrite length_app, length_skipn, Hpl.
        f_equal; lia.
      * unfold wbuf1. rewrite XferFacts.slice_whole, length_app.
        now rewrite XferFacts.slice_assign_prefix, Hw.
      * rewrite length_app, length_skipn, Hpl. lia.
      * rewrite <- app_assoc. unfold piece. now rewrite firstn_skipn.
      * exists (S j), wbuf', sch'.
        change (S j) with (1 + j). rewrite RunFacts.steps_add.
        erewrite RunFacts.steps_one.
        2:{ eapply PairFacts.receiver_receives; eauto.
            rewrite HR. unfold hr_inner.
            destruct (Z.gtb_spec (Z.of_nat (List.length rest)) 0); [|lia].
            reflexivity. }
        cbv beta. fold piece.
        destruct (Z.eqb_spec (Z.of_nat (List.length piece)) 0); [lia|].
        cbn [negb].
        fold wbuf1. rewrite Hsteps.
        rewrite length_app, length_skipn, Hpl.
        replace (List.length got + p + (List.length rest - p))
          with (List.length got + List.length rest) by lia.
        reflexivity.
Qed.

(** One chunk, board to host. *)
Lemma b2h_round b src0 dst wbuf sch :
  let src := b :: src0 in
  let r := Z.to_nat (payload_size HAS_BUFFER BUFFER_SIZE) in
  exists j wbuf' sch',
    steps (bs_step HAS_BUFFER BUFFER_SIZE) (hr_step HAS_BUFFER BUFFER_SIZE) j
      (quiet (BS_loop (Z.of_nat (List.length src)) src)
             (HR_outer (wire_factor HAS_BUFFER * Z.of_nat (List.length src))
                       wbuf dst) [] [] sch) =
    quiet (BS_loop (Z.of_nat (List.length (skipn r src))) (skipn r src))
          (HR_outer (wire_factor HAS_BUFFER *
                     Z.of_nat (List.length (skipn r src)))
                    wbuf' (dst ++ firstn r src)) [] [] sch'.
Proof.
  intros src r.
  pose proof payload_pos as Hps.
  set (br := Z.of_nat (List.length src)).
  set (rs := Z.min br (payload_size HAS_BUFFER BUFFER_SIZE)).
  assert (Hbr : (0 < br)%Z) by (unfold br, src; simpl List.length; lia).
  assert (Hrs : (1 <= rs <= br)%Z) by (unfold rs; lia).
  assert (Ers : Z.to_nat rs = Nat.min (List.length src) r)
    by (unfold rs, br, r; lia).
  assert (Hfirst : firstn (Z.to_nat rs) src = firstn r src)
    by (rewrite Ers; apply WireFacts.firstn_min).
  assert (Hskip : skipn (Z.to_nat rs) src = skipn r src)
    by (rewrite Ers; apply WireFacts.skipn_min).
  set (chunk := firstn r src) in *.
  set (src' := skipn r src) in *.
  assert (Hchunk : Z.of_nat (List.length chunk) = rs).
  { rewrite <- Hfirst, length_firstn. unfold br in *. lia. }
  assert (Hsrc' : Z.of_nat (List.length src') = (br - rs)%Z).
  { rewrite <- Hskip, length_skipn. unfold br in *. lia. }
  assert (Hsend : bs_step HAS_BUFFER BUFFER_SIZE (BS_loop br src) =
                  Send (encode HAS_BUFFER chunk) (BS_ack (br - rs) src')).
  { cbn [bs_step]. destruct (Z.gtb_spec br 0); [|lia].
    change (if HAS_BUFFER then BUFFER_SIZE else (BUFFER_SIZE / 2)%Z)
      with (payload_size HAS_BUFFER BUFFER_SIZE).
    fold rs. rewrite WireFacts.file_read_pos by lia.
    rewrite Hfirst, Hskip. reflexivity. }
  set (wire := encode HAS_BUFFER chunk).
  assert (Hwire : Z.of_nat (List.length wire) = (wire_factor HAS_BUFFER * rs)%Z).
  { unfold wire. rewrite wire_length, Hchunk. reflexivity. }
  set (brr := (wire_factor HAS_BUFFER * br)%Z).
  assert (Hmin : Z.min brr BUFFER_SIZE = Z.of_nat (List.length wire)).
  { unfold brr, br. rewrite sizes_agree. fold br. fold rs. now rewrite Hwire. }
  assert (Hf : (1 <= wire_factor HAS_BUFFER)%Z)
    by (unfold wire_factor; destruct HAS_BUFFER; lia).
  destruct (@hr_inner_loop (List.length wire) wire [] (HR_outer brr wbuf dst)
              wbuf sch (BS_ack (br - rs) src') 1%Z
              (fun char => match char with
                           | [] => BS_ack (br - rs) src'
                           | _ :: _ =>
                               if is_ack char then BS_loop (br - rs) src'
                               else BS_echo char (br - rs) src'
                           end)
              brr chunk dst)
    as (j & wbuf' & sch' & Hloop); auto; try lia.
  - cbn [hr_step]. destruct (Z.gtb_spec brr 0); [|unfold brr; nia].
    rewrite Hmin. reflexivity.
  - change (List.length (@nil Byte.byte) + List.length wire)
      with (List.length wire).
    rewrite Hwire. unfold brr. nia.
  - simpl app. apply decode_encode.
  - change (List.length (@nil Byte.byte) + List.length wire)
      with (List.length wire) in Hloop.
    rewrite Hwire in Hloop.
    exists (1 + (j + 1)), wbuf', sch'.
    rewrite RunFacts.steps_add.
    erewrite RunFacts.steps_one by (apply PairFacts.sender_sends; exact Hsend).
    simpl app. fold wire. fold brr.
    rewrite RunFacts.steps_add, Hloop.
    erewrite RunFacts.steps_one.
    2:{ eapply PairFacts.sender_receives; [reflexivity|].
        apply AckFacts.deliver_one. }
    cbv beta. rewrite WireFacts.is_ack_ACK.
    rewrite Hsrc'. unfold brr.
    replace (wire_factor HAS_BUFFER * br - (wire_factor HAS_BUFFER * rs))%Z
      with (wire_factor HAS_BUFFER * (br - rs))%Z by lia.
    reflexivity.
Qed.

(** The whole file, board to host. *)
Lemma b2h_all n :
  forall src dst wbuf sch,
    List.length src <= n ->
    exists j wbuf' sch',
      steps (bs_step HAS_BUFFER BUFFER_SIZE) (hr_step HAS_BUFFER BUFFER_SIZE) j
        (quiet (BS_loop (Z.of_nat (List.length src)) src)
               (HR_outer (wire_factor HAS_BUFFER * Z.of_nat (List.length src))
                         wbuf dst) [] [] sch) =
      quiet (BS_loop 0 []) (HR_outer 0 wbuf' (dst ++ src)) [] [] sch'.
Proof.
  pose proof payload_pos as Hps.
  induction n as [|n IH]; intros src dst wbuf sch Hn.
  - destruct src; [|simpl in Hn; lia].
    exists 0, wbuf, sch. simpl. now rewrite Z.mul_0_r, app_nil_r.
  - destruct src as [|b src0].
    + exists 0, wbuf, sch. simpl. now rewrite Z.mul_0_r, app_nil_r.
    + destruct (b2h_round b src0 dst wbuf sch) as (j1 & wbuf1 & sch1 & H1).
      cbv zeta in H1.
      set (r := Z.to_nat (payload_size HAS_BUFFER BUFFER_SIZE)) in *.
      destruct (IH (skipn r (b :: src0)) (dst ++ firstn r (b :: src0)) wbuf1 sch1)
        as (j2 & wbuf2 & sch2 & H2).
      { rewrite length_skipn. simpl List.length in *. lia. }
      exists (j1 + j2), wbuf2, sch2.
      rewrite RunFacts.steps_add, H1, H2.
      now rewrite <- app_assoc, firstn_skipn.
Qed.

Lemma board_to_host_delivers file sch :
  exists fuel, forall k,
    board_to_host HAS_BUFFER BUFFER_SIZE file sch (fuel + k) =
    Some (Finished true (Ok tt, file)).
Proof.
  pose proof buffer_pos as Hbs.
  destruct (@b2h_all (List.length file) file []
              (repeat Byte.x00 (Z.to_nat BUFFER_SIZE)) sch (le_n _))
    as (j & wbuf' & sch' & H).
  exists j. intros k. unfold board_to_host. apply RunFacts.run_more.
  assert (Hinit :
    start (send_file_to_host file (Z.of_nat (List.length file)))
          (recv_file_from_remote HAS_BUFFER BUFFER_SIZE []
             (Z.of_nat (List.length file))) sch =
    quiet (BS_loop (Z.of_nat (List.length file)) file)
          (HR_outer (wire_factor HAS_BUFFER * Z.of_nat (List.length file))
                    (repeat Byte.x00 (Z.to_nat BUFFER_SIZE)) []) [] [] sch).
  { unfold start, quiet, send_file_to_host, recv_file_from_remote, bytearray.
    destruct (Z.ltb_spec BUFFER_SIZE 0); [lia|].
    unfold wire_factor. destruct HAS_BUFFER; cbn [negb];
      [rewrite Z.mul_1_l|rewrite (Z.mul_comm 2)]; reflexivity. }
  rewrite Hinit.
  destruct (@PairFacts.both_done _ _ _ _
              (bs_step HAS_BUFFER BUFFER_SIZE) (hr_step HAS_BUFFER BUFFER_SIZE)
              (BS_loop 0 []) (HR_outer 0 wbuf' file) sch'
              true (Ok tt, file) eq_refl eq_refl) as [Hend Hver].
  simpl app in H.
  rewrite (RunFacts.run_steps _ _ _ _ H Hend). now rewrite Hver.
Qed.

End Modes.

End FidelityFacts.

(** X1.  In binary mode with any positive buffer size, and in hex mode with an
    even one, both directions deliver the file: whatever pieces the
    receiver's reads return, the run ends with both sides returned and the
    destination holding exactly the bytes of the source, in order. *)
Lemma transfer_fidelity :
  forall (HAS_BUFFER : bool) (BUFFER_SIZE : Z) (file : bytes) (sched : list nat),
    buffer_ok HAS_BUFFER BUFFER_SIZE ->
    exists fuel, forall k,
      Xfer.host_to_board HAS_BUFFER BUFFER_SIZE file sched (fuel + k) =
        Some (Xfer.Finished (Ok tt) (true, file)) /\
      Xfer.board_to_host HAS_BUFFER BUFFER_SIZE file sched (fuel + k) =
        Some (Xfer.Finished true (Ok tt, file)).
Proof.
  intros hb bs file sched Hok.
  destruct (@FidelityFacts.host_to_board_delivers hb bs Hok file sched) as [f1 H1].
  destruct (@FidelityFacts.board_to_host_delivers hb bs Hok file sched) as [f2 H2].
  exists (f1 + f2). intros k. split.
  - rewrite <- Nat.add_assoc. apply H1.
  - rewrite (Nat.add_comm f1 f2), <- Nat.add_assoc. apply H2.
Qed.

(** C1.  In hex mode with an odd buffer size the transfer never completes.
    With [BUFFER_SIZE = 511] and a file of 256 bytes the sender writes the
    510 hex digits of 255 bytes and waits for the ACK while the receiver
    waits for the 511th byte of its chunk; with [BUFFER_SIZE = 1] the
    sender writes an empty chunk.  Both sides are blocked for good, in
    either direction, whatever the fuel. *)
Theorem hex_transfer_stalls_on_odd_buffer :
  forall k : nat,
    Xfer.host_to_board false 511 (repeat Byte.x41 256) [] (8 + k) =
      Some Xfer.Stalled /\
    Xfer.board_to_host false 511 (repeat Byte.x41 256) [] (8 + k) =
      Some Xfer.Stalled /\
    Xfer.host_to_board false 1 [Byte.x41] [] (8 + k) = Some Xfer.Stalled /\
    Xfer.board_to_host false 1 [Byte.x41] [] (8 + k) = Some Xfer.Stalled /\
    Xfer.host_to_board false 3 [Byte.x41; Byte.x42] [] (8 + k) =
      Some Xfer.Stalled.
Proof.
  intros k. unfold Xfer.host_to_board, Xfer.board_to_host.
  repeat split; apply RunFacts.run_more; vm_compute; reflexivity.
Qed.

(** ** File queries *)

Module FilesFacts.

Local Open Scope Z_scope.

(** The three mode tests read two bits: a mode exists when it is a
    directory or a regular file. *)
Lemma mode_exists_split mode :
  Stat.mode_exists mode = Stat.mode_isdir mode || Stat.mode_isfile mode.
Proof.
  unfold Stat.mode_exists, Stat.mode_isdir, Stat.mode_isfile.
  change 0xc000 with (Z.lor 0x4000 0x8000).
  rewrite Z.land_lor_distr_r.
  destruct (Z.eqb_spec (Z.land mode 0x4000) 0) as [E1|E1];
    destruct (Z.eqb_spec (Z.land mode 0x8000) 0) as [E2|E2]; simpl;
    destruct (Z.eqb_spec (Z.lor (Z.land mode 0x4000) (Z.land mode 0x8000)) 0)
      as [E|E]; try reflexivity; exfalso.
  - apply E. rewrite E1, E2. reflexivity.
  - apply Z.lor_eq_0_iff in E. tauto.
  - apply Z.lor_eq_0_iff in E. tauto.
  - apply Z.lor_eq_0_iff in E. tauto.
Qed.

Lemma shifted_nth (t : list Z) (i : nat) :
  nth_error (firstn 7 t ++ map (fun tim => tim + TIME_OFFSET) (skipn 7 t)) i =
  if (i <? 7)%nat then nth_error t i
  else option_map (fun tim => tim + TIME_OFFSET) (nth_error t i).
Proof.
  destruct (Nat.ltb_spec i 7) as [Hi|Hi].
  - destruct (Nat.lt_ge_cases i (List.length t)) as [Hl|Hl].
    + rewrite nth_error_app1 by (rewrite length_firstn; lia).
      rewrite nth_error_firstn.
      destruct (Nat.ltb_spec i 7); [reflexivity|lia].
    + rewrite (proj2 (nth_error_None t i)) by lia.
      apply nth_error_None.
      rewrite length_app, length_map, length_firstn, length_skipn. lia.
  - destruct (Nat.lt_ge_cases i (List.length t)) as [Hl|Hl].
    + rewrite nth_error_app2 by (rewrite length_firstn; lia).
      replace (i - List.length (firstn 7 t))%nat with (i - 7)%nat
        by (rewrite length_firstn; lia).
      rewrite nth_error_map, nth_error_skipn.
      replace (7 + (i - 7))%nat with i by lia. reflexivity.
    + rewrite (proj2 (nth_error_None t i)) by lia. cbn [option_map].
      apply nth_error_None.
      rewrite length_app, length_map, length_firstn, length_skipn. lia.
Qed.

Lemma shifted_length (t : list Z) :
  List.length (firstn 7 t ++ map (fun tim => tim + TIME_OFFSET) (skipn 7 t)) =
  List.length t.
Proof. rewrite length_app, length_map, length_firstn, length_skipn. lia. Qed.

End FilesFacts.

(** X4.  For a file that exists, [get_stat] on the host returns the tuple
    of [os.stat] as it is; on a board it returns a tuple of the same
    length whose first seven fields (mode and size among them) are those
    of [os.stat] and whose later fields, the three times, are moved by
    [TIME_OFFSET] from the epoch of 2000 to the epoch of 1970. *)
Theorem get_stat_board_time_shift :
  forall (os_stat : string -> result (list Z)) (filename : string) (t : list Z),
    os_stat filename = Ok t ->
    Stat.get_stat os_stat false filename = Ok t /\
    exists t',
      Stat.get_stat os_stat true filename = Ok t' /\
      List.length t' = List.length t /\
      (forall i, i < 7 -> nth_error t' i = nth_error t i) /\
      (forall i, 7 <= i ->
         nth_error t' i =
         option_map (fun tim => (tim + TIME_OFFSET)%Z) (nth_error t i)).
Proof.
  intros os_stat filename t H. unfold Stat.get_stat, Stat.stat. rewrite H.
  cbn [bind]. split; [reflexivity|].
  eexists. split; [reflexivity|]. split; [apply FilesFacts.shifted_length|].
  split; intros i Hi; rewrite FilesFacts.shifted_nth.
  - destruct (Nat.ltb_spec i 7); [reflexivity|lia].
  - destruct (Nat.ltb_spec i 7); [lia|reflexivity].
Qed.

Lemma get_stat_board_time_shift_witness :
  Stat.get_stat (Remove.mem_stat Remove.example_fs) false "/tmp" =
    Ok [0x4000; 0; 0; 0; 0; 0; 0; 0; 0; 0]%Z /\
  exists t',
    Stat.get_stat (Remove.mem_stat Remove.example_fs) true "/tmp" = Ok t' /\
    List.length t' = 10 /\
    (forall i, i < 7 ->
       nth_error t' i = nth_error [0x4000; 0; 0; 0; 0; 0; 0; 0; 0; 0]%Z i) /\
    (forall i, 7 <= i ->
       nth_error t' i =
       option_map (fun tim => (tim + TIME_OFFSET)%Z)
                  (nth_error [0x4000; 0; 0; 0; 0; 0; 0; 0; 0; 0]%Z i)).
Proof.
  apply (@get_stat_board_time_shift (Remove.mem_stat Remove.example_fs) "/tmp").
  reflexivity.
Defined.

(** X5.  [get_mode] is [stat_mode] of [get_stat], on the host and on a
    board, for every outcome of [os.stat]; a missing file has mode 0.
    [get_filesize] is [stat_size] of [get_stat] unless [os.stat] raises
    [OSError]: for a missing file [get_filesize] is -1 where the size
    field of [get_stat] is 0. *)
Theorem get_mode_is_stat_mode_of_get_stat :
  forall (os_stat : string -> result (list Z)) (IS_UPY : bool) (filename : string),
    Files.get_mode os_stat filename =
      (t <- Stat.get_stat os_stat IS_UPY filename ;; Stat.stat_mode t) /\
    match os_stat filename with
    | Raise OSError =>
        Files.get_mode os_stat filename = Ok 0%Z /\
        Files.get_filesize os_stat filename = Ok (-1)%Z /\
        (t <- Stat.get_stat os_stat IS_UPY filename ;; Stat.stat_size t) = Ok 0%Z
    | _ =>
        Files.get_filesize os_stat filename =
          (t <- Stat.get_stat os_stat IS_UPY filename ;; Stat.stat_size t)
    end.
Proof.
  intros os_stat IS_UPY filename.
  unfold Files.get_mode, Files.get_filesize, Stat.get_stat, Stat.stat,
    Stat.stat_mode, Stat.stat_size, Stat.item.
  destruct (os_stat filename) as [t|e]; cbn [bind].
  - destruct IS_UPY; cbn [bind].
    + rewrite !FilesFacts.shifted_nth.
      change (0 <? 7)%nat with true. change (6 <? 7)%nat with true. cbv iota.
      destruct (nth_error t 0); destruct (nth_error t 6); split; reflexivity.
    + destruct (nth_error t 0); destruct (nth_error t 6); split; reflexivity.
  - destruct e; repeat split; reflexivity.
Qed.

Module ListdirFacts.

Local Open Scope string_scope.

Lemma mapM_Raise (A B : Type) (f : A -> result B) (l : list A) (a : A) (e : exn) :
  In a l -> f a = Raise e -> exists e', mapM f l = Raise e'.
Proof.
  induction l as [|x l IH]; simpl; [contradiction|].
  intros [->|Hin] Ha.
  - rewrite Ha. now exists e.
  - destruct (f x); cbn [bind]; [|eauto].
    destruct (IH Hin Ha) as [e' ->]. now exists e'.
Qed.

Lemma stat_entries (os_stat : string -> result (list Z)) (IS_UPY : bool)
    (path : string -> string) (files : list string) :
  forall entries,
    mapM (fun file => st <- Stat.stat os_stat IS_UPY (path file) ;;
                      Ok (file, st)) files = Ok entries ->
    map fst entries = files /\
    Forall (fun e => Stat.get_stat os_stat IS_UPY (path (fst e)) = Ok (snd e))
           entries.
Proof.
  induction files as [|file files IH]; intros entries; simpl.
  - intros [= <-]. split; [reflexivity|constructor].
  - destruct (Stat.stat os_stat IS_UPY (path file)) as [st|] eqn:Es;
      cbn [bind]; [|discriminate].
    destruct (mapM _ files) as [rest|] eqn:Er; cbn [bind]; [|discriminate].
    intros [= <-]. destruct (IH rest eq_refl) as [Hn Hs]. simpl. split.
    + now rewrite Hn.
    + constructor; [|exact Hs]. simpl. unfold Stat.get_stat. now rewrite Es.
Qed.

End ListdirFacts.

(** X6.  When [listdir_stat] returns, its entries are the names of
    [os.listdir] in the same order, each with the tuple [get_stat] gives
    for the name joined to the directory, the root directory being joined
    without a second slash.  Unlike [get_stat] it has no [try]: when
    [os.stat] raises for one of the names, the whole call raises. *)
Theorem listdir_stat_entries :
  forall (os_stat : string -> result (list Z))
         (os_listdir : string -> result (list string))
         (IS_UPY : bool) (dirname : string) (files : list string),
    os_listdir dirname = Ok files ->
    let path := fun file =>
      ((if dirname =? "/" then "" else dirname) ++ "/" ++ file)%string in
    (forall entries,
       Files.listdir_stat os_stat os_listdir IS_UPY dirname = Ok entries ->
       map fst entries = files /\
       Forall (fun e => Stat.get_stat os_stat IS_UPY (path (fst e)) = Ok (snd e))
              entries) /\
    (forall file e,
       In file files -> os_stat (path file) = Raise e ->
       exists e', Files.listdir_stat os_stat os_listdir IS_UPY dirname = Raise e').
Proof.
  intros os_stat os_listdir IS_UPY dirname files Hls path.
  assert (E : Files.listdir_stat os_stat os_listdir IS_UPY dirname =
              mapM (fun file => st <- Stat.stat os_stat IS_UPY (path file) ;;
                                Ok (file, st)) files).
  { unfold Files.listdir_stat, path. rewrite Hls.
    destruct (dirname =? "/")%string; reflexivity. }
  rewrite E. clear E. split.
  - intros entries H. now apply ListdirFacts.stat_entries.
  - intros file e Hin He.
    apply (@ListdirFacts.mapM_Raise _ _ _ files file e Hin).
    unfold Stat.stat. rewrite He. reflexivity.
Qed.

Lemma listdir_stat_entries_witness :
  let os_stat := Remove.mem_stat Remove.example_fs in
  let os_listdir := Remove.mem_listdir Remove.example_fs in
  Files.listdir_stat os_stat os_listdir false "/tmp/d" =
    Ok [("a", [0x8000; 0; 0; 0; 0; 0; 0; 0; 0; 0]%Z);
        ("b", [0x8000; 0; 0; 0; 0; 0; 0; 0; 0; 0]%Z)]%string /\
  Stat.get_stat os_stat false "/tmp/d/a" =
    Ok [0x8000; 0; 0; 0; 0; 0; 0; 0; 0; 0]%Z.
Proof.
  intros os_stat os_listdir. split; [reflexivity|].
  destruct (@listdir_stat_entries os_stat os_listdir false "/tmp/d" ["a"; "b"]%string
              eq_refl) as [H _].
  destruct (H _ eq_refl) as [_ Hall].
  inversion Hall as [|e l Ha _]. exact Ha.
Defined.

(** ** Shell commands on paths *)

Module CdFacts.

Local Open Scope string_scope.

Lemma split_root : PyStr.split "/" "/" = [""; ""].
Proof. reflexivity. Qed.

(** The components of a resolved absolute path are the folded ones. *)
Lemma rejoin_components s :
  normal 0 (PyStr.split "/" (rejoin (String "/" s))).
Proof.
  destruct (fold_absolute s) as (t & E & Hn & Hf).
  unfold rejoin. rewrite E. destruct t as [|c t].
  - simpl. repeat split; try discriminate.
  - change (List.length ("" :: c :: t) =? 1)%nat with false. cbv iota.
    unfold PyStr.join.
    change (String.concat "/" ("" :: c :: t))
      with (PyStr.join (String "/" "") ("" :: c :: t)).
    rewrite PyStrFacts.split_join; [exact Hn|discriminate|exact Hf].
Qed.

(** A resolved path is absolute and resolves to itself, whatever the
    current directory. *)
Lemma resolved_fixed expanduser cur_dir cur_dir' p r :
  PyStr.first cur_dir = Ok "/"%char ->
  resolve_path expanduser cur_dir p = Ok r ->
  PyStr.first r = Ok "/"%char /\
  resolve_path expanduser cur_dir' r = Ok r.
Proof.
  intros Habs H.
  destruct (resolve_path_shape _ _ _ H) as (q & -> & Hq).
  destruct (first_slash _ (Hq Habs)) as [s ->].
  destruct (rejoin_absolute s) as [Hfirst Hidem].
  split; [exact Hfirst|].
  destruct (first_slash _ Hfirst) as [s' Es'].
  rewrite Es' at 1. rewrite resolve_path_absolute. rewrite <- Es'.
  now rewrite Hidem.
Qed.

End CdFacts.

(** X7.  With an absolute current directory, what [resolve_path] returns
    has no ["."] component, and a [".."] component only directly below the
    root, where nothing is left to pop. *)
Theorem resolve_path_normal_form :
  forall (expanduser : string -> string) (cur_dir p r : string),
    PyStr.first cur_dir = Ok "/"%char ->
    resolve_path expanduser cur_dir p = Ok r ->
    normal 0 (PyStr.split "/" r).
Proof.
  intros expanduser cur_dir p r Habs H.
  destruct (resolve_path_shape _ _ _ H) as (q & -> & Hq).
  destruct (first_slash _ (Hq Habs)) as [s ->].
  apply CdFacts.rejoin_components.
Qed.

Lemma resolve_path_normal_form_witness :
  resolve_path (Posix.expanduser "/home/user" (fun _ => None)) "/home/user"
    "./a/../../b/./c"%string = Ok "/home/b/c"%string /\
  normal 0 (PyStr.split "/" "/home/b/c").
Proof.
  split; [reflexivity|].
  apply (@resolve_path_normal_form
           (Posix.expanduser "/home/user" (fun _ => None)) "/home/user"
           "./a/../../b/./c" "/home/b/c"); reflexivity.
Defined.

(** X8.  [do_filetype] prints one of [dir], [file] and [missing], or the
    complaint about a missing argument: a mode that exists is a directory
    or a file, so the [unknown] branch is never taken. *)
Theorem do_filetype_never_unknown :
  forall (expanduser : string -> string) (r : Registry)
         (host_stat : string -> result (list Z))
         (board_stat : Device -> string -> result (list Z))
         (line : string) (sh : Shell.dirs) (outs : list Shell.output),
    Shell.do_filetype expanduser r host_stat board_stat line sh = Ok outs ->
    (outs = [Shell.Err "Must provide a filename"] /\ line = ""%string) \/
    outs = [Shell.Out "dir"] \/
    outs = [Shell.Out "file"] \/
    outs = [Shell.Out "missing"].
Proof.
  intros expanduser r host_stat board_stat line sh outs.
  unfold Shell.do_filetype.
  destruct line as [|c line]; simpl (String.length _ =? 0)%nat; cbv iota.
  - intros [= <-]. left. split; reflexivity.
  - destruct (resolve_path _ _ _) as [filename|]; cbn [bind]; [|discriminate].
    destruct (Shell.auto_get_mode _ _ _ _) as [mode|]; cbn [bind];
      [|discriminate].
    rewrite FilesFacts.mode_exists_split.
    destruct (Stat.mode_isdir mode); simpl.
    + intros [= <-]. auto.
    + destruct (Stat.mode_isfile mode); intros [= <-]; auto.
Qed.

Lemma do_filetype_never_unknown_witness :
  Shell.do_filetype (Posix.expanduser "/home/user" (fun _ => None)) Reg.initial
    (Remove.mem_stat Remove.example_fs) (fun _ _ => Raise OSError)
    "d/a" {| Shell.cur_dir := "/tmp"; Shell.prev_dir := "/" |} =
    Ok [Shell.Out "file"] /\
  (([Shell.Out "file"] = [Shell.Err "Must provide a filename"] /\
    "d/a"%string = ""%string) \/
   [Shell.Out "file"] = [Shell.Out "dir"] \/
   [Shell.Out "file"] = [Shell.Out "file"] \/
   [Shell.Out "file"] = [Shell.Out "missing"]).
Proof.
  split; [reflexivity|].
  apply (@do_filetype_never_unknown
           (Posix.expanduser "/home/user" (fun _ => None)) Reg.initial
           (Remove.mem_stat Remove.example_fs) (fun _ _ => Raise OSError)
           "d/a" {| Shell.cur_dir := "/tmp"; Shell.prev_dir := "/" |}).
  reflexivity.
Defined.

(** X9.  [do_cd] keeps the current directory absolute.  Either it leaves
    both directories as they were, or the previous directory becomes the
    old current one and the new current directory is a path that was a
    directory when tested and that resolves to itself. *)
Theorem do_cd_keeps_cur_dir_resolved :
  forall (expanduser : string -> string) (r : Registry)
         (host_stat : string -> result (list Z))
         (board_stat : Device -> string -> result (list Z))
         (args : list string) (sh : Shell.dirs),
    PyStr.first (Shell.cur_dir sh) = Ok "/"%char ->
    let sh' := snd (Shell.do_cd expanduser r host_stat board_stat args sh) in
    PyStr.first (Shell.cur_dir sh') = Ok "/"%char /\
    (sh' = sh \/
     (Shell.prev_dir sh' = Shell.cur_dir sh /\
      resolve_path expanduser (Shell.cur_dir sh') (Shell.cur_dir sh') =
        Ok (Shell.cur_dir sh') /\
      exists mode,
        Shell.auto_get_mode r host_stat board_stat (Shell.cur_dir sh') = Ok mode /\
        Stat.mode_isdir mode = true)).
Proof.
  intros expanduser r host_stat board_stat args sh Habs. unfold Shell.do_cd.
  destruct (resolve_path _ _ _) as [dirname|] eqn:Er; simpl; [|auto].
  destruct (Shell.auto_get_mode _ _ _ _) as [mode|] eqn:Em; simpl; [|auto].
  destruct (Stat.mode_isdir mode) eqn:Ed; simpl; [|auto].
  destruct (CdFacts.resolved_fixed _ _ dirname _ Habs Er) as [Hfirst Hfix].
  split; [exact Hfirst|]. right. split; [reflexivity|]. split; [exact Hfix|].
  exists mode. now split.
Qed.

Lemma do_cd_keeps_cur_dir_resolved_witness :
  let sh := {| Shell.cur_dir := "/tmp"; Shell.prev_dir := "/" |} in
  let sh' := snd (Shell.do_cd (Posix.expanduser "/home/user" (fun _ => None))
                    Reg.initial (Remove.mem_stat Remove.example_fs)
                    (fun _ _ => Raise OSError) ["d/../d"%string] sh) in
  sh' = {| Shell.cur_dir := "/tmp/d"; Shell.prev_dir := "/tmp" |} /\
  PyStr.first (Shell.cur_dir sh') = Ok "/"%char.
Proof.
  intros sh sh'. split; [reflexivity|].
  apply (@do_cd_keeps_cur_dir_resolved
           (Posix.expanduser "/home/user" (fun _ => None)) Reg.initial
           (Remove.mem_stat Remove.example_fs) (fun _ _ => Raise OSError)
           ["d/../d"%string] sh).
  reflexivity.
Defined.

(** X10.  [cd -] goes back: after a [cd] that succeeded from a current
    directory that is absolute, resolves to itself and is still a
    directory, [cd -] makes that directory current again and the one just
    left the previous one. *)
Theorem do_cd_dash_returns :
  forall (expanduser : string -> string) (r : Registry)
         (host_stat : string -> result (list Z))
         (board_stat : Device -> string -> result (list Z))
         (args : list string) (sh sh1 : Shell.dirs) (mode : Z),
    PyStr.first (Shell.cur_dir sh) = Ok "/"%char ->
    resolve_path expanduser (Shell.cur_dir sh) (Shell.cur_dir sh) =
      Ok (Shell.cur_dir sh) ->
    Shell.auto_get_mode r host_stat board_stat (Shell.cur_dir sh) = Ok mode ->
    Stat.mode_isdir mode = true ->
    Shell.do_cd expanduser r host_stat board_stat args sh = (Ok [], sh1) ->
    Shell.do_cd expanduser r host_stat board_stat ["-"%string] sh1 =
      (Ok [], {| Shell.cur_dir := Shell.cur_dir sh;
                 Shell.prev_dir := Shell.cur_dir sh1 |}).
Proof.
  intros expanduser r host_stat board_stat args sh sh1 mode Habs Hfix Hm Hd H.
  assert (Hprev : Shell.prev_dir sh1 = Shell.cur_dir sh).
  { revert H. clear Hfix Hm Hd. unfold Shell.do_cd.
    destruct (resolve_path _ _ _) as [dirname|]; [|discriminate].
    destruct (Shell.auto_get_mode _ _ _ _) as [m|]; [|discriminate].
    destruct (Stat.mode_isdir m); [|discriminate].
    intros [= <-]. reflexivity. }
  unfold Shell.do_cd. cbn [String.eqb Ascii.eqb Bool.eqb]. cbv iota.
  rewrite Hprev.
  destruct (CdFacts.resolved_fixed _ _ (Shell.cur_dir sh1) _ Habs Hfix)
    as [_ ->].
  rewrite Hm, Hd. reflexivity.
Qed.

Lemma do_cd_dash_returns_witness :
  let e := Posix.expanduser "/home/user" (fun _ => None) in
  let st := Remove.mem_stat Remove.example_fs in
  let sh := {| Shell.cur_dir := "/tmp"; Shell.prev_dir := "/" |} in
  Shell.do_cd e Reg.initial st (fun _ _ => Raise OSError) ["d"%string] sh =
    (Ok [], {| Shell.cur_dir := "/tmp/d"; Shell.prev_dir := "/tmp" |}) /\
  Shell.do_cd e Reg.initial st (fun _ _ => Raise OSError) ["-"%string]
    {| Shell.cur_dir := "/tmp/d"; Shell.prev_dir := "/tmp" |} =
    (Ok [], {| Shell.cur_dir := "/tmp"; Shell.prev_dir := "/tmp/d" |}).
Proof.
  intros e st sh. split; [reflexivity|].
  apply (@do_cd_dash_returns e Reg.initial st (fun _ _ => Raise OSError)
           ["d"%string] sh
           {| Shell.cur_dir := "/tmp/d"; Shell.prev_dir := "/tmp" |} 0x4000%Z);
    reflexivity.
Defined.

(** ** The registry *)

Module RegistryFacts.

Import Reg.
Local Open Scope string_scope.

Lemma others_absent short devs :
  ~ In short (map dev_name_short devs) -> others short devs = devs.
Proof.
  induction devs as [|d devs IH]; simpl; intros H; [reflexivity|].
  destruct (String.eqb_spec (dev_name_short d) short) as [E|E]; simpl.
  - exfalso. apply H. now left.
  - rewrite IH; [reflexivity|]. intros Hin. apply H. now right.
Qed.

Lemma others_In short devs d :
  In d (others short devs) <-> In d devs /\ dev_name_short d <> short.
Proof.
  unfold others. rewrite filter_In, negb_true_iff.
  destruct (String.eqb_spec (dev_name_short d) short); intuition congruence.
Qed.

Lemma others_short short devs :
  ~ In short (map dev_name_short (others short devs)).
Proof.
  intros H. apply in_map_iff in H as (d & Hs & Hin).
  apply others_In in Hin as [_ Hne]. contradiction.
Qed.

(** Dropping devices keeps what is distinct among the others distinct. *)
Lemma others_NoDup (K : Type) (key : Device -> K) short devs :
  NoDup (map key devs) -> NoDup (map key (others short devs)).
Proof.
  unfold others. induction devs as [|d devs IH]; simpl; intros Hnd.
  - constructor.
  - inversion Hnd as [|? ? Hfresh Hrest]; subst.
    destruct (negb (dev_name_short d =? short)); simpl; [|auto].
    constructor; [|auto].
    intros Hin. apply Hfresh. apply in_map_iff in Hin as (x & Hx & Hin).
    apply filter_In in Hin as [Hin _]. apply in_map_iff. now exists x.
Qed.

(** With one device per short name, the loop of [add_device] drops all
    the devices of that short name, and clears the default when the one it
    drops is the default. *)
Lemma drop_same_short_spec short devs default :
  NoDup (map dev_name_short devs) ->
  drop_same_short short devs default =
    (others short devs,
     match find (fun d => dev_name_short d =? short) devs with
     | Some t => if is_default t default then None else default
     | None => default
     end).
Proof.
  induction devs as [|d devs IH]; simpl; intros H; [reflexivity|].
  inversion H as [|? ? Hnin Hnd]; subst.
  destruct (String.eqb_spec (dev_name_short d) short) as [E|E]; simpl.
  - subst short. now rewrite others_absent.
  - rewrite (IH Hnd). reflexivity.
Qed.

(** The device that [add_device] registers for [dev]: [dev] under its
    final name, mounted at that name. *)
Lemma add_device_shape r dev :
  NoDup (map dev_name_short (DEVS r)) ->
  exists dev',
    DEVS (add_device r dev) = (others (dev_name_short dev) (DEVS r) ++ [dev'])%list /\
    dev_name_short dev' = dev_name_short dev /\
    obj_id dev' = obj_id dev /\
    name_path dev' = "/" ++ name dev' ++ "/" /\
    (name dev' = name dev \/
     name dev' = name dev ++ "-" ++ decimal (DEV_IDX r)) /\
    DEFAULT_DEV (add_device r dev) =
      match match find (fun d => dev_name_short d =? dev_name_short dev) (DEVS r) with
            | Some t => if is_default t (DEFAULT_DEV r) then None else DEFAULT_DEV r
            | None => DEFAULT_DEV r
            end with
      | Some d => Some d
      | None => Some dev'
      end /\
    DEV_IDX (add_device r dev) = DEV_IDX r + 1.
Proof.
  intros Hnd. unfold add_device. rewrite drop_same_short_spec by exact Hnd.
  match goal with |- context [find_device_by_name ?r1 ?n] =>
    destruct (find_device_by_name r1 n) end.
  - eexists. split; [reflexivity|]. simpl. repeat split; auto.
  - eexists. split; [reflexivity|]. simpl. repeat split; auto.
Qed.

Lemma find_short_In short devs t :
  find (fun d => dev_name_short d =? short) devs = Some t ->
  In t devs /\ dev_name_short t = short.
Proof.
  intros H. apply find_some in H as [Hin E]. split; [exact Hin|].
  now apply String.eqb_eq.
Qed.

(** One step of the invariant: the device added is a new object, or an
    object registered under the same short name. *)
Lemma add_device_ok r dev :
  registry_ok r ->
  (forall d, In d (DEVS r) -> obj_id d = obj_id dev ->
             dev_name_short d = dev_name_short dev) ->
  registry_ok (add_device r dev).
Proof.
  intros (Hs & Hi & Hd) Hobj.
  destruct (@add_device_shape r dev Hs)
    as (dev' & EDEVS & Eshort & Eid & _ & _ & Edef & _).
  unfold registry_ok. rewrite EDEVS, Edef. repeat split.
  - rewrite map_app. simpl. apply NoDup_app. repeat split.
    + now apply others_NoDup.
    + repeat constructor. intros [].
    + intros x Hx [<-|[]]. rewrite Eshort in Hx.
      now apply others_short in Hx.
  - rewrite map_app. simpl. apply NoDup_app. repeat split.
    + now apply others_NoDup.
    + repeat constructor. intros [].
    + intros x Hx [<-|[]]. rewrite Eid in Hx.
      apply in_map_iff in Hx as (d & Ex & Hin).
      apply others_In in Hin as [Hin Hne]. apply Hne. now apply Hobj.
  - destruct (find _ (DEVS r)) as [t|] eqn:Ef.
    + apply find_short_In in Ef as [Hint Et].
      destruct (DEFAULT_DEV r) as [d|] eqn:Edd; simpl.
      * destruct (Nat.eqb_spec (obj_id d) (obj_id t)) as [E|E].
        -- apply in_or_app. right. now left.
        -- apply in_or_app. left. apply others_In. split; [exact Hd|].
           intros Es. apply E.
           assert (d = t); [|now subst].
           clear - Hs Hd Hint Es Et.
           rewrite <- Et in Es. clear Et.
           induction (DEVS r) as [|x l IH]; [contradiction|].
           simpl in Hs. inversion Hs as [|? ? Hnin Hnd]; subst.
           destruct Hd as [->|Hd], Hint as [->|Hint]; auto.
           ++ exfalso. apply Hnin. rewrite Es. now apply in_map.
           ++ exfalso. apply Hnin. rewrite <- Es. now apply in_map.
      * apply in_or_app. right. now left.
    + destruct (DEFAULT_DEV r) as [d|] eqn:Edd.
      * apply in_or_app. left. apply others_In. split; [exact Hd|].
        intros Es.
        apply (find_none _ _ Ef) in Hd. apply String.eqb_neq in Hd.
        contradiction.
      * apply in_or_app. right. now left.
Qed.

Lemma add_all_snoc r devs dev :
  add_all r (devs ++ [dev]) = add_device (add_all r devs) dev.
Proof. unfold add_all. now rewrite fold_left_app. Qed.

(** Searching a list that was appended to. *)
Lemma find_app (pred : Device -> bool) (front back : list Device) :
  find pred (front ++ back) =
  match find pred front with
  | Some x => Some x
  | None => find pred back
  end.
Proof.
  induction front as [|d front IH]; simpl; [reflexivity|].
  destruct (pred d); [reflexivity|exact IH].
Qed.

Lemma find_by_name_nonempty r nm :
  nm <> "" ->
  find_device_by_name r nm = find (fun d => name d =? nm) (DEVS r).
Proof.
  intros H. unfold find_device_by_name.
  destruct (String.eqb_spec nm ""); [contradiction|reflexivity].
Qed.

(** Two registered devices with the same short name are the same entry. *)
Lemma same_short_same devs (d t : Device) :
  NoDup (map dev_name_short devs) ->
  In d devs -> In t devs -> dev_name_short d = dev_name_short t -> d = t.
Proof.
  induction devs as [|x l IH]; [contradiction|].
  simpl. intros Hs Hd Ht Es. inversion Hs as [|? ? Hnin Hnd]; subst.
  destruct Hd as [->|Hd], Ht as [->|Ht]; auto.
  - exfalso. apply Hnin. rewrite Es. now apply in_map.
  - exfalso. apply Hnin. rewrite <- Es. now apply in_map.
Qed.

Lemma same_id_same devs (d t : Device) :
  NoDup (map obj_id devs) ->
  In d devs -> In t devs -> obj_id d = obj_id t -> d = t.
Proof.
  induction devs as [|x l IH]; [contradiction|].
  simpl. intros Hs Hd Ht Es. inversion Hs as [|? ? Hnin Hnd]; subst.
  destruct Hd as [->|Hd], Ht as [->|Ht]; auto.
  - exfalso. apply Hnin. rewrite Es. now apply in_map.
  - exfalso. apply Hnin. rewrite <- Es. now apply in_map.
Qed.

(** Devices that are new objects, added in turn to the empty registry. *)
Lemma add_all_ok devs :
  NoDup (map obj_id devs) ->
  registry_ok (add_all initial devs) /\
  (forall d, In d (DEVS (add_all initial devs)) ->
             In (obj_id d) (map obj_id devs)) /\
  (devs <> [] -> DEVS (add_all initial devs) <> []).
Proof.
  induction devs as [|dev devs IH] using rev_ind; intros Hnd.
  - simpl. repeat split; try constructor; try contradiction.
  - rewrite map_app in Hnd. simpl in Hnd.
    pose proof (NoDup_remove_2 _ _ _ Hnd) as Hfresh.
    rewrite app_nil_r in Hfresh. apply NoDup_app_remove_r in Hnd.
    destruct (IH Hnd) as (Hok & Hids & _). rewrite add_all_snoc.
    destruct (@add_device_shape (add_all initial devs) dev (proj1 Hok))
      as (dev' & EDEVS & _ & Eid & _).
    split; [|split].
    + apply add_device_ok; [exact Hok|].
      intros d Hin E. exfalso. apply Hfresh. rewrite <- E. now apply Hids.
    + intros d. rewrite EDEVS, map_app, !in_app_iff. simpl.
      intros [Hin|[<-|[]]].
      * left. apply Hids. now apply others_In in Hin.
      * right. left. now rewrite Eid.
    + intros _. rewrite EDEVS. now destruct (others _ _).
Qed.

End RegistryFacts.

(** X11.  Devices that are new objects, added one after the other to the
    empty registry, leave a registry with one device per short name and
    one entry per object, whose default device is one of the registered
    devices; there is no default only when nothing was added. *)
Theorem add_device_keeps_registry :
  forall devs : list Device,
    NoDup (map obj_id devs) ->
    let r := add_all Reg.initial devs in
    registry_ok r /\ (DEFAULT_DEV r = None <-> devs = []).
Proof.
  intros devs Hnd r.
  destruct (@RegistryFacts.add_all_ok devs Hnd) as (Hok & _ & Hne).
  split; [exact Hok|]. split.
  - intros E. destruct Hok as (_ & _ & Hd). unfold r in E. rewrite E in Hd.
    destruct devs as [|d devs]; [reflexivity|].
    exfalso. apply Hne; [discriminate|exact Hd].
  - intros ->. reflexivity.
Qed.

Lemma add_device_keeps_registry_witness :
  registry_ok registry_suffix_clash /\
  (DEFAULT_DEV registry_suffix_clash = None <->
   [Reg.new_device 1 "/dev/ttyACM0" "pyboard" [];
    Reg.new_device 2 "/dev/ttyACM1" "pyboard-3" [];
    Reg.new_device 3 "/dev/ttyACM2" "pyboard" []] = []).
Proof.
  apply (@add_device_keeps_registry
           [Reg.new_device 1 "/dev/ttyACM0" "pyboard" [];
            Reg.new_device 2 "/dev/ttyACM1" "pyboard-3" [];
            Reg.new_device 3 "/dev/ttyACM2" "pyboard" []]).
  simpl. repeat constructor; simpl; intuition discriminate.
Defined.

(** X12.  A board that connects again under a short name that is
    registered replaces the old entry: [add_device] drops the device of
    that short name and appends the new one, mounted at ["/" + name + "/"];
    the new device is the default when the registry had none or when the
    one it replaces was the default, and otherwise the default stays. *)
Theorem add_device_replaces_same_short :
  forall (r : Registry) (dev : Device),
    registry_ok r ->
    exists dev',
      DEVS (Reg.add_device r dev) =
        (others (dev_name_short dev) (DEVS r) ++ [dev'])%list /\
      ~ In (dev_name_short dev)
           (map dev_name_short (others (dev_name_short dev) (DEVS r))) /\
      dev_name_short dev' = dev_name_short dev /\
      obj_id dev' = obj_id dev /\
      name_path dev' = ("/" ++ name dev' ++ "/")%string /\
      DEFAULT_DEV (Reg.add_device r dev) =
        match DEFAULT_DEV r with
        | Some d => if (dev_name_short d =? dev_name_short dev)%string
                    then Some dev' else Some d
        | None => Some dev'
        end.
Proof.
  intros r dev (Hs & Hi & Hd).
  destruct (@RegistryFacts.add_device_shape r dev Hs)
    as (dev' & EDEVS & Eshort & Eid & Epath & _ & Edef & _).
  exists dev'. split; [exact EDEVS|].
  split; [apply RegistryFacts.others_short|].
  repeat (split; [assumption|]).
  rewrite Edef. destruct (DEFAULT_DEV r) as [d|] eqn:Edd.
  - destruct (find _ (DEVS r)) as [t|] eqn:Ef.
    + apply RegistryFacts.find_short_In in Ef as [Hint Et]. simpl.
      destruct (String.eqb_spec (dev_name_short d) (dev_name_short dev)) as [E|E].
      * assert (d = t) as ->.
        { apply (@RegistryFacts.same_short_same (DEVS r) d t Hs Hd Hint). congruence. }
        now rewrite Nat.eqb_refl.
      * destruct (Nat.eqb_spec (obj_id d) (obj_id t)) as [E'|E']; [|reflexivity].
        exfalso. apply E.
        now rewrite (@RegistryFacts.same_id_same (DEVS r) d t Hi Hd Hint E').
    + destruct (String.eqb_spec (dev_name_short d) (dev_name_short dev)) as [E|E];
        [|reflexivity].
      exfalso. apply (find_none _ _ Ef) in Hd.
      apply String.eqb_neq in Hd. contradiction.
  - rewrite Hd. reflexivity.
Qed.

Lemma add_device_replaces_same_short_witness :
  registry_ok registry_S3 /\
  map name (DEVS (Reg.add_device registry_S3
                    (Reg.new_device 3 "/dev/ttyACM0" "pyboard" []))) =
    ["esp"; "pyboard"]%string /\
  option_map obj_id
    (DEFAULT_DEV (Reg.add_device registry_S3
                    (Reg.new_device 3 "/dev/ttyACM0" "pyboard" []))) = Some 3.
Proof.
  assert (Hok : registry_ok registry_S3).
  { unfold registry_ok. simpl. repeat split.
    - repeat constructor; simpl; intuition discriminate.
    - repeat constructor; simpl; intuition discriminate.
    - now left. }
  split; [exact Hok|].
  destruct (@add_device_replaces_same_short registry_S3
              (Reg.new_device 3 "/dev/ttyACM0" "pyboard" []) Hok)
    as (dev' & _).
  split; reflexivity.
Defined.



(** ** Copying on one machine *)

Module CopyFacts.

Section Facts.

Variable BUFFER_SIZE : Z.
Variables src dst : string.
Variable content : bytes.
Variable fs0 : Copy.files.

Hypothesis distinct : src <> dst.

Lemma firstn_plus (A : Type) (n m : nat) (l : list A) :
  firstn (n + m) l = (firstn n l ++ firstn m (skipn n l))%list.
Proof.
  revert l. induction n as [|n IH]; intros l; [reflexivity|].
  destruct l as [|a l]; simpl.
  - now rewrite firstn_nil.
  - now rewrite IH.
Qed.

Lemma firstn_clip (A : Type) (n : nat) (l : list A) :
  firstn (List.length (firstn n l)) l = firstn n l.
Proof.
  rewrite length_firstn.
  destruct (Nat.le_ge_cases n (List.length l)).
  - now rewrite Nat.min_l.
  - rewrite Nat.min_r by assumption. rewrite firstn_all.
    now rewrite firstn_all2.
Qed.

Lemma copied_append pos fs buf :
  copied src dst content fs0 pos fs ->
  buf = firstn (List.length buf) (skipn pos content) ->
  copied src dst content fs0 (pos + List.length buf) (Copy.append_to fs dst buf).
Proof.
  intros (Hsrc & Hdst & Hrest) Hbuf. unfold copied, Copy.append_to.
  repeat split.
  - destruct (String.eqb_spec src dst); [contradiction|exact Hsrc].
  - rewrite String.eqb_refl, Hdst. f_equal.
    rewrite Hbuf at 1. symmetry. apply firstn_plus.
  - intros p Hp. destruct (String.eqb_spec p dst); [contradiction|auto].
Qed.

Lemma copy_loop_positive :
  (1 <= BUFFER_SIZE)%Z ->
  forall m pos fs fuel,
    List.length content - pos <= m ->
    copied src dst content fs0 pos fs ->
    m < fuel ->
    exists fs',
      Copy.copy_loop BUFFER_SIZE fuel src dst pos fs = Some fs' /\
      copied src dst content fs0 (List.length content) fs'.
Proof.
  intros Hpos. induction m as [|m IH]; intros pos fs fuel Hm Hc Hfuel;
    (destruct fuel as [|fuel]; [lia|]); cbn [Copy.copy_loop];
    pose proof Hc as (Hsrc & Hdst & Hrest); rewrite Hsrc;
    unfold Xfer.file_read;
    (destruct (Z.ltb_spec BUFFER_SIZE 0); [lia|]);
    set (buf := firstn (Z.to_nat BUFFER_SIZE) (skipn pos content));
    assert (Hlen : List.length buf =
                   Nat.min (Z.to_nat BUFFER_SIZE) (List.length content - pos))
      by (unfold buf; now rewrite length_firstn, length_skipn);
    assert (Hbuf : buf = firstn (List.length buf) (skipn pos content))
      by (unfold buf; now rewrite firstn_clip).
  - assert (E0 : List.length buf = 0) by lia.
    destruct buf; [|discriminate]. simpl.
    destruct (Z.ltb_spec 0 BUFFER_SIZE); [|lia].
    exists fs. split; [reflexivity|].
    repeat split; auto. rewrite Hdst. f_equal.
    rewrite !firstn_all2 by lia. reflexivity.
  - pose proof (copied_append Hc Hbuf) as Hc'.
    destruct (Z.ltb_spec (Z.of_nat (List.length buf)) BUFFER_SIZE) as [Hlt|Hge].
    + assert (Hend : pos + List.length buf >= List.length content) by lia.
      destruct (Z.ltb_spec 0 (Z.of_nat (List.length buf))).
      * exists (Copy.append_to fs dst buf). split; [reflexivity|].
        destruct Hc' as (H1 & H2 & H3). repeat split; auto.
        rewrite H2. now rewrite !firstn_all2 by lia.
      * exists fs. split; [reflexivity|].
        repeat split; auto. rewrite Hdst.
        rewrite !firstn_all2 by lia. reflexivity.
    + destruct (Z.ltb_spec 0 (Z.of_nat (List.length buf))); [|lia].
      apply IH; [lia|exact Hc'|lia].
Qed.

Lemma copy_loop_stuck :
  (BUFFER_SIZE <= 0)%Z ->
  forall fuel pos fs, Copy.copy_loop BUFFER_SIZE fuel src dst pos fs = None.
Proof.
  intros Hneg. induction fuel as [|fuel IH]; intros pos fs; [reflexivity|].
  cbn [Copy.copy_loop]. destruct (Xfer.file_read _ _) as [buf rest].
  destruct (Z.ltb_spec (Z.of_nat (List.length buf)) BUFFER_SIZE); [lia|].
  apply IH.
Qed.

End Facts.

End CopyFacts.

(** X14.  [copy_file] of an existing file to another path that can be
    opened for writing: with a [BUFFER_SIZE] of at least 1 it returns
    [True] and leaves at the destination exactly the bytes of the source,
    every other file being as it was; with a [BUFFER_SIZE] of 0 or less
    its loop never ends. *)
Theorem copy_file_copies :
  forall (BUFFER_SIZE : Z) (can_create : string -> bool)
         (src dst : string) (content : bytes) (fs : Copy.files),
    src <> dst ->
    fs src = Some content ->
    can_create dst = true ->
    ((1 <= BUFFER_SIZE)%Z ->
     exists fuel, forall k, exists fs',
       Copy.copy_file BUFFER_SIZE can_create (fuel + k) src dst fs =
         Some (true, fs') /\
       fs' dst = Some content /\
       forall p, p <> dst -> fs' p = fs p) /\
    ((BUFFER_SIZE <= 0)%Z ->
     forall fuel,
       Copy.copy_file BUFFER_SIZE can_create fuel src dst fs = None).
Proof.
  intros BUFFER_SIZE can_create src dst content fs Hne Hsrc Hdst. split.
  - intros Hpos. exists (S (List.length content)). intros k.
    unfold Copy.copy_file. rewrite Hsrc, Hdst.
    destruct (@CopyFacts.copy_loop_positive BUFFER_SIZE src dst content fs Hne Hpos
                (List.length content) 0 (Copy.truncate fs dst)
                (S (List.length content) + k)) as (fs' & -> & Hc).
    + lia.
    + unfold copied, Copy.truncate. repeat split.
      * destruct (String.eqb_spec src dst); [contradiction|exact Hsrc].
      * now rewrite String.eqb_refl.
      * intros p Hp. destruct (String.eqb_spec p dst); [contradiction|reflexivity].
    + lia.
    + exists fs'. destruct Hc as (_ & H2 & H3). rewrite firstn_all in H2.
      auto.
  - intros Hneg fuel. unfold Copy.copy_file. rewrite Hsrc, Hdst.
    now rewrite CopyFacts.copy_loop_stuck.
Qed.

Lemma copy_file_copies_witness :
  let fs := fun p => if String.eqb p "/tmp/a" then Some [Byte.x01; Byte.x02; Byte.x03]
                     else None in
  exists fuel, forall k, exists fs',
    Copy.copy_file 2 (fun _ => true) (fuel + k) "/tmp/a" "/tmp/b" fs =
      Some (true, fs') /\
    fs' "/tmp/b"%string = Some [Byte.x01; Byte.x02; Byte.x03] /\
    forall p, p <> "/tmp/b"%string -> fs' p = fs p.
Proof.
  intros fs.
  apply (@copy_file_copies 2 (fun _ => true) "/tmp/a" "/tmp/b"
           [Byte.x01; Byte.x02; Byte.x03] fs).
  - discriminate.
  - reflexivity.
  - reflexivity.
  - lia.
Defined.



(** ** Tables *)

Module ColsFacts.

Local Open Scope string_scope.

Lemma mapM_map (A B : Type) (f : A -> result B) (g : A -> B) (l : list A) :
  (forall a, In a l -> f a = Ok (g a)) -> mapM f l = Ok (map g l).
Proof.
  induction l as [|a l IH]; simpl; intros H; [reflexivity|].
  rewrite (H a) by now left. cbn [bind].
  rewrite IH by (intros; apply H; now right). reflexivity.
Qed.

Lemma for_each_map (A O E : Type) (body : A -> list O * option E)
    (g : A -> O) (l : list A) :
  (forall a, In a l -> body a = ([g a], None)) ->
  for_each body l = (map g l, None).
Proof.
  induction l as [|a l IH]; simpl; intros H; [reflexivity|].
  rewrite (H a) by now left.
  rewrite IH by (intros; apply H; now right). reflexivity.
Qed.

Lemma len_nonneg s : (0 <= Cols.len s)%Z.
Proof. unfold Cols.len. lia. Qed.

Lemma len_append a b : Cols.len (a ++ b) = (Cols.len a + Cols.len b)%Z.
Proof. unfold Cols.len. rewrite RouteFacts.length_append. lia. Qed.

Lemma replicate_length n s :
  String.length (Cols.replicate n s) = n * String.length s.
Proof.
  induction n as [|n IH]; simpl; [reflexivity|].
  now rewrite RouteFacts.length_append, IH.
Qed.

Lemma len_spaces n : Cols.len (Cols.mul " " n) = Z.max 0 n.
Proof.
  unfold Cols.len, Cols.mul. rewrite replicate_length. simpl. lia.
Qed.

(** [max] of a non-empty list of lengths is the greatest of them. *)
Lemma max_of_fold (l : list Z) :
  l <> [] -> Forall (fun x => (0 <= x)%Z) l ->
  Cols.max_of l = Ok (fold_right Z.max 0%Z l).
Proof.
  induction l as [|x l IH]; intros Hne Hall; [contradiction|].
  inversion Hall as [|? ? Hx Hl]; subst.
  destruct l as [|y l].
  - simpl. f_equal. lia.
  - change (Cols.max_of (x :: y :: l))
      with (m <- Cols.max_of (y :: l) ;; Ok (Z.max x m)).
    rewrite IH by (auto; discriminate). reflexivity.
Qed.

Lemma fold_max_ge (l : list Z) x : In x l -> (x <= fold_right Z.max 0 l)%Z.
Proof.
  induction l as [|y l IH]; simpl; [contradiction|].
  intros [->|Hin]; [lia|]. specialize (IH Hin). lia.
Qed.

Lemma column_width_ge rows c i :
  In (Cols.Cells c) rows ->
  (Cols.len (nth i c "") <= column_width rows i)%Z.
Proof.
  intros Hin. unfold column_width. apply fold_max_ge.
  apply in_map_iff. exists (Cols.Cells c). now split.
Qed.

Lemma item_nth (A : Type) (l : list A) (i : nat) (d : A) :
  i < List.length l -> Cols.item l i = Ok (nth i l d).
Proof.
  intros H. unfold Cols.item.
  now rewrite (nth_error_nth' l d H).
Qed.

Lemma align_cell_len f e w :
  (Cols.len e <= w)%Z -> f = "<"%char \/ f = ">"%char ->
  Cols.len (Cols.align_cell f e w) = w.
Proof.
  intros Hle [-> | ->]; unfold Cols.align_cell; simpl;
    rewrite len_append, len_spaces; lia.
Qed.

Lemma char_at_Some (s : string) i :
  i < String.length s -> exists f, String.get i s = Some f.
Proof.
  revert i. induction s as [|c s IH]; simpl; intros i Hi; [lia|].
  destruct i as [|i]; [now exists c|]. apply IH. lia.
Qed.

Section Table.

Variable fmt : string.
Variable rows : list Cols.row.

Hypothesis some_row : rows <> [].
Hypothesis fit : rows_fit fmt rows.

Lemma widths :
  mapM (fun i => lens <- mapM (Cols.cell_len i) rows ;; Cols.max_of lens)
       (seq 0 (String.length fmt)) =
  Ok (map (column_width rows) (seq 0 (String.length fmt))).
Proof.
  apply mapM_map. intros i Hi. apply in_seq in Hi.
  rewrite (@mapM_map _ _ (Cols.cell_len i)
             (fun r => match r with
                       | Cols.Sep _ => 0%Z
                       | Cols.Cells c => Cols.len (nth i c "")
                       end)).
  - cbn [bind]. apply max_of_fold.
    + destruct rows; [contradiction|discriminate].
    + apply Forall_map, Forall_forall. intros [s|c] _; [lia|apply len_nonneg].
  - intros [s|c] Hin; [reflexivity|]. unfold Cols.cell_len.
    unfold rows_fit in fit. rewrite Forall_forall in fit.
    specialize (fit _ Hin). simpl in fit.
    rewrite (@item_nth _ c i "") by lia. reflexivity.
Qed.

Lemma width_item i :
  i < String.length fmt ->
  Cols.item (map (column_width rows) (seq 0 (String.length fmt))) i =
  Ok (column_width rows i).
Proof.
  intros Hi. rewrite (@item_nth _ _ i 0%Z) by now rewrite length_map, length_seq.
  f_equal. rewrite (nth_indep _ 0%Z (column_width rows 0))
    by now rewrite length_map, length_seq.
  rewrite map_nth, seq_nth by exact Hi. reflexivity.
Qed.

(** The line of a row, cell by cell. *)
Lemma line_cells r :
  In r rows ->
  exists cells,
    Cols.line fmt (map (column_width rows) (seq 0 (String.length fmt))) r =
      Ok (PyStr.join " " cells) /\
    Forall2 (cell_ok fmt rows r) (seq 0 (String.length fmt)) cells.
Proof.
  intros Hin. destruct r as [s|c]; unfold Cols.line.
  - exists (map (fun i => Cols.mul s (column_width rows i))
                (seq 0 (String.length fmt))). split.
    + rewrite (@mapM_map _ _ _ (fun i => Cols.mul s (column_width rows i))).
      * reflexivity.
      * intros i Hi. apply in_seq in Hi. rewrite width_item by lia.
        reflexivity.
    + induction (seq 0 (String.length fmt)); simpl; constructor; auto.
      reflexivity.
  - assert (Hc : String.length fmt <= List.length c).
    { unfold rows_fit in fit. rewrite Forall_forall in fit.
      apply (fit _ Hin). }
    exists (map (fun i => Cols.align_cell
                            (match String.get i fmt with
                             | Some f => f
                             | None => " "%char
                             end)
                            (nth i c "") (column_width rows i))
                (seq 0 (String.length fmt))). split.
    + rewrite (@mapM_map _ _ _
                 (fun i => Cols.align_cell
                             (match String.get i fmt with
                              | Some f => f
                              | None => " "%char
                              end)
                             (nth i c "") (column_width rows i))).
      * reflexivity.
      * intros i Hi. apply in_seq in Hi. unfold Cols.char_at.
        destruct (@char_at_Some fmt i) as [f ->]; [lia|]. cbn [bind].
        rewrite (@item_nth _ c i "") by lia. cbn [bind].
        rewrite width_item by lia. reflexivity.
    + assert (Hall : forall i, In i (seq 0 (String.length fmt)) ->
                               i < String.length fmt)
        by (intros i Hi; apply in_seq in Hi; lia).
      induction (seq 0 (String.length fmt)) as [|i l IH]; simpl; constructor.
      * assert (Hi : i < String.length fmt) by (apply Hall; now left).
        destruct (@char_at_Some fmt i Hi) as [f Ef]. rewrite Ef.
        exists f, (nth i c ""). split; [exact Ef|].
        split; [apply nth_error_nth'; lia|]. split; [reflexivity|].
        apply align_cell_len. now apply column_width_ge.
      * apply IH. intros j Hj. apply Hall. now right.
Qed.

(** The printing loop, over the rows that remain. *)
Lemma print_rows l :
  (forall r, In r l -> In r rows) ->
  exists lines,
    for_each (fun r =>
                match Cols.line fmt (map (column_width rows)
                                         (seq 0 (String.length fmt))) r with
                | Ok l => ([l], None)
                | Raise e => ([], Some e)
                end) l = (lines, @None exn) /\
    Forall2 (fun r l => exists cells,
               l = PyStr.join " " cells /\
               Forall2 (cell_ok fmt rows r) (seq 0 (String.length fmt)) cells)
            l lines.
Proof.
  induction l as [|r l IH]; intros Hsub.
  - exists []. split; [reflexivity|constructor].
  - destruct (@line_cells r) as (cells & El & Hcells); [apply Hsub; now left|].
    destruct IH as (lines & Ef & Hall); [intros; apply Hsub; now right|].
    exists (PyStr.join " " cells :: lines). split.
    + cbn [for_each]. rewrite El, Ef. reflexivity.
    + constructor; [|exact Hall]. now exists cells.
Qed.

Lemma column_print_lines :
  exists lines,
    Cols.column_print fmt rows = (lines, None) /\
    Forall2 (fun r l => exists cells,
               l = PyStr.join " " cells /\
               Forall2 (cell_ok fmt rows r) (seq 0 (String.length fmt)) cells)
            rows lines.
Proof.
  unfold Cols.column_print. rewrite widths. apply print_rows. auto.
Qed.

End Table.

End ColsFacts.

(** X16.  [column_print] of a table that has at least one row and whose
    tuple rows have a cell for every column of the format never raises
    and prints one line per row, the cells of a line joined by single
    spaces.  Column [i] of a tuple row holds the entry aligned by
    [fmt[i]]; under [<] or [>] it is exactly as wide as the longest entry
    of that column in the table, so that the columns line up.  A
    separator row holds the separator repeated to that width. *)
Theorem column_print_aligned :
  forall (fmt : string) (rows : list Cols.row),
    rows <> [] ->
    rows_fit fmt rows ->
    exists lines,
      Cols.column_print fmt rows = (lines, None) /\
      Forall2 (fun r l => exists cells,
                 l = PyStr.join " " cells /\
                 Forall2 (cell_ok fmt rows r) (seq 0 (String.length fmt)) cells)
              rows lines.
Proof. intros fmt rows Hne Hfit. now apply ColsFacts.column_print_lines. Qed.

Lemma column_print_aligned_witness :
  Cols.column_print "<>"
    [Cols.Cells ["name"; "size"]; Cols.Sep "-";
     Cols.Cells ["boot.py"; "12"]]%string =
    (["name    size"; "------- ----"; "boot.py   12"]%string, None) /\
  exists lines,
    Cols.column_print "<>"
      [Cols.Cells ["name"; "size"]; Cols.Sep "-";
       Cols.Cells ["boot.py"; "12"]]%string = (lines, None) /\
    Forall2 (fun r l => exists cells,
               l = PyStr.join " " cells /\
               Forall2 (cell_ok "<>"
                          [Cols.Cells ["name"; "size"]; Cols.Sep "-";
                           Cols.Cells ["boot.py"; "12"]]%string r)
                       (seq 0 2) cells)
            [Cols.Cells ["name"; "size"]; Cols.Sep "-";
             Cols.Cells ["boot.py"; "12"]]%string lines.
Proof.
  split; [reflexivity|].
  apply (@column_print_aligned "<>"
           [Cols.Cells ["name"; "size"]; Cols.Sep "-";
            Cols.Cells ["boot.py"; "12"]]%string).
  - discriminate.
  - repeat constructor.
Defined.

(** X17.  [do_boards] never raises.  With no device registered it prints
    [No boards connected]; otherwise it prints one line per registered
    device, in registry order: the name and the short name after ["@ "],
    each padded on the right to the longest of its column, and then the
    status, [closed] for a device whose port was closed and [connected]
    otherwise, without padding. *)
Theorem do_boards_lines :
  forall r : Registry,
    let rows := map (fun dev => Cols.Cells [name dev;
                                            ("@ " ++ dev_name_short dev)%string;
                                            Shell.status dev]) (DEVS r) in
    exists lines,
      Shell.do_boards r = (lines, None) /\
      (DEVS r = [] -> lines = ["No boards connected"%string]) /\
      (DEVS r <> [] ->
       Forall2 (fun dev l =>
                  exists a b,
                    l = (a ++ " " ++ b ++ " " ++
                         (match pyb dev with Some _ => "connected" | None => "closed" end))%string /\
                    a = (name dev ++
                         Cols.mul " " (column_width rows 0 - Cols.len (name dev)))%string /\
                    Cols.len a = column_width rows 0 /\
                    b = ("@ " ++ dev_name_short dev ++
                         Cols.mul " " (column_width rows 1 -
                                       Cols.len ("@ " ++ dev_name_short dev)))%string /\
                    Cols.len b = column_width rows 1)
               (DEVS r) lines).
Proof.
  intros r rows.
  assert (Hgen : forall (rs : list Cols.row) (l : list Device) (lines : list string),
    Forall2 (fun r l => exists cells,
               l = PyStr.join " " cells /\
               Forall2 (cell_ok "<< " rs r) [0; 1; 2] cells)
            (map (fun dev => Cols.Cells [name dev;
                                         ("@ " ++ dev_name_short dev)%string;
                                         Shell.status dev]) l) lines ->
    Forall2 (fun dev l =>
               exists a b,
                 l = (a ++ " " ++ b ++ " " ++
                      (match pyb dev with Some _ => "connected" | None => "closed" end))%string /\
                 a = (name dev ++
                      Cols.mul " " (column_width rs 0 - Cols.len (name dev)))%string /\
                 Cols.len a = column_width rs 0 /\
                 b = ("@ " ++ dev_name_short dev ++
                      Cols.mul " " (column_width rs 1 -
                                    Cols.len ("@ " ++ dev_name_short dev)))%string /\
                 Cols.len b = column_width rs 1)
            l lines).
  { intros rs. induction l as [|dev l IH]; intros lines Hall; simpl in Hall;
      inversion Hall as [|? l0 ? ls (cells & El & Hcells) Hrest]; subst;
      constructor; [|now apply IH].
    inversion Hcells as [|? a ? cs1 Ha H1]; subst.
    inversion H1 as [|? b ? cs2 Hb H2]; subst.
    inversion H2 as [|? c ? cs3 Hc H3]; subst.
    inversion H3; subst.
    destruct Ha as (fa & ea & Efa & Eea & -> & Hla).
    destruct Hb as (fb & eb & Efb & Eeb & -> & Hlb).
    destruct Hc as (fc & ec & Efc & Eec & -> & _).
    simpl in Efa, Efb, Efc, Eea, Eeb, Eec.
    injection Efa as <-. injection Efb as <-. injection Efc as <-.
    injection Eea as <-. injection Eeb as <-. injection Eec as <-.
    eexists _, _. split; [|split; [reflexivity|split; [now apply Hla; left|
      split; [|now apply Hlb; left]]]].
    + unfold PyStr.join. cbn [String.concat]. unfold Shell.status.
      unfold Cols.align_cell at 3. simpl (Ascii.eqb _ _). cbv iota.
      destruct (pyb dev); reflexivity.
    + unfold Cols.align_cell. simpl (Ascii.eqb _ _). cbv iota.
      now rewrite <- RouteFacts.app_assoc_s. }
  unfold Shell.do_boards. fold rows.
  destruct (DEVS r) as [|d devs] eqn:Edevs.
  - exists ["No boards connected"%string]. simpl. repeat split; auto.
    intros H. now contradiction H.
  - assert (Hne : rows <> []) by (unfold rows; discriminate).
    assert (Hfit : rows_fit "<< " rows).
    { unfold rows_fit, rows. apply Forall_map, Forall_forall.
      intros dev _. simpl. lia. }
    destruct (@ColsFacts.column_print_lines "<< " rows Hne Hfit)
      as (lines & E & Hall).
    exists lines. replace (match rows with [] => _ | _ :: _ => _ end)
      with (Cols.column_print "<< " rows)
      by (unfold rows; reflexivity).
    split; [exact E|]. split; [discriminate|]. intros _.
    apply Hgen. exact Hall.
Qed.

(** ** Columns of file names *)

(** X18.  With the colour codes of the program, or with the empty ones of
    [--nocolor], [word_len] of a decorated file name is the number of
    characters that show: the length of the name, and one more for the
    slash that marks a directory.  The name is not empty and does not
    itself begin with the escape character. *)
Theorem word_len_of_decorated_filename :
  forall (DIR_COLOR PY_COLOR END_COLOR : string)
         (c : ascii) (rest : string) (stat : list Z) (mode : Z),
    (DIR_COLOR = Cols.LT_CYAN /\ PY_COLOR = Cols.DK_GREEN /\
     END_COLOR = Cols.NO_COLOR) \/
    (DIR_COLOR = ""%string /\ PY_COLOR = ""%string /\ END_COLOR = ""%string) ->
    c <> Cols.ESC ->
    Stat.item stat 0 = Ok mode ->
    exists word,
      Cols.decorated_filename DIR_COLOR PY_COLOR END_COLOR (String c rest) stat =
        Ok word /\
      Cols.word_len word =
        Ok (Cols.len (String c rest) +
            (if Stat.mode_isdir mode then 1 else 0))%Z.
Proof.
  intros DIR_COLOR PY_COLOR END_COLOR c rest stat mode Hcol Hc Hmode.
  unfold Cols.decorated_filename. rewrite Hmode. cbn [bind].
  assert (Hplain : Cols.word_len (String c rest) = Ok (Cols.len (String c rest))).
  { unfold Cols.word_len. simpl. destruct (Ascii.eqb_spec c Cols.ESC);
      [contradiction|reflexivity]. }
  destruct Hcol as [(-> & -> & ->)|(-> & -> & ->)];
    destruct (Stat.mode_isdir mode); cbv iota;
    try match goal with
        | |- context [Cols.endswith ?a ?b] => destruct (Cols.endswith a b)
        end;
    eexists; (split; [reflexivity|]).
  - unfold Cols.word_len.
    erewrite PyStrFacts.first_append by (unfold Cols.LT_CYAN; reflexivity).
    cbn [bind]. rewrite Ascii.eqb_refl. f_equal.
    rewrite !ColsFacts.len_append.
    change (Cols.len Cols.LT_CYAN) with 7%Z.
    change (Cols.len Cols.NO_COLOR) with 4%Z.
    change (Cols.len "/") with 1%Z. lia.
  - unfold Cols.word_len.
    erewrite PyStrFacts.first_append by (unfold Cols.DK_GREEN; reflexivity).
    cbn [bind]. rewrite Ascii.eqb_refl. f_equal.
    rewrite !ColsFacts.len_append.
    change (Cols.len Cols.DK_GREEN) with 7%Z.
    change (Cols.len Cols.NO_COLOR) with 4%Z. lia.
  - rewrite Hplain. f_equal; lia.
  - cbn [String.append]. unfold Cols.word_len. cbn [PyStr.first bind].
    destruct (Ascii.eqb_spec c Cols.ESC); [contradiction|].
    f_equal. unfold Cols.len. cbn [String.length].
    rewrite RouteFacts.length_append. simpl. lia.
  - cbn [String.append]. rewrite RouteFacts.app_nil_s, Hplain. f_equal; lia.
  - rewrite Hplain. f_equal; lia.
Qed.

Lemma word_len_of_decorated_filename_witness :
  exists word,
    Cols.decorated_filename Cols.LT_CYAN Cols.DK_GREEN Cols.NO_COLOR
      "lib" [0x4000; 0; 0; 0; 0; 0; 0; 0; 0; 0]%Z = Ok word /\
    Cols.word_len word = Ok 4%Z.
Proof.
  apply (@word_len_of_decorated_filename Cols.LT_CYAN Cols.DK_GREEN Cols.NO_COLOR
           "l"%char "ib" [0x4000; 0; 0; 0; 0; 0; 0; 0; 0; 0]%Z 0x4000%Z).
  - left. repeat split.
  - discriminate.
  - reflexivity.
Defined.

Module PrintColsFacts.

Local Open Scope string_scope.

Lemma for_each_flat (A O E : Type) (body : A -> list O * option E)
    (h : A -> list O) (l : list A) :
  (forall a, In a l -> body a = (h a, None)) ->
  for_each body l = (flat_map h l, None).
Proof.
  induction l as [|a l IH]; simpl; intros H; [reflexivity|].
  rewrite (H a) by now left.
  rewrite IH by (intros; apply H; now right). reflexivity.
Qed.

(** *** The index ranges *)

Lemma range_count r n R k :
  0 < R -> (k < (n - r + (R - 1)) / R <-> r + k * R < n).
Proof.
  intros HR. split; intros H.
  - destruct (Nat.lt_ge_cases (r + k * R) n) as [|Hge]; [assumption|exfalso].
    assert (Hle : (n - r + (R - 1)) / R <= k); [|lia].
    apply Nat.lt_succ_r. apply Nat.Div0.div_lt_upper_bound. nia.
  - change (S k <= (n - r + (R - 1)) / R).
    apply Nat.div_le_lower_bound; [lia|]. nia.
Qed.

Lemma in_range r n R i :
  0 < R ->
  (In i (Cols.py_range r n R) <-> exists k, i = r + k * R /\ i < n).
Proof.
  intros HR. unfold Cols.py_range. rewrite in_map_iff. split.
  - intros (k & <- & Hk). apply in_seq in Hk. exists k. split; [reflexivity|].
    apply range_count; [assumption|lia].
  - intros (k & -> & Hk). exists k. split; [reflexivity|].
    apply in_seq. apply range_count in Hk; [lia|assumption].
Qed.

Lemma range_NoDup r n R : 0 < R -> NoDup (Cols.py_range r n R).
Proof.
  intros HR. unfold Cols.py_range. apply Injective_map_NoDup; [|apply seq_NoDup].
  intros a b H. nia.
Qed.

Lemma flat_map_NoDup (A B : Type) (f : A -> list B) (l : list A) :
  NoDup l ->
  (forall a, In a l -> NoDup (f a)) ->
  (forall a b x, In a l -> In b l -> In x (f a) -> In x (f b) -> a = b) ->
  NoDup (flat_map f l).
Proof.
  induction l as [|a l IH]; simpl; intros Hl Hf Hdis; [constructor|].
  inversion Hl as [|? ? Hnin Hnd]; subst.
  apply NoDup_app.
  - apply Hf. now left.
  - apply IH; auto. intros b c x Hb Hc. apply Hdis; now right.
  - intros x Hx Hx'. apply in_flat_map in Hx' as (b & Hb & Hxb).
    assert (a = b)
      by (apply (Hdis a b x); [now left|now right|assumption|assumption]).
    subst. contradiction.
Qed.

(** The rows of [print_cols] visit every index below [n] once. *)
Lemma rows_permutation n R :
  0 < R ->
  Permutation.Permutation
    (flat_map (fun row => Cols.py_range row n R) (seq 0 R)) (seq 0 n).
Proof.
  intros HR. apply Permutation.NoDup_Permutation.
  - apply flat_map_NoDup.
    + apply seq_NoDup.
    + intros. now apply range_NoDup.
    + intros a b x Ha Hb Hxa Hxb. apply in_seq in Ha, Hb.
      apply in_range in Hxa as (k & -> & _); [|assumption].
      apply in_range in Hxb as (k' & E & _); [|assumption].
      assert (Ea : (a + k * R) mod R = a)
        by (rewrite Nat.Div0.mod_add; apply Nat.mod_small; lia).
      assert (Eb : (b + k' * R) mod R = b)
        by (rewrite Nat.Div0.mod_add; apply Nat.mod_small; lia).
      congruence.
  - apply seq_NoDup.
  - intros i. rewrite in_flat_map, in_seq. split.
    + intros (row & Hrow & Hi). apply in_range in Hi as (k & -> & Hk);
        [lia|assumption].
    + intros Hi. exists (i mod R). split.
      * apply in_seq. pose proof (Nat.mod_upper_bound i R). lia.
      * apply in_range; [assumption|]. exists (i / R). split; [|lia].
        pose proof (Nat.div_mod_eq i R). lia.
Qed.

Lemma flat_map_map (A B C : Type) (f : A -> list B) (g : B -> C) (l : list A) :
  flat_map (fun a => map g (f a)) l = map g (flat_map f l).
Proof.
  induction l as [|a l IH]; simpl; [reflexivity|].
  now rewrite map_app, IH.
Qed.

Lemma mapM_Forall2 (A B : Type) (f : A -> result B) (l : list A) (bs : list B) :
  mapM f l = Ok bs -> Forall2 (fun a b => f a = Ok b) l bs.
Proof.
  revert bs. induction l as [|a l IH]; intros bs; simpl.
  - intros [= <-]. constructor.
  - destruct (f a) as [b|e] eqn:Ea; cbn [bind]; [|discriminate].
    destruct (mapM f l) as [bs'|e] eqn:El; cbn [bind]; [|discriminate].
    intros [= <-]. constructor; [exact Ea|]. now apply IH.
Qed.

Lemma max_of_ge (l : list Z) m x :
  Cols.max_of l = Ok m -> In x l -> (x <= m)%Z.
Proof.
  revert m. induction l as [|y l IH]; intros m; [discriminate|].
  destruct l as [|z l].
  - simpl. intros [= <-] [->|[]]. lia.
  - change (Cols.max_of (y :: z :: l))
      with (m' <- Cols.max_of (z :: l) ;; Ok (Z.max y m')).
    destruct (Cols.max_of (z :: l)) as [m'|]; cbn [bind]; [|discriminate].
    intros [= <-] [->|Hin]; [lia|]. specialize (IH m' eq_refl Hin). lia.
Qed.

Lemma Forall2_nth (A B : Type) (P : A -> B -> Prop) (l : list A) (l' : list B)
    (i : nat) (d : A) :
  Forall2 P l l' -> i < List.length l -> exists b, In b l' /\ P (nth i l d) b.
Proof.
  intros H. revert i. induction H as [|a b l l' Hab _ IH]; intros i Hi;
    [simpl in Hi; lia|].
  destruct i as [|i].
  - exists b. split; [now left|exact Hab].
  - destruct (IH i) as (b' & Hin & Hb); [simpl in Hi; lia|].
    exists b'. split; [now right|exact Hb].
Qed.

(** *** Lines *)

Lemma lines_row front (last : string * string) rest cur :
  Forall (fun c => snd c <> Cols.NL) front ->
  snd last = Cols.NL ->
  lines_of (front ++ last :: rest) cur =
  (cur ++ map fst front ++ [fst last])%list :: lines_of rest [].
Proof.
  revert cur. induction front as [|[t e] front IH]; intros cur Hf Hl.
  - destruct last as [t e]. simpl in *. subst e.
    now rewrite String.eqb_refl.
  - inversion Hf as [|? ? He Hf']; subst. simpl in He. cbn [app lines_of].
    destruct (String.eqb_spec e Cols.NL); [contradiction|].
    rewrite IH by assumption. cbn [map fst]. now rewrite <- app_assoc.
Qed.

Section Layout.

Variable words : list string.
Variable termwidth width : Z.

Hypothesis measured :
  (lens <- mapM Cols.word_len words ;; Cols.max_of lens) = Ok width.
Hypothesis nonzero : width <> (-1)%Z.

Lemma word_lens :
  exists lens,
    Forall2 (fun w l => Cols.word_len w = Ok l) words lens /\
    Cols.max_of lens = Ok width.
Proof.
  destruct (mapM Cols.word_len words) as [lens|] eqn:E;
    cbn [bind] in measured; [|discriminate].
  exists lens. split; [now apply mapM_Forall2|exact measured].
Qed.

Lemma some_word : 0 < List.length words.
Proof.
  destruct word_lens as (lens & Hall & Hmax).
  destruct Hall; [discriminate|]. simpl. lia.
Qed.

Lemma word_at i :
  i < List.length words ->
  exists c l,
    PyStr.first (nth i words "") = Ok c /\
    Cols.word_len (nth i words "") = Ok l /\ (l <= width)%Z.
Proof.
  intros Hi. destruct word_lens as (lens & Hall & Hmax).
  destruct (@Forall2_nth _ _ _ words lens i "" Hall Hi) as (l & Hin & Hl).
  pose proof Hl as Hl'. unfold Cols.word_len in Hl'.
  destruct (PyStr.first (nth i words "")) as [c|]; [|discriminate].
  exists c, l. split; [reflexivity|]. split; [exact Hl|].
  now apply (@max_of_ge lens width l).
Qed.

Lemma ncols_pos : (1 <= cols_ncols termwidth width)%Z.
Proof. unfold cols_ncols. lia. Qed.

Lemma nrows_spec :
  let R := cols_nrows (List.length words) termwidth width in
  0 < R /\ R <= List.length words /\
  (Z.of_nat (List.length words) <= cols_ncols termwidth width * Z.of_nat R)%Z.
Proof.
  intros R. pose proof some_word as Hn. pose proof ncols_pos as HC.
  unfold R, cols_nrows.
  set (C := cols_ncols termwidth width) in *.
  set (n := Z.of_nat (List.length words)).
  assert (Hn' : (1 <= n)%Z) by (unfold n; lia).
  assert (H1 : (1 <= (n + C - 1) / C)%Z)
    by (apply Z.div_le_lower_bound; lia).
  assert (H2 : ((n + C - 1) / C < n + 1)%Z)
    by (apply Z.div_lt_upper_bound; nia).
  assert (H3 : (n <= C * ((n + C - 1) / C))%Z).
  { pose proof (Z.div_mod (n + C - 1) C ltac:(lia)) as Hdm.
    pose proof (Z.mod_pos_bound (n + C - 1) C ltac:(lia)). lia. }
  repeat split.
  - lia.
  - lia.
  - rewrite Z2Nat.id by lia. exact H3.
Qed.

(** The calls of [print_cols], row by row. *)
Lemma print_cols_calls :
  let R := cols_nrows (List.length words) termwidth width in
  Cols.print_cols words termwidth =
    (map (cols_cell words width R)
         (flat_map (fun row => Cols.py_range row (List.length words) R)
                   (seq 0 R)), None).
Proof.
  intros R. destruct nrows_spec as (HR & _ & _). fold R in HR.
  unfold Cols.print_cols. rewrite measured.
  destruct (Z.eqb_spec (width + 1) 0) as [E|_]; [exfalso; lia|].
  fold (cols_ncols termwidth width).
  fold (cols_nrows (List.length words) termwidth width). fold R.
  rewrite <- flat_map_map. apply for_each_flat. intros row _.
  apply ColsFacts.for_each_map. intros i Hi.
  apply in_range in Hi as (k & -> & Hk); [|exact HR].
  destruct (@word_at (row + k * R) Hk) as (c & l & Hc & _).
  rewrite (@ColsFacts.item_nth _ words (row + k * R) "") by exact Hk.
  unfold cols_cell. rewrite Hc.
  destruct (Ascii.eqb c Cols.ESC); reflexivity.
Qed.

(** Every cell shows [width] characters. *)
Lemma cell_width i :
  i < List.length words ->
  forall R, Cols.word_len (fst (cols_cell words width R i)) = Ok width.
Proof.
  intros Hi R. destruct (word_at Hi) as (c & l & Hc & Hl & Hle).
  unfold cols_cell. cbn [fst]. rewrite Hc.
  unfold Cols.word_len in Hl |- *. rewrite Hc in Hl. cbn [bind] in Hl.
  unfold Cols.ljust.
  rewrite (PyStrFacts.first_append _ _ Hc). cbn [bind].
  pose proof (ColsFacts.len_nonneg (nth i words "")).
  destruct (Ascii.eqb c Cols.ESC); injection Hl as <-; f_equal;
    rewrite ColsFacts.len_append, ColsFacts.len_spaces; lia.
Qed.

(** The cells of one row make up one line. *)
Lemma row_line row rest :
  let n := List.length words in
  let R := cols_nrows n termwidth width in
  row < R ->
  lines_of (map (cols_cell words width R) (Cols.py_range row n R) ++ rest) [] =
  map (fun i => fst (cols_cell words width R i)) (Cols.py_range row n R)
  :: lines_of rest [].
Proof.
  intros n R Hrow. destruct nrows_spec as (HR & HRn & _). fold n R in HR, HRn.
  unfold Cols.py_range.
  assert (HK : 0 < (n - row + (R - 1)) / R)
    by (apply range_count; [exact HR|lia]).
  destruct ((n - row + (R - 1)) / R) as [|K] eqn:EK; [lia|].
  rewrite seq_S, !map_app. cbn [map app Nat.add]. rewrite <- app_assoc.
  cbn [app]. rewrite lines_row.
  - cbn [app]. now rewrite map_map.
  - apply Forall_forall. intros call Hin.
    apply in_map_iff in Hin as (i & <- & Hin).
    apply in_map_iff in Hin as (k & <- & Hk). apply in_seq in Hk.
    unfold cols_cell. cbn [snd]. fold n.
    assert (Hlt : row + S k * R < n)
      by (apply range_count; [exact HR|lia]).
    destruct (Nat.leb_spec n (row + k * R + R)); [simpl in Hlt; lia|].
    discriminate.
  - unfold cols_cell. cbn [snd]. fold n.
    assert (Hge : ~ row + S K * R < n).
    { intros Hlt. apply range_count in Hlt; [lia|exact HR]. }
    destruct (Nat.leb_spec n (row + K * R + R)); [reflexivity|].
    simpl in Hge. lia.
Qed.

Lemma rows_lines (rows : list nat) :
  let n := List.length words in
  let R := cols_nrows n termwidth width in
  (forall row, In row rows -> row < R) ->
  lines_of (map (cols_cell words width R)
                (flat_map (fun row => Cols.py_range row n R) rows)) [] =
  map (fun row => map (fun i => fst (cols_cell words width R i))
                      (Cols.py_range row n R)) rows.
Proof.
  intros n R. induction rows as [|row rows IH]; intros Hrows; [reflexivity|].
  cbn [flat_map map]. rewrite map_app.
  unfold n, R. rewrite row_line by (apply Hrows; now left).
  fold n R. rewrite IH by (intros; apply Hrows; now right). reflexivity.
Qed.

(** A row has at most [ncols] cells. *)
Lemma row_length row :
  let n := List.length words in
  let R := cols_nrows n termwidth width in
  row < R ->
  0 < List.length (Cols.py_range row n R) /\
  (Z.of_nat (List.length (Cols.py_range row n R))
   <= cols_ncols termwidth width)%Z.
Proof.
  intros n R Hrow. destruct nrows_spec as (HR & HRn & Hcover).
  fold n R in HR, HRn, Hcover.
  unfold Cols.py_range. rewrite length_map, length_seq. split.
  - apply range_count; [exact HR|lia].
  - pose proof ncols_pos as HC.
    set (C := cols_ncols termwidth width) in *.
    assert (H : (n - row + (R - 1)) / R < S (Z.to_nat C)); [|lia].
    apply Nat.Div0.div_lt_upper_bound.
    assert (n <= Z.to_nat C * R) by nia. nia.
Qed.

End Layout.

End PrintColsFacts.

(** X19.  [print_cols] of a non-empty list of non-empty words (so that the
    widest word can be measured, and is not of width -1) never raises and
    prints every word exactly once, followed only by padding spaces.  The
    words are laid out down the columns: row [r] of [nrows] holds the
    words at indices [r], [r + nrows], [r + 2 nrows], ... *)
Theorem print_cols_prints_each_word_once :
  forall (words : list string) (termwidth width : Z),
    (lens <- mapM Cols.word_len words ;; Cols.max_of lens) = Ok width ->
    width <> (-1)%Z ->
    exists (calls : list (string * string)) (idxs : list nat) (nrows : nat),
      Cols.print_cols words termwidth = (calls, None) /\
      0 < nrows /\
      idxs = flat_map (fun row => Cols.py_range row (List.length words) nrows)
                      (seq 0 nrows) /\
      Permutation.Permutation idxs (seq 0 (List.length words)) /\
      Forall2 (fun i call =>
                 exists word k,
                   nth_error words i = Some word /\
                   fst call = (word ++ Cols.mul " " k)%string)
              idxs calls.
Proof.
  intros words termwidth width Hw Hz.
  pose proof (@PrintColsFacts.print_cols_calls words termwidth width Hw Hz) as Hcalls.
  destruct (@PrintColsFacts.nrows_spec words termwidth width Hw) as (HR & _ & _).
  cbv zeta in Hcalls.
  set (R := cols_nrows (List.length words) termwidth width) in *.
  pose proof (@PrintColsFacts.rows_permutation (List.length words) R HR) as Hperm.
  eexists _, _, R. split; [exact Hcalls|].
  split; [exact HR|]. split; [reflexivity|]. split; [exact Hperm|].
  assert (Hall : forall i,
            In i (flat_map (fun row => Cols.py_range row (List.length words) R)
                           (seq 0 R)) -> i < List.length words).
  { intros i Hi. apply (Permutation.Permutation_in _ Hperm) in Hi.
    apply in_seq in Hi. lia. }
  clear Hperm Hcalls. revert Hall.
  generalize (flat_map (fun row => Cols.py_range row (List.length words) R)
                       (seq 0 R)) as l.
  induction l as [|i l IH]; intros Hall; simpl; constructor.
  - exists (nth i words ""%string). eexists. split.
    + apply nth_error_nth'. apply Hall. now left.
    + unfold cols_cell, Cols.ljust. cbn [fst]. reflexivity.
  - apply IH. intros j Hj. apply Hall. now right.
Qed.

Lemma print_cols_prints_each_word_once_witness :
  Cols.print_cols ["a"; "bb"; "c"; "d"; "e"]%string 8 =
    ([("a ", " "); ("c ", " "); ("e ", Cols.NL);
      ("bb", " "); ("d ", Cols.NL)]%string, None) /\
  exists (calls : list (string * string)) (idxs : list nat) (nrows : nat),
    Cols.print_cols ["a"; "bb"; "c"; "d"; "e"]%string 8 = (calls, None) /\
    0 < nrows /\
    idxs = flat_map (fun row => Cols.py_range row 5 nrows) (seq 0 nrows) /\
    Permutation.Permutation idxs (seq 0 5) /\
    Forall2 (fun i call =>
               exists word k,
                 nth_error ["a"; "bb"; "c"; "d"; "e"]%string i = Some word /\
                 fst call = (word ++ Cols.mul " " k)%string)
            idxs calls.
Proof.
  split; [reflexivity|].
  apply (@print_cols_prints_each_word_once
           ["a"; "bb"; "c"; "d"; "e"]%string 8 2).
  - reflexivity.
  - discriminate.
Defined.



(** ** Transfers that cannot finish *)

Module StallFacts.

Import Xfer.

Lemma deliver_none n sch : (0 < n)%Z -> deliver n [] sch = None.
Proof.
  intros H. unfold deliver. destruct (Z.leb_spec n 0); [lia|reflexivity].
Qed.

Section Starve.

Variable HAS_BUFFER : bool.
Variable BUFFER_SIZE : Z.

(** The inner loop of [recv_file_from_host] with fewer bytes on the line
    than the chunk it waits for: it takes what there is, piece by piece,
    and then blocks, with the sender blocked on the ACK. *)
Lemma br_inner_starves n :
  forall rest R wbuf sch a m k brr rs brem bidx dst,
    List.length rest <= n ->
    hs_step HAS_BUFFER BUFFER_SIZE a = Recv m k -> (1 <= m)%Z ->
    br_step HAS_BUFFER BUFFER_SIZE R =
      br_inner HAS_BUFFER BUFFER_SIZE brr rs brem bidx wbuf dst ->
    (Z.of_nat (List.length rest) < brem)%Z ->
    (1 <= brr)%Z -> (1 <= BUFFER_SIZE)%Z ->
    exists j s',
      steps (hs_step HAS_BUFFER BUFFER_SIZE) (br_step HAS_BUFFER BUFFER_SIZE) j
            (quiet a R rest [] sch) = s' /\
      sys_step (hs_step HAS_BUFFER BUFFER_SIZE) (br_step HAS_BUFFER BUFFER_SIZE) s'
        = None /\
      verdict (hs_step HAS_BUFFER BUFFER_SIZE) (br_step HAS_BUFFER BUFFER_SIZE) s'
        = Stalled.
Proof.
  induction n as [|n IH];
    intros rest R wbuf sch a m k brr rs brem bidx dst Hn Ha Hm HR Hrem Hbrr Hbs.
  - destruct rest; [|simpl in Hn; lia]. simpl in Hrem.
    exists 0, (quiet a R [] [] sch). split; [reflexivity|]. split.
    + unfold sys_step, receiver_step, quiet. cbn.
      rewrite Ha, AckFacts.deliver_empty by lia. cbn.
      rewrite HR. unfold br_inner.
      destruct (Z.gtb_spec brem 0); [|lia].
      rewrite deliver_none by lia. reflexivity.
    + unfold verdict, quiet. cbn. now rewrite Ha.
  - destruct rest as [|b rest0].
    + apply (IH [] R wbuf sch a m k brr rs brem bidx dst); auto. simpl. lia.
    + set (rest := b :: rest0) in *.
      assert (Hlen : 1 <= List.length rest) by (unfold rest; simpl; lia).
      destruct (@RunFacts.deliver_some
                  (Z.min brr (Z.max 0 BUFFER_SIZE)) rest sch)
        as (p & Hp & Hpn & Hd); [lia|unfold rest; discriminate|].
      set (piece := firstn p rest) in *.
      assert (Hpl : List.length piece = p)
        by (unfold piece; rewrite length_firstn; lia).
      set (wbuf1 := slice_assign wbuf bidx
                      (Z.of_nat (List.length piece))
                      (slice piece 0 (Z.of_nat (List.length piece)))).
      destruct (IH (skipn p rest)
                   (BR_inner brr rs (brem - Z.of_nat (List.length piece))%Z
                      (bidx + Z.of_nat (List.length piece))%Z wbuf1 dst)
                   wbuf1 (tl sch) a m k brr rs
                   (brem - Z.of_nat (List.length piece))%Z
                   (bidx + Z.of_nat (List.length piece))%Z dst)
        as (j & s' & Hsteps & Hend & Hverdict);
        [rewrite length_skipn; lia | exact Ha | exact Hm | reflexivity
        | rewrite length_skipn, Hpl; lia | exact Hbrr | exact Hbs | ].
      exists (S j), s'. split; [|now split].
      change (S j) with (1 + j). rewrite RunFacts.steps_add.
      erewrite RunFacts.steps_one.
      2:{ eapply PairFacts.receiver_receives; eauto.
          rewrite HR. unfold br_inner.
          destruct (Z.gtb_spec brem 0); [|lia].
          reflexivity. }
      cbv beta. fold piece.
      destruct (Z.gtb_spec (Z.of_nat (List.length piece)) 0); [|lia].
      fold wbuf1. exact Hsteps.
Qed.

(** The same for [recv_file_from_remote], whose reads ask for what the
    chunk still lacks. *)
Lemma hr_inner_starves n :
  forall rest R wbuf sch a m k brr rs brem bidx dst,
    List.length rest <= n ->
    bs_step HAS_BUFFER BUFFER_SIZE a = Recv m k -> (1 <= m)%Z ->
    hr_step HAS_BUFFER BUFFER_SIZE R =
      hr_inner HAS_BUFFER brr rs brem bidx wbuf dst ->
    (Z.of_nat (List.length rest) < brem)%Z ->
    exists j s',
      steps (bs_step HAS_BUFFER BUFFER_SIZE) (hr_step HAS_BUFFER BUFFER_SIZE) j
            (quiet a R rest [] sch) = s' /\
      sys_step (bs_step HAS_BUFFER BUFFER_SIZE) (hr_step HAS_BUFFER BUFFER_SIZE) s'
        = None /\
      verdict (bs_step HAS_BUFFER BUFFER_SIZE) (hr_step HAS_BUFFER BUFFER_SIZE) s'
        = Stalled.
Proof.
  induction n as [|n IH];
    intros rest R wbuf sch a m k brr rs brem bidx dst Hn Ha Hm HR Hrem.
  - destruct rest; [|simpl in Hn; lia]. simpl in Hrem.
    exists 0, (quiet a R [] [] sch). split; [reflexivity|]. split.
    + unfold sys_step, receiver_step, quiet. cbn.
      rewrite Ha, AckFacts.deliver_empty by lia. cbn.
      rewrite HR. unfold hr_inner.
      destruct (Z.gtb_spec brem 0); [|lia].
      rewrite deliver_none by lia. reflexivity.
    + unfold verdict, quiet. cbn. now rewrite Ha.
  - destruct rest as [|b rest0].
    + apply (IH [] R wbuf sch a m k brr rs brem bidx dst); auto. simpl. lia.
    + set (rest := b :: rest0) in *.
      assert (Hlen : 1 <= List.length rest) by (unfold rest; simpl; lia).
      destruct (@RunFacts.deliver_some brem rest sch)
        as (p & Hp & Hpn & Hd); [lia|unfold rest; discriminate|].
      set (piece := firstn p rest) in *.
      assert (Hpl : List.length piece = p)
        by (unfold piece; rewrite length_firstn; lia).
      set (wbuf1 := slice_assign wbuf bidx
                      (Z.of_nat (List.length piece))
                      (slice piece 0 (Z.of_nat (List.length piece)))).
      destruct (IH (skipn p rest)
                   (HR_inner brr rs (brem - Z.of_nat (List.length piece))%Z
                      (bidx + Z.of_nat (List.length piece))%Z wbuf1 dst)
                   wbuf1 (tl sch) a m k brr rs
                   (brem - Z.of_nat (List.length piece))%Z
                   (bidx + Z.of_nat (List.length piece))%Z dst)
        as (j & s' & Hsteps & Hend & Hverdict);
        [rewrite length_skipn; lia | exact Ha | exact Hm | reflexivity
        | rewrite length_skipn, Hpl; lia | ].
      exists (S j), s'. split; [|now split].
      change (S j) with (1 + j). rewrite RunFacts.steps_add.
      erewrite RunFacts.steps_one.
      2:{ eapply PairFacts.receiver_receives; eauto.
          rewrite HR. unfold hr_inner.
          destruct (Z.gtb_spec brem 0); [|lia].
          reflexivity. }
      cbv beta. fold piece.
      destruct (Z.eqb_spec (Z.of_nat (List.length piece)) 0); [lia|].
      cbn [negb]. fold wbuf1. exact Hsteps.
Qed.

End Starve.

Section OddHex.

Variable BUFFER_SIZE : Z.
Variable file : bytes.
Variable sched : list nat.

Hypothesis positive_size : (1 <= BUFFER_SIZE)%Z.
Hypothesis odd_size : (BUFFER_SIZE mod 2 = 1)%Z.
Hypothesis long_file : (BUFFER_SIZE < 2 * Z.of_nat (List.length file))%Z.

(** The first chunk on the line is one byte short of what the receiver
    waits for. *)
Lemma first_chunk :
  let read_size := Z.min (Z.of_nat (List.length file)) (BUFFER_SIZE / 2) in
  (0 <= read_size)%Z /\
  Z.of_nat (List.length (hexlify (fst (file_read file read_size)))) =
    (BUFFER_SIZE - 1)%Z.
Proof.
  intros read_size.
  pose proof (Z.div_mod BUFFER_SIZE 2 ltac:(lia)) as Hdm.
  assert (Hhalf : (0 <= BUFFER_SIZE / 2)%Z) by (apply Z.div_pos; lia).
  assert (E : read_size = (BUFFER_SIZE / 2)%Z) by (unfold read_size; lia).
  split; [lia|].
  unfold file_read. destruct (Z.ltb_spec read_size 0); [lia|]. cbn [fst].
  rewrite XferFacts.hexlify_length, length_firstn. lia.
Qed.

Lemma host_to_board_stalls :
  exists fuel, forall k,
    host_to_board false BUFFER_SIZE file sched (fuel + k) = Some Stalled.
Proof.
  destruct first_chunk as [Hrs Hchunk].
  set (len := Z.of_nat (List.length file)) in *.
  set (read_size := Z.min len (BUFFER_SIZE / 2)) in *.
  destruct (file_read file read_size) as [buf src'] eqn:Eread.
  cbn [fst] in Hchunk.
  assert (Ewbuf : bytearray BUFFER_SIZE = Ok (repeat Byte.x00 (Z.to_nat BUFFER_SIZE))).
  { unfold bytearray. destruct (Z.ltb_spec BUFFER_SIZE 0); [lia|reflexivity]. }
  set (a := HS_ack len read_size src').
  set (R := BR_outer (len * 2) (repeat Byte.x00 (Z.to_nat BUFFER_SIZE)) []).
  destruct (@br_inner_starves false BUFFER_SIZE (List.length (hexlify buf))
              (hexlify buf) R (repeat Byte.x00 (Z.to_nat BUFFER_SIZE)) sched
              a 1%Z
              (fun char => if is_ack char
                           then HS_loop (len - read_size) src'
                           else HS_echo char len read_size src')
              (len * 2)%Z (Z.min (len * 2) BUFFER_SIZE)
              (Z.min (len * 2) BUFFER_SIZE) 0%Z [])
    as (j & s' & Hsteps & Hend & Hverdict);
    [lia | reflexivity | lia | | lia | lia | lia | ].
  - unfold R. cbn [br_step].
    destruct (Z.gtb_spec (len * 2) 0); [reflexivity|lia].
  - exists (1 + j). intros k. unfold host_to_board. fold len.
    apply RunFacts.run_more. rewrite <- Hverdict.
    apply RunFacts.run_steps; [|exact Hend].
    rewrite RunFacts.steps_add. erewrite RunFacts.steps_one; [exact Hsteps|].
    unfold recv_file_from_host. cbn [negb]. rewrite Ewbuf. fold R.
    change (start (send_file_to_remote file len) R sched)
      with (quiet (HS_loop len file) R [] [] sched).
    change (hexlify buf) with ([] ++ hexlify buf)%list at 1.
    apply PairFacts.sender_sends.
    cbn [hs_step]. destruct (Z.gtb_spec len 0); [|lia].
    fold read_size. rewrite Eread. reflexivity.
Qed.

Lemma board_to_host_stalls :
  exists fuel, forall k,
    board_to_host false BUFFER_SIZE file sched (fuel + k) = Some Stalled.
Proof.
  destruct first_chunk as [Hrs Hchunk].
  set (len := Z.of_nat (List.length file)) in *.
  set (read_size := Z.min len (BUFFER_SIZE / 2)) in *.
  destruct (file_read file read_size) as [buf src'] eqn:Eread.
  cbn [fst] in Hchunk.
  assert (Ewbuf : bytearray BUFFER_SIZE = Ok (repeat Byte.x00 (Z.to_nat BUFFER_SIZE))).
  { unfold bytearray. destruct (Z.ltb_spec BUFFER_SIZE 0); [lia|reflexivity]. }
  set (a := BS_ack (len - read_size) src').
  set (R := HR_outer (len * 2) (repeat Byte.x00 (Z.to_nat BUFFER_SIZE)) []).
  destruct (@hr_inner_starves false BUFFER_SIZE (List.length (hexlify buf))
              (hexlify buf) R (repeat Byte.x00 (Z.to_nat BUFFER_SIZE)) sched
              a 1%Z
              (fun char =>
                 match char with
                 | [] => BS_ack (len - read_size) src'
                 | _ => if is_ack char
                        then BS_loop (len - read_size) src'
                        else BS_echo char (len - read_size) src'
                 end)
              (len * 2)%Z (Z.min (len * 2) BUFFER_SIZE)
              (Z.min (len * 2) BUFFER_SIZE) 0%Z [])
    as (j & s' & Hsteps & Hend & Hverdict);
    [lia | reflexivity | lia | | lia | ].
  - unfold R. cbn [hr_step].
    destruct (Z.gtb_spec (len * 2) 0); [reflexivity|lia].
  - exists (1 + j). intros k. unfold board_to_host. fold len.
    apply RunFacts.run_more. rewrite <- Hverdict.
    apply RunFacts.run_steps; [|exact Hend].
    rewrite RunFacts.steps_add. erewrite RunFacts.steps_one; [exact Hsteps|].
    unfold recv_file_from_remote. cbn [negb]. rewrite Ewbuf. fold R.
    change (start (send_file_to_host file len) R sched)
      with (quiet (BS_loop len file) R [] [] sched).
    change (hexlify buf) with ([] ++ hexlify buf)%list at 1.
    apply PairFacts.sender_sends.
    cbn [bs_step]. destruct (Z.gtb_spec len 0); [|lia].
    fold read_size. rewrite Eread. reflexivity.
Qed.

End OddHex.

End StallFacts.

(** X2.  In hex mode (no binary [stdin.buffer] on the board) with an odd
    [BUFFER_SIZE], a transfer of a file longer than half of it never
    finishes, in either direction and however the bytes arrive: the
    sender writes the hex digits of [BUFFER_SIZE // 2] bytes, one byte
    less than the chunk of [BUFFER_SIZE] bytes the receiver waits for,
    and waits for an ACK that is never sent. *)
Theorem hex_transfer_stalls_on_every_odd_buffer :
  forall (BUFFER_SIZE : Z) (file : bytes) (sched : list nat),
    (1 <= BUFFER_SIZE)%Z ->
    (BUFFER_SIZE mod 2 = 1)%Z ->
    (BUFFER_SIZE < 2 * Z.of_nat (List.length file))%Z ->
    exists fuel, forall k,
      Xfer.host_to_board false BUFFER_SIZE file sched (fuel + k) =
        Some Xfer.Stalled /\
      Xfer.board_to_host false BUFFER_SIZE file sched (fuel + k) =
        Some Xfer.Stalled.
Proof.
  intros bs file sched Hpos Hodd Hlong.
  destruct (@StallFacts.host_to_board_stalls bs file sched Hpos Hodd Hlong)
    as [f1 H1].
  destruct (@StallFacts.board_to_host_stalls bs file sched Hpos Hodd Hlong)
    as [f2 H2].
  exists (f1 + f2). intros k. split.
  - rewrite <- Nat.add_assoc. apply H1.
  - rewrite (Nat.add_comm f1 f2), <- Nat.add_assoc. apply H2.
Qed.

Lemma hex_transfer_stalls_on_every_odd_buffer_witness :
  exists fuel, forall k,
    Xfer.host_to_board false 5 [Byte.x41; Byte.x42; Byte.x43] [1] (fuel + k) =
      Some Xfer.Stalled /\
    Xfer.board_to_host false 5 [Byte.x41; Byte.x42; Byte.x43] [1] (fuel + k) =
      Some Xfer.Stalled.
Proof.
  apply (@hex_transfer_stalls_on_every_odd_buffer 5
           [Byte.x41; Byte.x42; Byte.x43] [1]).
  - lia.
  - reflexivity.
  - simpl. lia.
Defined.

(** ** Closed devices, the REPL and [rm] *)

Module DeviceFacts.

Import Remote.

(** A closed device raises [DeviceError] on every operation, and stays as
    it is. *)
Lemma closed_refuses on_enter on_exec on_follow on_exit xfer_func self :
  pyb self = None ->
  (forall num_bytes, read num_bytes self = (Raise DeviceError, self)) /\
  (forall buf, write buf self = (Raise DeviceError, self)) /\
  remote on_enter on_exec on_follow on_exit xfer_func self =
    (Raise DeviceError, self).
Proof.
  intros H. unfold read, write, remote, bindM, check_pyb.
  rewrite H. repeat split.
Qed.

(** With the link up a write is accepted and leaves the device as it is. *)
Lemma write_up buf self p :
  pyb self = Some p -> link_up p = true ->
  write buf self = (Ok (List.length buf), self).
Proof.
  intros H Hup. destruct self as [i s n np rd hb pb]. simpl in H. subst pb.
  unfold write, bindM, check_pyb, on_pyb, serial_write. cbn. rewrite Hup.
  destruct p; reflexivity.
Qed.

End DeviceFacts.

(** X21.  [DeviceError] from a read or a write is final for the device:
    the device is then closed, [status] says so, and every later [read],
    [write] and [remote] on it raises [DeviceError] again without touching
    the transport. *)
Theorem device_error_is_final :
  forall (self self' : Device) (num_bytes : nat) (buf : bytes),
    Remote.read num_bytes self = (Raise DeviceError, self') \/
    Remote.write buf self = (Raise DeviceError, self') ->
    pyb self' = None /\
    Shell.status self' = "closed"%string /\
    (forall n, Remote.read n self' = (Raise DeviceError, self')) /\
    (forall b, Remote.write b self' = (Raise DeviceError, self')) /\
    (forall on_enter on_exec on_follow on_exit xfer_func,
       Remote.remote on_enter on_exec on_follow on_exit xfer_func self' =
         (Raise DeviceError, self')).
Proof.
  intros self self' num_bytes buf H.
  assert (Hclosed : pyb self' = None).
  { destruct H as [H|H].
    - now apply RemoteFacts.read_closes in H.
    - now apply RemoteFacts.write_closes in H. }
  split; [exact Hclosed|]. split; [unfold Shell.status; now rewrite Hclosed|].
  repeat split; intros;
    now apply (@DeviceFacts.closed_refuses (Ok tt) (Ok tt) (Ok (""%string, ""%string))
                 (Ok tt) None self' Hclosed) ||
    now apply DeviceFacts.closed_refuses.
Qed.

Lemma device_error_is_final_witness :
  let self' := Remote.set_pyb (Remote.board false) None in
  Remote.write [Byte.x0d] (Remote.board false) = (Raise DeviceError, self') /\
  pyb self' = None /\
  Shell.status self' = "closed"%string /\
  (forall n, Remote.read n self' = (Raise DeviceError, self')) /\
  (forall b, Remote.write b self' = (Raise DeviceError, self')) /\
  (forall on_enter on_exec on_follow on_exit xfer_func,
     Remote.remote on_enter on_exec on_follow on_exit xfer_func self' =
       (Raise DeviceError, self')).
Proof.
  intros self'. split; [reflexivity|].
  apply (@device_error_is_final (Remote.board false) self' 0 [Byte.x0d]).
  right. reflexivity.
Defined.

Module ReplFacts.

Lemma bytes_eqb_eq a b : Repl.bytes_eqb a b = true <-> a = b.
Proof.
  revert b. induction a as [|x a IH]; intros [|y b]; simpl;
    try (split; [discriminate|discriminate]); [tauto|].
  rewrite andb_true_iff, IH. split.
  - intros [Hx ->]. f_equal. now apply Byte.byte_dec_bl.
  - intros [= -> ->]. split; [|reflexivity]. now apply Byte.byte_dec_lb.
Qed.

Lemma single_key (char : bytes) (b : Byte.byte) :
  List.length char <= 1 -> In b char -> char = [b].
Proof.
  destruct char as [|x [|y char]]; simpl; intros Hl Hin;
    [contradiction| |lia].
  destruct Hin as [->|[]]. reflexivity.
Qed.

End ReplFacts.

(** X22.  The keyboard loop of the REPL, on a device whose link is up:
    the keys typed before the first Control-X are sent to the board in
    order, a newline as a carriage return and every other key as it is;
    Control-X ends the loop and neither it nor anything typed after it is
    sent.  When every key is a single byte, as [getch] returns them, no
    byte 0x18 and no byte 0x0a ever reaches the board. *)
Theorem repl_keys_forwarded :
  forall (keys : list bytes) (sent : bytes) (self : Device) (p : Pyboard),
    pyb self = Some p ->
    link_up p = true ->
    Repl.key_loop keys sent self =
      (if existsb (fun char => Repl.bytes_eqb char Repl.QUIT_REPL_BYTE) keys
       then Repl.Quit else Repl.Waiting,
       (sent ++ flat_map key_bytes (before_quit keys))%list,
       self) /\
    (Forall (fun char => List.length char <= 1) keys ->
     ~ In Byte.x18 (flat_map key_bytes (before_quit keys)) /\
     ~ In Byte.x0a (flat_map key_bytes (before_quit keys))).
Proof.
  intros keys sent self p Hp Hup. split.
  - revert sent. induction keys as [|char keys IH]; intros sent.
    + simpl. now rewrite app_nil_r.
    + destruct char as [|b char].
      * cbn [Repl.key_loop existsb before_quit flat_map Repl.bytes_eqb].
        cbn [Repl.QUIT_REPL_BYTE orb key_bytes app]. rewrite IH.
        reflexivity.
      * cbn [Repl.key_loop existsb before_quit].
        destruct (Repl.bytes_eqb (b :: char) Repl.QUIT_REPL_BYTE).
        -- simpl. now rewrite app_nil_r.
        -- cbn [orb flat_map]. fold (key_bytes (b :: char)).
           rewrite (DeviceFacts.write_up _ _ Hp Hup), IH.
           now rewrite <- app_assoc.
  - intros Hall. induction Hall as [|char keys Hlen Hall IH];
      [split; intros []|].
    cbn [before_quit].
    destruct (Repl.bytes_eqb char Repl.QUIT_REPL_BYTE) eqn:Eq;
      [split; intros []|].
    cbn [flat_map]. destruct IH as [IH1 IH2].
    split; intros Hin; apply in_app_or in Hin as [Hin|Hin]; auto;
      unfold key_bytes in Hin;
      destruct (Repl.bytes_eqb char [Byte.x0a]) eqn:Enl.
    + destruct Hin as [Hin|[]]. discriminate.
    + apply (@ReplFacts.single_key char _ Hlen) in Hin. subst char.
      vm_compute in Eq. discriminate.
    + destruct Hin as [Hin|[]]. discriminate.
    + apply (@ReplFacts.single_key char _ Hlen) in Hin. subst char.
      vm_compute in Enl. discriminate.
Qed.

Lemma repl_keys_forwarded_witness :
  Repl.key_loop [[Byte.x31]; []; [Byte.x0a]; [Byte.x18]; [Byte.x32]] []
    (Remote.board true) =
    (Repl.Quit, [Byte.x31; Byte.x0d], Remote.board true).
Proof.
  destruct (@repl_keys_forwarded
              [[Byte.x31]; []; [Byte.x0a]; [Byte.x18]; [Byte.x32]] []
              (Remote.board true)
              {| repl := friendly; rx := []; link_up := true |}
              eq_refl eq_refl) as [H _].
  exact H.
Defined.



(** ** Redirection and connection *)

Module RedirectFacts.

Import Redirect.
Local Open Scope string_scope.

Lemma index_None x args : index x args = None <-> ~ In x args.
Proof.
  induction args as [|a args IH]; simpl; [tauto|].
  destruct (String.eqb_spec a x) as [E|E].
  - split; [discriminate|]. intros H. exfalso. apply H. now left.
  - destruct (index x args) as [i|].
    + split; [discriminate|]. intros H. exfalso.
      assert (Hn : ~ In x args) by tauto.
      apply IH in Hn. discriminate.
    + split; [|reflexivity]. intros _ [H|H]; [contradiction|].
      now apply (proj1 IH).
Qed.

Lemma index_Some x args i :
  index x args = Some i ->
  exists pre post,
    args = (pre ++ x :: post)%list /\ List.length pre = i /\ ~ In x pre.
Proof.
  revert i. induction args as [|a args IH]; simpl; intros i; [discriminate|].
  destruct (String.eqb_spec a x) as [E|E].
  - intros [= <-]. subst a. exists [], args. repeat split. intros [].
  - destruct (index x args) as [j|]; [|discriminate].
    intros [= <-]. destruct (IH j eq_refl) as (pre & post & -> & Hl & Hn).
    exists (a :: pre), post. simpl. repeat split; [now rewrite Hl|].
    intros [H|H]; [contradiction|contradiction].
Qed.

Lemma index_first x pre post :
  ~ In x pre -> index x (pre ++ x :: post) = Some (List.length pre).
Proof.
  induction pre as [|a pre IH]; simpl; intros H.
  - now rewrite String.eqb_refl.
  - destruct (String.eqb_spec a x) as [E|E]; [exfalso; apply H; now left|].
    rewrite IH by tauto. reflexivity.
Qed.

Lemma del_middle pre a post :
  del (List.length pre) (pre ++ a :: post) = (pre ++ post)%list.
Proof. induction pre as [|b pre IH]; simpl; [reflexivity|now rewrite IH]. Qed.

Lemma del_second pre a b post :
  del (List.length pre + 1) (pre ++ a :: b :: post) = (pre ++ a :: post)%list.
Proof. induction pre as [|c pre IH]; simpl; [reflexivity|now rewrite IH]. Qed.

Lemma nth_middle pre (a : string) post :
  nth_error (pre ++ a :: post) (List.length pre) = Some a.
Proof. induction pre as [|b pre IH]; simpl; [reflexivity|exact IH]. Qed.

Lemma prefix_refl p : String.prefix p p = true.
Proof.
  induction p as [|c p IH]; simpl; [reflexivity|].
  destruct (ascii_dec c c); [exact IH|contradiction].
Qed.

End RedirectFacts.


(** X25.  [Device.__init__] accepts a board exactly when it can read
    binary data or, failing that, convert from hex; otherwise it raises
    [ShellError].  The device it makes claims, through [is_root_path],
    exactly the paths ["/" + dir] and those beginning with
    ["/" + dir + "/"], for the directories [dir] that the board listed
    under its root when it was connected. *)
Theorem init_root_dirs :
  forall (test_buffer test_unhexlify : result bool)
         (listdir_root : result (list string)) (sync_time : result unit)
         (board_name : result string) (self : Device) (p : Pyboard),
    let made := Connect.init test_buffer test_unhexlify listdir_root
                             sync_time board_name self p in
    (made = Connect.Unsupported <->
     test_buffer = Ok false /\ test_unhexlify = Ok false) /\
    (forall d, made = Connect.Connected d ->
       (has_buffer d = true \/ test_unhexlify = Ok true) /\
       exists dirs,
         listdir_root = Ok dirs /\
         forall filename,
           Reg.is_root_path d filename = true <->
           exists dir,
             In dir dirs /\
             (filename = ("/" ++ dir)%string \/
              PyStr.startswith filename ("/" ++ dir ++ "/") = true)).
Proof.
  intros test_buffer test_unhexlify listdir_root sync_time board_name self p made.
  unfold made, Connect.init. split.
  - destruct test_buffer as [[|]|]; split; try discriminate;
      try (intros [H _]; discriminate).
    + destruct listdir_root; [|discriminate].
      destruct sync_time; [|discriminate].
      destruct board_name; discriminate.
    + destruct test_unhexlify as [[|]|]; try discriminate; [|auto].
      destruct listdir_root; [|discriminate].
      destruct sync_time; [|discriminate].
      destruct board_name; discriminate.
    + intros [_ ->]. reflexivity.
  - intros d H.
    assert (Hd : exists buffer dirs,
              test_buffer = Ok buffer /\
              (buffer = true \/ test_unhexlify = Ok true) /\
              listdir_root = Ok dirs /\
              has_buffer d = buffer /\
              root_dirs d = map (fun dir => ("/" ++ dir ++ "/")%string) dirs).
    { destruct test_buffer as [buffer|]; [|discriminate].
      assert (Hcap : buffer = true \/ test_unhexlify = Ok true).
      { destruct buffer; [now left|right].
        destruct test_unhexlify as [[|]|]; [reflexivity|discriminate|discriminate]. }
      destruct (if buffer then Ok true else test_unhexlify) as [[|]|];
        try discriminate.
      destruct listdir_root as [dirs|]; [|discriminate].
      destruct sync_time; [|discriminate].
      destruct board_name as [nm|]; [|discriminate].
      injection H as <-. exists buffer, dirs. repeat split; auto. }
    destruct Hd as (buffer & dirs & _ & Hcap & Hdirs & Hb & Hroots).
    split; [rewrite Hb; exact Hcap|].
    exists dirs. split; [exact Hdirs|]. intros filename.
    unfold Reg.is_root_path. rewrite Hroots, existsb_exists. split.
    + intros (rd & Hin & Hpre). apply in_map_iff in Hin as (dir & <- & Hin).
      exists dir. split; [exact Hin|]. unfold PyStr.startswith in *.
      apply RouteFacts2.prefix_of_slashed in Hpre as [Hpre|Hpre]; [now right|].
      left. rewrite <- RouteFacts.app_assoc_s in Hpre.
      change ("/" ++ dir)%string with (String "/" dir).
      clear - Hpre. 
      assert (E : forall a b : string, (a ++ "/" = b ++ "/" -> a = b)%string).
      { induction a as [|c a IH]; intros [|c' b]; simpl; intros H.
        - reflexivity.
        - injection H as <- H. destruct b; discriminate.
        - injection H as -> H. destruct a; discriminate.
        - injection H as -> H. f_equal. now apply IH. }
      symmetry. apply E. exact Hpre.
    + intros (dir & Hin & Hf). exists ("/" ++ dir ++ "/")%string. split.
      * apply in_map_iff. now exists dir.
      * unfold PyStr.startswith in *. destruct Hf as [-> | Hpre].
        -- rewrite RouteFacts.app_assoc_s. apply RedirectFacts.prefix_refl.
        -- now apply RouteFacts.prefix_weaken.
Qed.


Lemma init_root_dirs_witness :
  exists d,
    Connect.init (Ok false) (Ok true) (Ok ["flash"; "sd"]%string) (Ok tt)
                 (Ok "pyboard"%string)
                 (Reg.new_device 1 "/dev/ttyACM0" "" [])
                 {| repl := friendly; rx := []; link_up := true |} =
      Connect.Connected d /\
    has_buffer d = false /\
    Reg.is_root_path d "/flash" = true /\
    Reg.is_root_path d "/sd/lib/x.py" = true.
Proof.
  eexists. split; [reflexivity|]. split; [reflexivity|].
  destruct (@init_root_dirs (Ok false) (Ok true) (Ok ["flash"; "sd"]%string)
              (Ok tt) (Ok "pyboard"%string)
              (Reg.new_device 1 "/dev/ttyACM0" "" [])
              {| repl := friendly; rx := []; link_up := true |})
    as (_ & Hd).
  destruct (Hd _ eq_refl) as (_ & dirs & [= <-] & Hroot). split; apply Hroot.
  - exists "flash"%string. split; [now left|now left].
  - exists "sd"%string. split; [right; now left|now right].
Defined.

(** ** Instances of the general statements *)

Lemma transfer_fidelity_witness :
  buffer_ok false 4 /\
  exists fuel, forall k,
    Xfer.host_to_board false 4 [Byte.x41; Byte.x42; Byte.x43] [1; 2] (fuel + k) =
      Some (Xfer.Finished (Ok tt) (true, [Byte.x41; Byte.x42; Byte.x43])) /\
    Xfer.board_to_host false 4 [Byte.x41; Byte.x42; Byte.x43] [1; 2] (fuel + k) =
      Some (Xfer.Finished true (Ok tt, [Byte.x41; Byte.x42; Byte.x43])).
Proof.
  assert (H : buffer_ok false 4) by (split; [lia|reflexivity]).
  split; [exact H|].
  apply (@transfer_fidelity false 4 [Byte.x41; Byte.x42; Byte.x43] [1; 2] H).
Defined.

Lemma colliding_names_distinct_witness :
  let devs := [Reg.new_device 1 "/dev/ttyACM0" "pyboard" [];
               Reg.new_device 2 "/dev/ttyACM1" "pyboard" [];
               Reg.new_device 3 "/dev/ttyACM2" "pyboard" []] in
  map name (DEVS (add_all Reg.initial devs)) =
    ["pyboard"; "pyboard-2"; "pyboard-3"]%string /\
  NoDup (map name (DEVS (add_all Reg.initial devs))).
Proof.
  intros devs.
  destruct (@colliding_names_distinct "pyboard" devs) as (Hn & Hd & _).
  - repeat constructor.
  - simpl. repeat constructor; simpl; intuition discriminate.
  - split; [exact Hn|exact Hd].
Defined.
